(** * Order and cart handlers of the e-commerce backend

    A shallow embedding of [controllers/orderController.js] and
    [controllers/cartController.js]: the request handlers are written as
    programs over the awaited store calls they make, and the store is a
    small relational state with committed tables, open transactions and id
    sequences.  The handlers are then run one request at a time, or two at
    a time under an explicit schedule. *)

From Stdlib Require Import ZArith List String Bool Lia Sorted Permutation.
From Stdlib Require Import DecimalString DecimalPos DecimalZ.
From Stdlib Require Floats.
Import ListNotations.

Open Scope string_scope.
Open Scope list_scope.
Open Scope Z_scope.

(** ** JavaScript values

    What the handlers compute with: texts, integers small enough to be
    exact, and doubles where the code multiplies a price. *)

(** [!x] on a string and on a number of a request. *)
Definition falsy_str (x : string) : bool := String.eqb x "".
Definition falsy_num (x : Z) : bool := x =? 0.

(** Template-literal rendering of an integer. *)
Definition Number_toString (n : Z) : string :=
  NilZero.string_of_int (Z.to_int n).

Definition is_digit (c : Ascii.ascii) : bool :=
  (48 <=? Ascii.nat_of_ascii c)%nat && (Ascii.nat_of_ascii c <=? 57)%nat.

(** White space of the ASCII range. *)
Definition is_space (c : Ascii.ascii) : bool :=
  let n := Ascii.nat_of_ascii c in
  ((9 <=? n)%nat && (n <=? 13)%nat) || (n =? 32)%nat.

Fixpoint skip_spaces (s : string) : string :=
  match s with
  | String c rest => if is_space c then skip_spaces rest else s
  | EmptyString => EmptyString
  end.

Fixpoint leading_digits (s : string) : string :=
  match s with
  | String c rest => if is_digit c then String c (leading_digits rest) else EmptyString
  | EmptyString => EmptyString
  end.

Fixpoint drop_digits (s : string) : string :=
  match s with
  | String c rest => if is_digit c then drop_digits rest else s
  | EmptyString => EmptyString
  end.

Fixpoint replicate (n : nat) (c : Ascii.ascii) : string :=
  match n with
  | O => EmptyString
  | S n => String c (replicate n c)
  end.

Definition zero : Ascii.ascii := Ascii.ascii_of_nat 48.

(** Doubles are the binary64 numbers of the kernel.  [toString] is
    Number::toString of ECMAScript: the shortest digits that read back as
    the same double, written plainly between 1e-6 and 1e21 and with an
    exponent outside. *)
Module Double.

Definition t := PrimFloat.float.

(** The double nearest to an integer. *)
Definition of_Z (z : Z) : t :=
  FloatOps.SF2Prim (SpecFloat.binary_normalize FloatOps.prec FloatOps.emax z 0 false).

Definition mul : t -> t -> t := PrimFloat.mul.
Definition div : t -> t -> t := PrimFloat.div.

(** [Number(text)] for the text of a DECIMAL(10,2) value given in
    hundredths: the double nearest to the decimal.  Both operands of the
    division are exact, so the quotient is rounded once. *)
Definition of_DECIMAL (hundredths : Z) : t := div (of_Z hundredths) (of_Z 100).

(** The integer a double is, for the doubles that are integers. *)
Definition to_Z (x : t) : Z :=
  match FloatOps.Prim2SF x with
  | SpecFloat.S754_finite false m e => Z.shiftl (Z.pos m) e
  | SpecFloat.S754_finite true m e => - Z.shiftl (Z.pos m) e
  | _ => 0
  end.

(** [s * 10^p] and [b * 2^e] over a common denominator. *)
Definition decimal_binary (s p b e : Z) : Z * Z :=
  (s * 10 ^ Z.max p 0 * 2 ^ Z.max (- e) 0,
   b * 2 ^ Z.max e 0 * 10 ^ Z.max (- p) 0).

Definition decimal_compare (s p b e : Z) : comparison :=
  let (l, r) := decimal_binary s p b e in l ?= r.

(** The [n] with [10^(n-1) <= m * 2^e < 10^n], for [m > 0]: from a guess,
    down and then up. *)
Fixpoint magnitude_up (fuel : nat) (m e n : Z) : Z :=
  match fuel with
  | O => n
  | S fuel =>
      match decimal_compare 1 n m e with
      | Gt => n
      | _ => magnitude_up fuel m e (n + 1)
      end
  end.

Fixpoint magnitude_down (fuel : nat) (m e n : Z) : Z :=
  match fuel with
  | O => n
  | S fuel =>
      match decimal_compare 1 (n - 1) m e with
      | Gt => magnitude_down fuel m e (n - 1)
      | _ => n
      end
  end.

Definition magnitude (m e : Z) : Z :=
  let guess := (Z.log2 m + e) * 30103 / 100000 + 1 in
  magnitude_up 400 m e (magnitude_down 400 m e guess).

(** Whether the decimal [s * 10^p] reads back as the double [m * 2^e]: it
    lies between the midpoints to the neighbouring doubles, the midpoints
    included when [m] is even. *)
Definition reads_back (m e s p : Z) : bool :=
  let below := if (m =? 2 ^ 52) && (-1074 <? e) then 4 * m - 1 else 4 * m - 2 in
  let above := 4 * m + 2 in
  match decimal_compare s p below (e - 2), decimal_compare s p above (e - 2) with
  | Gt, Lt => true
  | Eq, _ => Z.even m
  | _, Eq => Z.even m
  | _, _ => false
  end.

(** The digits [s] and the position [n] of the point when [k] digits are
    enough: of the two decimals of [k] digits around the double, the one
    that reads back, the closer one when both do. *)
Definition digits_at (m e n0 k : Z) : option (Z * Z) :=
  let p := n0 - k in
  let low := (m * 2 ^ Z.max e 0 * 10 ^ Z.max (- p) 0)
             / (10 ^ Z.max p 0 * 2 ^ Z.max (- e) 0) in
  let high := low + 1 in
  let carried := if high =? 10 ^ k then (10 ^ (k - 1), n0 + 1) else (high, n0) in
  match reads_back m e low p, reads_back m e high p with
  | true, false => Some (low, n0)
  | false, true => Some carried
  | true, true =>
      match decimal_compare (2 * low + 1) p (2 * m) e with
      | Gt => Some (low, n0)
      | Lt => Some carried
      | Eq => if Z.even low then Some (low, n0) else Some carried
      end
  | false, false => None
  end.

Fixpoint shortest (fuel : nat) (m e n0 k : Z) : Z * Z * Z :=
  match fuel with
  | O => (m, n0, k)
  | S fuel =>
      match digits_at m e n0 k with
      | Some (s, n) => (s, n, k)
      | None => shortest fuel m e n0 (k + 1)
      end
  end.

Definition zeros (n : Z) : string := replicate (Z.to_nat n) zero.

Definition exponent_text (x : Z) : string :=
  String.append (if x <? 0 then "e-" else "e+") (Number_toString (Z.abs x)).

(** Number::toString of the positive double [m * 2^e]. *)
Definition positive_text (m e : Z) : string :=
  let '(s, n, k) := shortest 17 m e (magnitude m e) 1 in
  let digits := Number_toString s in
  if (k <=? n) && (n <=? 21) then String.append digits (zeros (n - k))
  else if (0 <? n) && (n <=? 21)
  then String.append (String.substring 0 (Z.to_nat n) digits)
         (String.append "." (String.substring (Z.to_nat n) (Z.to_nat (k - n)) digits))
  else if (-6 <? n) && (n <=? 0)
  then String.append "0." (String.append (zeros (- n)) digits)
  else if k =? 1 then String.append digits (exponent_text (n - 1))
  else String.append (String.substring 0 1 digits)
         (String.append "."
            (String.append (String.substring 1 (Z.to_nat (k - 1)) digits)
               (exponent_text (n - 1)))).

(** [String(x)] *)
Definition toString (x : t) : string :=
  match FloatOps.Prim2SF x with
  | SpecFloat.S754_zero _ => "0"
  | SpecFloat.S754_infinity false => "Infinity"
  | SpecFloat.S754_infinity true => "-Infinity"
  | SpecFloat.S754_nan => "NaN"
  | SpecFloat.S754_finite false m e => positive_text (Z.pos m) e
  | SpecFloat.S754_finite true m e => String.append "-" (positive_text (Z.pos m) e)
  end.

End Double.

Arguments Double.of_Z : simpl never.
Arguments Double.of_DECIMAL : simpl never.
Arguments Double.mul : simpl never.
Arguments Double.div : simpl never.
Arguments Double.to_Z : simpl never.
Arguments Double.toString : simpl never.

(** ** The columns

    INTEGER is the 32-bit integer of the store, STRING a VARCHAR(255) and
    DECIMAL(10,2) a decimal of two decimals below 10^8, held here in
    hundredths. *)

Definition INTEGER (z : Z) : bool := (-2147483648 <=? z) && (z <=? 2147483647).

Definition STRING (s : string) : bool := (String.length s <=? 255)%nat.

(** The text in which the driver hands a DECIMAL(10,2) to the handlers:
    "200.00" for 20000 hundredths. *)
Definition DECIMAL_text (hundredths : Z) : string :=
  let cents := Z.abs hundredths mod 100 in
  String.append (if hundredths <? 0 then "-" else "")
    (String.append (Number_toString (Z.abs hundredths / 100))
       (String.append "."
          (String.append (if cents <? 10 then "0" else "") (Number_toString cents)))).

Definition digits_number (ds : string) : Z :=
  match NilEmpty.uint_of_string ds with
  | Some d => Z.of_uint d
  | None => 0
  end.

Definition is_char (n : nat) (c : Ascii.ascii) : bool :=
  (Ascii.nat_of_ascii c =? n)%nat.

(** The exponent of a numeric literal and what follows it: none is 0; an
    "e" without digits is no literal. *)
Definition numeric_exponent (s : string) : option (Z * string) :=
  match s with
  | String c rest =>
      if is_char 101 c || is_char 69 c
      then
        let (negative, rest) :=
          match rest with
          | String c' rest' =>
              if is_char 45 c' then (true, rest')
              else if is_char 43 c' then (false, rest')
              else (false, rest)
          | EmptyString => (false, rest)
          end in
        match leading_digits rest with
        | EmptyString => None
        | ds =>
            Some (if negative then - digits_number ds else digits_number ds,
                  drop_digits rest)
        end
      else Some (0, s)
  | EmptyString => Some (0, s)
  end.

(** What a DECIMAL(10,2) column makes of a text: the literal (sign, digits
    with an optional point, optional exponent, white space around) rounded
    at the second decimal, half away from zero; nothing when the text is
    no such literal or the value does not fit the column.  The column then
    rejects the statement. *)
Definition DECIMAL_10_2 (text : string) : option Z :=
  let s := skip_spaces text in
  let (negative, s) :=
    match s with
    | String c rest =>
        if is_char 45 c then (true, rest)
        else if is_char 43 c then (false, rest)
        else (false, s)
    | EmptyString => (false, s)
    end in
  let whole := leading_digits s in
  let s := drop_digits s in
  let (fraction, s) :=
    match s with
    | String c rest =>
        if is_char 46 c then (leading_digits rest, drop_digits rest)
        else (EmptyString, s)
    | EmptyString => (EmptyString, s)
    end in
  if (String.length whole + String.length fraction =? 0)%nat then None
  else
    match numeric_exponent s with
    | None => None
    | Some (exponent, s) =>
        match skip_spaces s with
        | String _ _ => None
        | EmptyString =>
            let n := digits_number (String.append whole fraction) in
            let shift := exponent - Z.of_nat (String.length fraction) + 2 in
            let magnitude :=
              if 0 <=? shift then n * 10 ^ shift
              else (n + 5 * 10 ^ (- shift - 1)) / 10 ^ (- shift) in
            if 10 ^ 10 <=? magnitude then None
            else Some (if negative then - magnitude else magnitude)
        end
    end.

(** A date of a request body: its text, and the time value that
    [new Date(text)] has for it, none when the text is no date.  The
    parser is the engine's; a body is taken together with its reading. *)
Module DateText.
Record t := mk { text : string; time : option Z }.
End DateText.

(** DATE is a timestamp with time zone.  The driver writes a date with its
    year in digits, which the store reads from the year 1 on; the dates of
    JavaScript end at 8.64e15 milliseconds, before those of the store
    do. *)
Definition DATE (d : DateText.t) : bool :=
  match DateText.time d with
  | Some time => (-62135596800000 <=? time) && (time <=? 8640000000000000)
  | None => false
  end.

(** ** Rows of the tables the handlers touch

    Integer columns are [Z].  Prices of products and of cart lines are
    DECIMAL(10,2) and held in hundredths; [totalAmount] of an order is a
    DECIMAL without scale, which keeps the decimal a double is written
    with, and is held as that double.  [deliveryDate] is held as the date
    of the body, of which the column keeps the time.  [createdAt] and
    [updatedAt] are not modelled. *)

(** models/user.js, with the columns the handlers read. *)
Module User.
Record t := mk { id : Z; email : string }.
End User.

(** Modelled from the spec: the Product model file is not among the
    sources.  The columns are those the handlers read and write; the spec
    gives the unit price as a fixed-point decimal, taken here with the two
    decimals of the price of a cart line and held in hundredths, and the
    stock as an integer. *)
Module Product.
Record t := mk { id : Z; name : string; price : Z; stock : Z }.

Definition set_stock (v : Z) (p : t) : t :=
  mk (id p) (name p) (price p) v.
End Product.

(** The Order model. *)
Module Order.
Record t := mk {
  id : Z;
  userId : Z;
  productId : Z;
  totalAmount : Double.t;
  quantity : Z;
  status : string;
  address : string;
  city : string;
  zipcode : string;
  deliveryDate : DateText.t;
  courierName : string
}.

Definition set_id (v : Z) (o : t) : t :=
  mk v (userId o) (productId o) (totalAmount o) (quantity o) (status o)
     (address o) (city o) (zipcode o) (deliveryDate o) (courierName o).

Definition set_status (v : string) (o : t) : t :=
  mk (id o) (userId o) (productId o) (totalAmount o) (quantity o) v
     (address o) (city o) (zipcode o) (deliveryDate o) (courierName o).
End Order.

(** The Carts table as the create-cart migration declares it; [price] in
    hundredths. *)
Module Cart.
Record t := mk { id : Z; userId : Z; productId : Z; quantity : Z; price : Z }.

Definition set_id (v : Z) (c : t) : t :=
  mk v (userId c) (productId c) (quantity c) (price c).
End Cart.

(** ** The store *)

(** The committed contents of the four tables.  Tables are lists of rows:
    nothing in the schema makes (userId, productId) unique in Carts, so
    duplicates are representable and a lookup returns the first match. *)
Record Db := mkDb {
  users : list User.t;
  products : list Product.t;
  orders : list Order.t;
  carts : list Cart.t
}.

Definition Txn := nat.

(** What a statement run inside a transaction leaves pending until commit. *)
Inductive Write :=
| SetStock (productId : Z) (stock : Z)
| InsertOrder (o : Order.t).

(** The server: committed tables, the transactions that were begun and not
    yet committed with their pending writes, and the id sequences (which a
    database does not roll back). *)
Record Server := mkServer {
  db : Db;
  open : list (Txn * list Write);
  txnSeq : Txn;
  orderSeq : Z;
  cartSeq : Z
}.

Definition with_db (d : Db) (s : Server) : Server :=
  mkServer d (open s) (txnSeq s) (orderSeq s) (cartSeq s).

Definition with_products (ps : list Product.t) (d : Db) : Db :=
  mkDb (users d) ps (orders d) (carts d).

Definition with_orders (os : list Order.t) (d : Db) : Db :=
  mkDb (users d) (products d) os (carts d).

Definition with_carts (cs : list Cart.t) (d : Db) : Db :=
  mkDb (users d) (products d) (orders d) cs.

(** UPDATE Products SET stock = v WHERE id = pid *)
Definition update_stock (pid v : Z) (ps : list Product.t) : list Product.t :=
  map (fun p => if Product.id p =? pid then Product.set_stock v p else p) ps.

Definition apply_write (d : Db) (w : Write) : Db :=
  match w with
  | SetStock pid v => with_products (update_stock pid v (products d)) d
  | InsertOrder o => with_orders (orders d ++ [o]) d
  end.

Definition apply_writes (ws : list Write) (d : Db) : Db :=
  fold_left apply_write ws d.

Definition pending_of (t : Txn) (s : Server) : option (list Write) :=
  option_map snd (find (fun e => Nat.eqb (fst e) t) (open s)).

Definition add_pending (t : Txn) (w : Write) (s : Server) : Server :=
  mkServer (db s)
    (map (fun e => if Nat.eqb (fst e) t then (fst e, snd e ++ [w]) else e) (open s))
    (txnSeq s) (orderSeq s) (cartSeq s).

(** A write made with [{ transaction: t }] stays pending in [t]; one made
    without a transaction is committed at once. *)
Definition write (t : option Txn) (w : Write) (s : Server) : Server :=
  match t with
  | Some t => add_pending t w s
  | None => with_db (apply_write (db s) w) s
  end.

Definition begin_transaction (s : Server) : Txn * Server :=
  (txnSeq s,
   mkServer (db s) ((txnSeq s, []) :: open s) (S (txnSeq s)) (orderSeq s) (cartSeq s)).

Definition commit (t : Txn) (s : Server) : Server :=
  match pending_of t s with
  | Some ws =>
      mkServer (apply_writes ws (db s))
        (filter (fun e => negb (Nat.eqb (fst e) t)) (open s))
        (txnSeq s) (orderSeq s) (cartSeq s)
  | None => s
  end.

Definition find_user (email : string) (d : Db) : option User.t :=
  find (fun u => String.eqb (User.email u) email) (users d).

Definition find_product (pid : Z) (d : Db) : option Product.t :=
  find (fun p => Product.id p =? pid) (products d).

Definition find_order (oid uid : Z) (d : Db) : option Order.t :=
  find (fun o => (Order.id o =? oid) && (Order.userId o =? uid)) (orders d).

Definition find_cart (uid pid : Z) (d : Db) : option Cart.t :=
  find (fun c => (Cart.userId c =? uid) && (Cart.productId c =? pid)) (carts d).

Definition find_cart_by_id (cid uid : Z) (d : Db) : option Cart.t :=
  find (fun c => (Cart.id c =? cid) && (Cart.userId c =? uid)) (carts d).

(** ** Awaited store calls *)

Inductive StoreOp : Type -> Type :=
| sequelize_transaction : StoreOp Txn
| t_commit (t : Txn) : StoreOp unit
| User_findOne (email : string) (t : option Txn) : StoreOp (option User.t)
| Product_findOne (id : Z) : StoreOp (option Product.t)
| product_save (p : Product.t) (t : option Txn) : StoreOp unit
| Order_create (values : Order.t) (t : option Txn) : StoreOp Order.t
| Order_findAll (userId : Z) : StoreOp (list (Order.t * option Product.t))
| Order_findOne (id userId : Z) : StoreOp (option Order.t)
| Order_update (status : string) (id userId : Z) : StoreOp unit
| Cart_findOne (userId productId : Z) : StoreOp (option Cart.t)
| Cart_findOne_byId (id userId : Z) : StoreOp (option Cart.t)
| Cart_findAll (userId : Z) : StoreOp (list (Cart.t * option Product.t))
| Cart_create (values : Cart.t) : StoreOp Cart.t
| cartItem_save (c : Cart.t) : StoreOp unit
| cartItem_save_text (c : Cart.t) (price : string) : StoreOp unit
| cartItem_destroy (c : Cart.t) : StoreOp unit.

(** What each call answers and does when it resolves.  Reads see the
    committed tables; a query without ORDER BY fixes no order of its
    answer, and the model lists in the order of its table.
    [product.save] persists the one field the handler changed, [stock], as
    an absolute value for the row with that id.  [cartItem.save] with a
    price that is a text persists what the column reads from the text.
    Ids are integers here; an id of a request that is no INTEGER is not
    compared but makes the store reject the query, and the statements
    about lookups by such an id take it within the range of the column. *)
Definition exec {X : Type} (op : StoreOp X) (s : Server) : X * Server :=
  match op in StoreOp X return X * Server with
  | sequelize_transaction => begin_transaction s
  | t_commit t => (tt, commit t s)
  | User_findOne email _ => (find_user email (db s), s)
  | Product_findOne pid => (find_product pid (db s), s)
  | product_save p t =>
      (tt, write t (SetStock (Product.id p) (Product.stock p)) s)
  | Order_create values t =>
      let o := Order.set_id (orderSeq s) values in
      (o, write t (InsertOrder o)
            (mkServer (db s) (open s) (txnSeq s) (orderSeq s + 1) (cartSeq s)))
  | Order_findAll uid =>
      (map (fun o => (o, find_product (Order.productId o) (db s)))
           (filter (fun o => Order.userId o =? uid) (orders (db s))), s)
  | Order_findOne oid uid => (find_order oid uid (db s), s)
  | Order_update st oid uid =>
      (tt, with_db
             (with_orders
                (map (fun o => if (Order.id o =? oid) && (Order.userId o =? uid)
                               then Order.set_status st o else o)
                     (orders (db s)))
                (db s)) s)
  | Cart_findOne uid pid => (find_cart uid pid (db s), s)
  | Cart_findOne_byId cid uid => (find_cart_by_id cid uid (db s), s)
  | Cart_findAll uid =>
      (map (fun c => (c, find_product (Cart.productId c) (db s)))
           (filter (fun c => Cart.userId c =? uid) (carts (db s))), s)
  | Cart_create values =>
      let c := Cart.set_id (cartSeq s) values in
      (c, mkServer (with_carts (carts (db s) ++ [c]) (db s))
            (open s) (txnSeq s) (orderSeq s) (cartSeq s + 1))
  | cartItem_save c =>
      (tt, with_db
             (with_carts
                (map (fun r => if Cart.id r =? Cart.id c then c else r)
                     (carts (db s)))
                (db s)) s)
  | cartItem_save_text c price =>
      match DECIMAL_10_2 price with
      | Some v =>
          let c := Cart.mk (Cart.id c) (Cart.userId c) (Cart.productId c)
                     (Cart.quantity c) v in
          (tt, with_db
                 (with_carts
                    (map (fun r => if Cart.id r =? Cart.id c then c else r)
                         (carts (db s)))
                    (db s)) s)
      | None => (tt, s)
      end
  | cartItem_destroy c =>
      (tt, with_db
             (with_carts
                (filter (fun r => negb (Cart.id r =? Cart.id c)) (carts (db s)))
                (db s)) s)
  end.

(** The Orders table takes a row when its delivery date is a date, its
    quantity an INTEGER and its STRING columns are within their length
    (models/order.js; [address] is a TEXT). *)
Definition Orders_takes (o : Order.t) : bool :=
  DATE (Order.deliveryDate o)
  && INTEGER (Order.quantity o)
  && STRING (Order.status o) && STRING (Order.city o)
  && STRING (Order.zipcode o) && STRING (Order.courierName o).

(** Calls the tables reject by themselves, whatever else happens: an
    insert of a row the table does not take, a price that is no
    DECIMAL(10,2). *)
Definition refuses {X : Type} (op : StoreOp X) (s : Server) : bool :=
  match op with
  | Order_create values _ => negb (Orders_takes values)
  | cartItem_save_text _ price =>
      match DECIMAL_10_2 price with
      | Some _ => false
      | None => true
      end
  | _ => false
  end.

(** ** Handlers as programs over awaited calls *)

Module OrderDetails.
Record t := mk {
  email : string;
  productName : string;
  quantity : Z;
  totalAmount : Double.t;
  status : string;
  address : string;
  city : string;
  zipcode : string;
  deliveryDate : DateText.t;
  courierName : string
}.
End OrderDetails.

(** The JSON object sent next to [message].  [CartItemText] is a cart item
    whose price is a text in the instance that is sent: the columns of the
    item apart from its price, and that text. *)
Inductive Payload :=
| NoData
| OrderData (order : Order.t)
| OrderHistory (orderData : list OrderDetails.t)
| CancelledOrder (orderId : Z) (userEmail : string)
| CartItemData (cartItem : Cart.t)
| CartItemText (id userId productId quantity : Z) (price : string)
| CartItems (cartItems : list (Cart.t * option Product.t)).

(** [res.status(status).json({ message, ... })] *)
Record Response := mkRes { status : Z; message : string; data : Payload }.

(** An awaited promise either resolves with a value or rejects. *)
Inductive Settled (X : Type) :=
| Resolved (x : X)
| Rejected.

Arguments Resolved {X} x.
Arguments Rejected {X}.

(** A handler: it answers, or throws, or awaits a store call and goes on
    with what the call settled to. *)
Inductive Prog : Type :=
| Respond (r : Response)
| Throw
| Await {X : Type} (op : StoreOp X) (k : Settled X -> Prog).

(** [await op] outside any handler of its own: a rejection propagates. *)
Definition await_call {X : Type} (op : StoreOp X) (k : X -> Prog) : Prog :=
  Await op (fun s => match s with Resolved x => k x | Rejected => Throw end).

Notation "'await' x <- op ;; k" := (await_call op (fun x => k))
  (at level 10, x name, op at level 100, k at level 200).

(** [try { body } catch (error) { handler }] *)
Fixpoint try_catch (body handler : Prog) : Prog :=
  match body with
  | Respond r => Respond r
  | Throw => handler
  | Await op k => Await op (fun s => try_catch (k s) handler)
  end.

(** [`Only ${product.stock} items left in stock`] *)
Definition only_left (stock : Z) : string :=
  String.append "Only " (String.append (Number_toString stock) " items left in stock").

Definition internal_server_error : Response :=
  mkRes 500 "Internal server error" NoData.

Module PlaceOrderBody.
Record t := mk {
  email : string;
  productId : Z;
  quantity : Z;
  address : string;
  city : string;
  zipcode : string;
  deliveryDate : DateText.t;
  courierName : string
}.
End PlaceOrderBody.

Module CartBody.
Record t := mk { email : string; productId : Z; quantity : Z }.
End CartBody.

(** orderController.placeOrder *)
Definition placeOrder (body : PlaceOrderBody.t) : Prog :=
  let email := PlaceOrderBody.email body in
  let productId := PlaceOrderBody.productId body in
  let quantity := PlaceOrderBody.quantity body in
  let address := PlaceOrderBody.address body in
  let city := PlaceOrderBody.city body in
  let zipcode := PlaceOrderBody.zipcode body in
  let deliveryDate := PlaceOrderBody.deliveryDate body in
  let courierName := PlaceOrderBody.courierName body in
  await t <- sequelize_transaction ;;
  try_catch
    (if falsy_str email || falsy_num productId || falsy_num quantity
        || falsy_str address || falsy_str city || falsy_str zipcode
        || falsy_str (DateText.text deliveryDate) || falsy_str courierName
     then Respond (mkRes 400
       "All fields (email, productId, quantity, address, city, zipcode, deliveryDate, courierName) are required"
       NoData)
     else
       await user <- User_findOne email (Some t) ;;
       match user with
       | None => Respond (mkRes 404 "User not found" NoData)
       | Some user =>
       await product <- Product_findOne productId ;;
       match product with
       | None => Respond (mkRes 404 "Product not found" NoData)
       | Some product =>
       if Product.stock product <? quantity
       then Respond (mkRes 400 (only_left (Product.stock product)) NoData)
       else
         let totalAmount :=
           Double.mul (Double.of_DECIMAL (Product.price product))
                      (Double.of_Z quantity) in
         let product := Product.set_stock (Product.stock product - quantity) product in
         await _ <- product_save product (Some t) ;;
         await order <- Order_create
           (Order.mk 0 (User.id user) productId totalAmount quantity "Pending"
                     address city zipcode deliveryDate courierName) (Some t) ;;
         await _ <- t_commit t ;;
         Respond (mkRes 201 "Order placed successfully" (OrderData order))
       end
       end)
    (Respond internal_server_error).

(** [order.product.name] throws when the joined product is null. *)
Fixpoint orderDetails (user : User.t) (orders : list (Order.t * option Product.t))
  : option (list OrderDetails.t) :=
  match orders with
  | [] => Some []
  | (order, None) :: _ => None
  | (order, Some product) :: rest =>
      match orderDetails user rest with
      | None => None
      | Some ds =>
          Some (OrderDetails.mk (User.email user) (Product.name product)
                  (Order.quantity order) (Order.totalAmount order)
                  (Order.status order) (Order.address order) (Order.city order)
                  (Order.zipcode order) (Order.deliveryDate order)
                  (Order.courierName order) :: ds)
      end
  end.

(** orderController.getallOrdersByEmail *)
Definition getallOrdersByEmail (email : string) : Prog :=
  try_catch
    (if falsy_str email
     then Respond (mkRes 400 "Email is required" NoData)
     else
       await user <- User_findOne email None ;;
       match user with
       | None => Respond (mkRes 400 "User not found" NoData)
       | Some user =>
       await orders <- Order_findAll (User.id user) ;;
       if (List.length orders =? 0)%nat
       then Respond (mkRes 404 "No orders found for this user" NoData)
       else
         match orderDetails user orders with
         | None => Throw
         | Some details =>
             Respond (mkRes 200 "Order History retrieved successfully"
                        (OrderHistory details))
         end
       end)
    (Respond internal_server_error).

(** orderController.cancelOrderById *)
Definition cancelOrderById (email : string) (orderId : Z) : Prog :=
  try_catch
    (await user <- User_findOne email None ;;
     match user with
     | None => Respond (mkRes 404 "User not found with the given email" NoData)
     | Some user =>
     await order <- Order_findOne orderId (User.id user) ;;
     match order with
     | None =>
         Respond (mkRes 404 "Order not found for the given email and orderId" NoData)
     | Some order =>
     if String.eqb (Order.status order) "Cancelled"
     then Respond (mkRes 400 "Order is already cancelled" NoData)
     else
       await _ <- Order_update "Cancelled" orderId (User.id user) ;;
       Respond (mkRes 200 "Order cancelled successfully"
                  (CancelledOrder orderId (User.email user)))
     end
     end)
    (Respond internal_server_error).

(** cartController.addToCart.  [totalPrice] is a double.  For a new item
    it goes into the DECIMAL(10,2) column, which keeps it rounded to
    hundredths: that is the exact product of the price and the quantity,
    the double being off by far less than half a hundredth within the
    column.  For an item that is there, [cartItem.price] is the text of
    the column, so [cartItem.price += totalPrice] appends the text of
    [totalPrice] to it, and the save hands that text to the column. *)
Definition addToCart (body : CartBody.t) : Prog :=
  let email := CartBody.email body in
  let productId := CartBody.productId body in
  let quantity := CartBody.quantity body in
  try_catch
    (if falsy_str email || falsy_num productId || falsy_num quantity
     then Respond (mkRes 400 "Email, ProductId, and quantity are required" NoData)
     else
       await user <- User_findOne email None ;;
       match user with
       | None => Respond (mkRes 404 "User not found" NoData)
       | Some user =>
       await product <- Product_findOne productId ;;
       match product with
       | None => Respond (mkRes 404 "Product not found" NoData)
       | Some product =>
       let availableStock := Product.stock product in
       let requestedQuantity := quantity in
       if availableStock <? requestedQuantity
       then Respond (mkRes 400 (only_left (Product.stock product)) NoData)
       else
         let totalPrice :=
           Double.mul (Double.of_DECIMAL (Product.price product))
                      (Double.of_Z requestedQuantity) in
         await cartItem <- Cart_findOne (User.id user) productId ;;
         match cartItem with
         | Some cartItem =>
             let quantity := Cart.quantity cartItem + requestedQuantity in
             let price :=
               String.append (DECIMAL_text (Cart.price cartItem))
                             (Double.toString totalPrice) in
             await _ <- cartItem_save_text
               (Cart.mk (Cart.id cartItem) (Cart.userId cartItem)
                        (Cart.productId cartItem) quantity (Cart.price cartItem))
               price ;;
             Respond (mkRes 200 "Product added to cart successfully"
                        (CartItemText (Cart.id cartItem) (Cart.userId cartItem)
                           (Cart.productId cartItem) quantity price))
         | None =>
             await cartItem <- Cart_create
               (Cart.mk 0 (User.id user) productId requestedQuantity
                        (Product.price product * requestedQuantity)) ;;
             Respond (mkRes 200 "Product added to cart successfully"
                        (CartItemData cartItem))
         end
       end
       end)
    (Respond internal_server_error).

(** cartController.getallCartItems *)
Definition getallCartItems (email : string) : Prog :=
  try_catch
    (if falsy_str email
     then Respond (mkRes 400 "Email is required" NoData)
     else
       await user <- User_findOne email None ;;
       match user with
       | None => Respond (mkRes 404 "User not found" NoData)
       | Some user =>
       await cartItems <- Cart_findAll (User.id user) ;;
       if (List.length cartItems =? 0)%nat
       then Respond (mkRes 200 "Cart is empty" (CartItems []))
       else Respond (mkRes 200 "Cart items retrieved successfully"
                       (CartItems cartItems))
       end)
    (Respond internal_server_error).

(** cartController.updateCartQuantity.  The price set is a double; the
    column keeps it rounded to hundredths, the exact product. *)
Definition updateCartQuantity (body : CartBody.t) : Prog :=
  let email := CartBody.email body in
  let productId := CartBody.productId body in
  let quantity := CartBody.quantity body in
  try_catch
    (if falsy_str email || falsy_num productId || falsy_num quantity
     then Respond (mkRes 400 "Email, productId and quantity are required" NoData)
     else
       await user <- User_findOne email None ;;
       match user with
       | None => Respond (mkRes 404 "User not found" NoData)
       | Some user =>
       await product <- Product_findOne productId ;;
       match product with
       | None => Respond (mkRes 404 "Product not found" NoData)
       | Some product =>
       await cartItem <- Cart_findOne (User.id user) productId ;;
       match cartItem with
       | None => Respond (mkRes 404 "Cart item not found" NoData)
       | Some cartItem =>
       if quantity >? Product.stock product
       then Respond (mkRes 400 (only_left (Product.stock product)) NoData)
       else
         let cartItem :=
           Cart.mk (Cart.id cartItem) (Cart.userId cartItem)
                   (Cart.productId cartItem)
                   quantity
                   (quantity * Product.price product) in
         await _ <- cartItem_save cartItem ;;
         Respond (mkRes 200 "Cart item quantity updated successfully"
                    (CartItemData cartItem))
       end
       end
       end)
    (Respond internal_server_error).

(** cartController.removeCartItem; [cartId] is a path segment, so it is
    never missing once the route matched. *)
Definition removeCartItem (email : string) (cartId : Z) : Prog :=
  try_catch
    (if falsy_str email
     then Respond (mkRes 400 "Email and CartId are required" NoData)
     else
       await user <- User_findOne email None ;;
       match user with
       | None => Respond (mkRes 404 "User not found" NoData)
       | Some user =>
       await cartItem <- Cart_findOne_byId cartId (User.id user) ;;
       match cartItem with
       | None => Respond (mkRes 404 "Cart item not found" NoData)
       | Some cartItem =>
       await _ <- cartItem_destroy cartItem ;;
       Respond (mkRes 200 "Cart item removed successfully" NoData)
       end
       end)
    (Respond internal_server_error).

(** ** Rows held by a transaction *)

Definition updates_row (pid : Z) (w : Write) : bool :=
  match w with
  | SetStock p _ => p =? pid
  | InsertOrder _ => false
  end.

(** A row is write-locked while an open transaction holds a pending update
    of it. *)
Definition row_locked (pid : Z) (s : Server) : bool :=
  existsb (fun e => existsb (updates_row pid) (snd e)) (open s).

Definition locked_by_other (t : Txn) (pid : Z) (s : Server) : bool :=
  existsb (fun e => negb (Nat.eqb (fst e) t) && existsb (updates_row pid) (snd e))
          (open s).

(** An update inside a transaction waits while another open transaction
    holds the row. *)
Definition waits (p : Prog) (s : Server) : bool :=
  match p with
  | Await op _ =>
      match op with
      | product_save product (Some t) => locked_by_other t (Product.id product) s
      | _ => false
      end
  | _ => false
  end.

(** ** Running one request *)

(** What the client sees: a response, or none when a rejection escaped the
    handler or an awaited call never settled. *)
Inductive Outcome :=
| Responded (r : Response)
| Unanswered.

(** One request served alone.  The [n]-th awaited call rejects when
    [rejects n] says so (a failure of the store or of the connection) or
    when the tables refuse it, and changes nothing then.  An update of a
    row that a transaction left open holds never settles, since nothing
    ends that transaction: the request stays unanswered.  Otherwise the
    call resolves. *)
Fixpoint run (rejects : nat -> bool) (n : nat) (p : Prog) (s : Server)
  : Outcome * Server :=
  match p with
  | Respond r => (Responded r, s)
  | Throw => (Unanswered, s)
  | Await op k =>
      if rejects n then run rejects (S n) (k Rejected) s
      else if refuses op s then run rejects (S n) (k Rejected) s
      else if waits p s then (Unanswered, s)
      else let (x, s') := exec op s in run rejects (S n) (k (Resolved x)) s'
  end.

Definition no_failure : nat -> bool := fun _ => false.

Definition handle (rejects : nat -> bool) (p : Prog) (s : Server)
  : Outcome * Server :=
  run rejects 0 p s.

Definition status_of (o : Outcome) : option Z :=
  match o with
  | Responded r => Some (status r)
  | Unanswered => None
  end.

(** The stock of the product with a given id, as committed. *)
Definition stock_of (pid : Z) (s : Server) : option Z :=
  option_map Product.stock (find_product pid (db s)).

(** ** Requests and sequences of requests *)

Inductive Request :=
| PlaceOrder (body : PlaceOrderBody.t)
| GetOrdersByEmail (email : string)
| CancelOrder (email : string) (orderId : Z)
| AddCart (body : CartBody.t)
| GetAllCart (email : string)
| UpdateCartQuantity (body : CartBody.t)
| RemoveCartItem (email : string) (cartId : Z).

Definition handler (r : Request) : Prog :=
  match r with
  | PlaceOrder body => placeOrder body
  | GetOrdersByEmail email => getallOrdersByEmail email
  | CancelOrder email orderId => cancelOrderById email orderId
  | AddCart body => addToCart body
  | GetAllCart email => getallCartItems email
  | UpdateCartQuantity body => updateCartQuantity body
  | RemoveCartItem email cartId => removeCartItem email cartId
  end.

(** Requests served one after the other, each with its own failures. *)
Fixpoint serve (rs : list (Request * (nat -> bool))) (s : Server)
  : list Outcome * Server :=
  match rs with
  | [] => ([], s)
  | (r, rejects) :: rest =>
      let (o, s1) := handle rejects (handler r) s in
      let (os, s2) := serve rest s1 in
      (o :: os, s2)
  end.

(** Answered 201. *)
Definition placed_ok (o : Outcome) : bool :=
  match o with
  | Responded r => status r =? 201
  | Unanswered => false
  end.

(** The quantity a request took from product [pid]: that of a placement
    answered 201, nothing otherwise. *)
Definition ordered (pid : Z) (r : Request) (o : Outcome) : Z :=
  match r with
  | PlaceOrder body =>
      if placed_ok o && (PlaceOrderBody.productId body =? pid)
      then PlaceOrderBody.quantity body else 0
  | _ => 0
  end.

Fixpoint total_ordered (pid : Z) (rs : list (Request * (nat -> bool)))
  (os : list Outcome) : Z :=
  match rs, os with
  | (r, _) :: rs, o :: os => ordered pid r o + total_ordered pid rs os
  | _, _ => 0
  end.

(** ** Two placements in flight

    Between two awaited calls of one request the event loop may run the
    calls of another.  A turn lets one client make its next call; the call
    resolves unless the tables refuse it. *)

Definition step (p : Prog) (s : Server) : Prog * Server :=
  match p with
  | Await op k =>
      if refuses op s then (k Rejected, s)
      else let (x, s') := exec op s in (k (Resolved x), s')
  | _ => (p, s)
  end.

Fixpoint steps (n : nat) (p : Prog) (s : Server) : Prog * Server :=
  match n with
  | O => (p, s)
  | S n => let (p', s') := step p s in steps n p' s'
  end.

Inductive Client := One | Two.

Record Race := mkRace { client1 : Prog; client2 : Prog; server : Server }.

Definition turn (r : Race) (c : Client) : Race :=
  match c with
  | One =>
      if waits (client1 r) (server r) then r
      else let (p, s) := step (client1 r) (server r) in mkRace p (client2 r) s
  | Two =>
      if waits (client2 r) (server r) then r
      else let (p, s) := step (client2 r) (server r) in mkRace (client1 r) p s
  end.

Definition interleave (schedule : list Client) (r : Race) : Race :=
  fold_left turn schedule r.

Definition answer (p : Prog) : option Response :=
  match p with
  | Respond r => Some r
  | _ => None
  end.

(** ** Vocabulary of the statements *)

(** Every required field of the body is there (none is falsy). *)
Definition order_body_complete (body : PlaceOrderBody.t) : Prop :=
  PlaceOrderBody.email body <> "" /\
  PlaceOrderBody.productId body <> 0 /\
  PlaceOrderBody.quantity body <> 0 /\
  PlaceOrderBody.address body <> "" /\
  PlaceOrderBody.city body <> "" /\
  PlaceOrderBody.zipcode body <> "" /\
  DateText.text (PlaceOrderBody.deliveryDate body) <> "" /\
  PlaceOrderBody.courierName body <> "".

Definition cart_body_complete (body : CartBody.t) : Prop :=
  CartBody.email body <> "" /\
  CartBody.productId body <> 0 /\
  CartBody.quantity body <> 0.

(** The row a placement inserts. *)
Definition placed (body : PlaceOrderBody.t) (user : User.t)
  (product : Product.t) (s : Server) : Order.t :=
  Order.mk (orderSeq s) (User.id user) (PlaceOrderBody.productId body)
    (Double.mul (Double.of_DECIMAL (Product.price product))
                (Double.of_Z (PlaceOrderBody.quantity body)))
    (PlaceOrderBody.quantity body) "Pending"
    (PlaceOrderBody.address body) (PlaceOrderBody.city body)
    (PlaceOrderBody.zipcode body) (PlaceOrderBody.deliveryDate body)
    (PlaceOrderBody.courierName body).

(** Calls that can change the committed Products table. *)
Definition writes_products {X : Type} (op : StoreOp X) : bool :=
  match op with
  | product_save _ _ => true
  | t_commit _ => true
  | _ => false
  end.

(** Programs none of whose paths makes such a call. *)
Inductive stock_free : Prog -> Prop :=
| sf_respond r : stock_free (Respond r)
| sf_throw : stock_free Throw
| sf_await X (op : StoreOp X) k :
    writes_products op = false ->
    (forall x, stock_free (k x)) ->
    stock_free (Await op k).

(** Rows of the cart of a user for a product. *)
Definition cart_rows (uid pid : Z) (d : Db) : list Cart.t :=
  filter (fun c => (Cart.userId c =? uid) && (Cart.productId c =? pid)) (carts d).

(** ** A small shop used in the examples *)

(** Two users and a lamp at 100.00, five in stock. *)
Definition shop : Server :=
  mkServer
    (mkDb [User.mk 1 "asha@example.com"; User.mk 2 "ravi@example.com"]
          [Product.mk 7 "Lamp" 10000 5]
          [] [])
    [] 0%nat 1 1.


(** 2025-03-01T00:00:00Z *)
Definition the_first_of_March : DateText.t :=
  DateText.mk "2025-03-01" (Some 1740787200000).

Definition order_for (email : string) (quantity : Z) : PlaceOrderBody.t :=
  PlaceOrderBody.mk email 7 quantity "12 Lake Road" "Chennai" "600001"
    the_first_of_March "FedEx".

Definition cart_for (email : string) (quantity : Z) : CartBody.t :=
  CartBody.mk email 7 quantity.

(** Rejects the [k]-th awaited call only. *)
Definition fails_at (k : nat) : nat -> bool := fun n => Nat.eqb n k.

(** Two placements of 3 against the stock of 5. *)
Definition two_placements : Race :=
  mkRace (placeOrder (order_for "asha@example.com" 3))
         (placeOrder (order_for "ravi@example.com" 3))
         shop.

(** Both clients read the stock before either writes; the first then saves,
    creates and commits, and the second does the same. *)
Definition stale_read_schedule : list Client :=
  [One; Two; One; Two; One; Two; One; One; One; Two; Two; Two].


(** As above, but the second client tries to save while the first still
    holds the row: that turn is spent waiting. *)
Definition contended_schedule : list Client :=
  [One; Two; One; Two; One; Two; One; Two; One; One; Two; Two; Two].

(** ** Vocabulary of the further properties *)

(** A placement that gets as far as saving the stock while a transaction
    other than its own holds the row of the product: the body is complete,
    the user and the product are found, the stock covers the quantity and
    no call before the save rejects. *)
Definition placement_waits (rejects : nat -> bool) (body : PlaceOrderBody.t)
  (s : Server) : Prop :=
  rejects 0%nat = false /\
  order_body_complete body /\
  rejects 1%nat = false /\
  (exists user, find_user (PlaceOrderBody.email body) (db s) = Some user) /\
  rejects 2%nat = false /\
  (exists product,
      find_product (PlaceOrderBody.productId body) (db s) = Some product /\
      PlaceOrderBody.quantity body <= Product.stock product) /\
  rejects 3%nat = false /\
  locked_by_other (txnSeq s) (PlaceOrderBody.productId body) s = true.

(** Answered with an error status, or not answered. *)
Definition refused (o : Outcome) : bool :=
  match o with
  | Responded r => 400 <=? status r
  | Unanswered => true
  end.

(** Programs none of whose paths makes a call marked by [bad]. *)
Inductive avoids (bad : forall X : Type, StoreOp X -> bool) : Prog -> Prop :=
| av_respond r : avoids bad (Respond r)
| av_throw : avoids bad Throw
| av_await X (op : StoreOp X) k :
    bad X op = false ->
    (forall x, avoids bad (k x)) ->
    avoids bad (Await op k).

(** Saving the stock of a product, the one call that can wait. *)
Definition saves_stock (X : Type) (op : StoreOp X) : bool :=
  match op with
  | product_save _ _ => true
  | _ => false
  end.

Definition writes_carts (X : Type) (op : StoreOp X) : bool :=
  match op with
  | Cart_create _ => true
  | cartItem_save _ => true
  | cartItem_save_text _ _ => true
  | cartItem_destroy _ => true
  | _ => false
  end.

Definition writes_orders (X : Type) (op : StoreOp X) : bool :=
  match op with
  | Order_create _ _ => true
  | Order_update _ _ _ => true
  | t_commit _ => true
  | _ => false
  end.

(** Calls that leave the server as it is. *)
Definition changes_server (X : Type) (op : StoreOp X) : bool :=
  match op with
  | User_findOne _ _ => false
  | Product_findOne _ => false
  | Order_findAll _ => false
  | Order_findOne _ _ => false
  | Cart_findOne _ _ => false
  | Cart_findOne_byId _ _ => false
  | Cart_findAll _ => false
  | _ => true
  end.

(** The pair that identifies a line of a cart. *)
Definition cart_key (c : Cart.t) : Z * Z := (Cart.userId c, Cart.productId c).

(** Carts as the sequence leaves them: ids are unique and below the next
    value of the sequence, and no two rows are for the same user and
    product. *)
Definition carts_consistent (s : Server) : Prop :=
  NoDup (map Cart.id (carts (db s))) /\
  (forall c, In c (carts (db s)) -> Cart.id c < cartSeq s) /\
  NoDup (map cart_key (carts (db s))).

(** The entry of an order in the listing of its user. *)
Definition details_of (user : User.t) (d : Db) (o : Order.t) : OrderDetails.t :=
  OrderDetails.mk (User.email user)
    (match find_product (Order.productId o) d with
     | Some product => Product.name product
     | None => ""
     end)
    (Order.quantity o) (Order.totalAmount o) (Order.status o)
    (Order.address o) (Order.city o) (Order.zipcode o)
    (Order.deliveryDate o) (Order.courierName o).

(** An order with its status blanked: everything that is fixed when the
    order is placed. *)
Definition frozen (o : Order.t) : Order.t := Order.set_status "" o.

(** [grows before after]: every row of [before] is still there, in place,
    with the same frozen part and a status that is the old one or
    "Cancelled"; rows may have been appended. *)
Inductive grows : list Order.t -> list Order.t -> Prop :=
| grows_nil added : grows [] added
| grows_cons o o' before after :
    frozen o' = frozen o ->
    (Order.status o' = Order.status o \/ Order.status o' = "Cancelled") ->
    grows before after ->
    grows (o :: before) (o' :: after).

(** ** Handlers over other calls

    The same shape of program for the handlers that make calls the order
    and cart handlers above do not make: programs over any family of
    awaited calls [Op], answering in any type [R]. *)

Section Code.

Variable Op : Type -> Type.
Variable R : Type.

Inductive Code : Type :=
| Answer (r : R)
| Raise
| Call {X : Type} (op : Op X) (k : Settled X -> Code).

Definition call {X : Type} (op : Op X) (k : X -> Code) : Code :=
  Call op (fun s => match s with Resolved x => k x | Rejected => Raise end).

(** [try { body } catch (error) { handler }] *)
Fixpoint guarded (body handler : Code) : Code :=
  match body with
  | Answer r => Answer r
  | Raise => handler
  | Call op k => Call op (fun s => guarded (k s) handler)
  end.

Variable St : Type.
Variable execute : forall X : Type, Op X -> St -> X * St.

(** As [run]: the [n]-th call rejects when [rejects n]; [None] is a request
    left unanswered. *)
Fixpoint perform (rejects : nat -> bool) (n : nat) (p : Code) (s : St)
  : option R * St :=
  match p with
  | Answer r => (Some r, s)
  | Raise => (None, s)
  | Call op k =>
      if rejects n
      then perform rejects (S n) (k Rejected) s
      else let (x, s') := execute _ op s in perform rejects (S n) (k (Resolved x)) s'
  end.

End Code.

Arguments Answer {Op R} r.
Arguments Raise {Op R}.
Arguments Call {Op R X} op k.
Arguments call {Op R X} op k.
Arguments guarded {Op R} body handler.
Arguments perform {Op R St} execute rejects n p s.

Declare Scope code_scope.
Notation "'await' x <- op ;; k" := (call op (fun x => k))
  (at level 10, x name, op at level 100, k at level 200) : code_scope.

(** [res.status(code).json({ message: text, ...body })] with a body of type
    [P]. *)
Record Reply (P : Type) := mkReply { code : Z; text : string; body : P }.

Arguments mkReply {P} code text body.
Arguments code {P} r.
Arguments text {P} r.
Arguments body {P} r.

(** ** The other order handlers *)

(** The flattened order of getOrderById and getAllOrders ([orderDate], a
    timestamp, is left out). *)
Module OrderView.
Record t := mk {
  orderId : Z;
  userEmail : string;
  productName : string;
  quantity : Z;
  totalAmount : Double.t;
  status : string;
  address : string;
  city : string;
  zipcode : string;
  deliveryDate : DateText.t;
  courierName : string
}.
End OrderView.

Inductive OrderBody :=
| NoOrder
| OneOrder (order : OrderView.t)
| AllOrders (orders : list OrderView.t).

Definition find_user_by_id (uid : Z) (d : Db) : option User.t :=
  find (fun u => User.id u =? uid) (users d).

(** The calls of these two handlers: those above, and two lookups with
    joined rows. *)
Inductive OrderOp : Type -> Type :=
| Stored {X : Type} (op : StoreOp X) : OrderOp X
| Order_findOne_with_product (id userId : Z)
    : OrderOp (option (Order.t * option Product.t))
| Order_findAll_with_user_and_product
    : OrderOp (list (Order.t * option User.t * option Product.t)).

Definition exec_order (X : Type) (op : OrderOp X) (s : Server) : X * Server :=
  match op in OrderOp X return X * Server with
  | Stored op => exec op s
  | Order_findOne_with_product oid uid =>
      (option_map (fun o => (o, find_product (Order.productId o) (db s)))
         (find_order oid uid (db s)), s)
  | Order_findAll_with_user_and_product =>
      (map (fun o => (o, find_user_by_id (Order.userId o) (db s),
                      find_product (Order.productId o) (db s)))
           (orders (db s)), s)
  end.

Definition OrderCode := Code OrderOp (Reply OrderBody).

Definition order_internal_error : Reply OrderBody :=
  mkReply 500 "Internal server error" NoOrder.

Definition view (order : Order.t) (userEmail productName : string) : OrderView.t :=
  OrderView.mk (Order.id order) userEmail productName
    (Order.quantity order) (Order.totalAmount order) (Order.status order)
    (Order.address order) (Order.city order) (Order.zipcode order)
    (Order.deliveryDate order) (Order.courierName order).

(** [order.user.email] and [order.product.name] throw on a null join. *)
Fixpoint allOrderDetails
  (orders : list (Order.t * option User.t * option Product.t))
  : option (list OrderView.t) :=
  match orders with
  | [] => Some []
  | (order, Some user, Some product) :: rest =>
      match allOrderDetails rest with
      | Some vs => Some (view order (User.email user) (Product.name product) :: vs)
      | None => None
      end
  | _ :: _ => None
  end.

Local Open Scope code_scope.

(** orderController.getAllOrders *)
Definition getAllOrders : OrderCode :=
  guarded
    (await orders <- Order_findAll_with_user_and_product ;;
     if (List.length orders =? 0)%nat
     then Answer (mkReply 404 "No orders found" NoOrder)
     else
       match allOrderDetails orders with
       | None => Raise
       | Some orderDetails =>
           Answer (mkReply 200 "All orders retrieved successfully"
                     (AllOrders orderDetails))
       end)
    (Answer order_internal_error).

(** orderController.getOrderById *)
Definition getOrderById (email : string) (orderId : Z) : OrderCode :=
  guarded
    (await user <- Stored (User_findOne email None) ;;
     match user with
     | None => Answer (mkReply 404 "User not found with the given email" NoOrder)
     | Some user =>
     await order <- Order_findOne_with_product orderId (User.id user) ;;
     match order with
     | None =>
         Answer (mkReply 404 "Order not found for the given email and orderId" NoOrder)
     | Some (order, product) =>
         let orderDetails :=
           view order (User.email user)
             (match product with
              | Some product => Product.name product
              | None => "N/A"
              end) in
         Answer (mkReply 200 "Order details retrieved successfully"
                   (OneOrder orderDetails))
     end
     end)
    (Answer order_internal_error).

Local Close Scope code_scope.

(** The entry of an order in the listing of all orders. *)
Definition view_of (d : Db) (o : Order.t) : OrderView.t :=
  view o
    (match find_user_by_id (Order.userId o) d with
     | Some user => User.email user
     | None => ""
     end)
    (match find_product (Order.productId o) d with
     | Some product => Product.name product
     | None => ""
     end).

(** ** The middlewares of the routes (middlewares/auth.js) *)

(** What a verified token carries: the payload signed at login. *)
Module Claims.
Record t := mk { id : Z; email : string; role : string }.
End Claims.

Definition space : Ascii.ascii := Ascii.ascii_of_nat 32.

(** [s.split(sep)] *)
Fixpoint split_on (sep : Ascii.ascii) (s : string) : list string :=
  match s with
  | EmptyString => [EmptyString]
  | String c rest =>
      if Ascii.eqb c sep
      then EmptyString :: split_on sep rest
      else match split_on sep rest with
           | piece :: pieces => String c piece :: pieces
           | [] => [String c EmptyString]
           end
  end.

Fixpoint contains (c : Ascii.ascii) (s : string) : bool :=
  match s with
  | EmptyString => false
  | String c' rest => Ascii.eqb c' c || contains c rest
  end.

(** What a middleware does with a request: it answers, or it hands over to
    the next one. *)
Inductive Passed (A : Type) :=
| Stop (r : Reply unit)
| Next (a : A).

Arguments Stop {A} r.
Arguments Next {A} a.

Section Auth.

(** [JWT.verify(token, secret)]: the payload, or nothing when it throws. *)
Variable JWT_verify : string -> option Claims.t.

(** authenticate: the header as [req.header("Authorization")] gives it, and
    on success [req.user]. *)
Definition authenticate (authHeader : option string) : Passed Claims.t :=
  match authHeader with
  | None => Stop (mkReply 403 "Access Denied. No token provided" tt)
  | Some authHeader =>
      if falsy_str authHeader || negb (String.prefix "Bearer " authHeader)
      then Stop (mkReply 403 "Access Denied. No token provided" tt)
      else
        let token := nth 1 (split_on space authHeader) EmptyString in
        match JWT_verify token with
        | Some decoded => Next decoded
        | None => Stop (mkReply 401 "Invalid token" tt)
        end
  end.

(** authorizeRole(role), run after authenticate set [req.user]. *)
Definition authorizeRole (role : string) (user : Claims.t) : Passed Claims.t :=
  if negb (String.eqb (Claims.role user) role)
  then Stop (mkReply 403 "Access Denied. Insufficient permissions" tt)
  else Next user.

(** router.get('/getallOrders', authenticate, authorizeRole("admin"),
    OrderController.getAllOrders): the answer of a middleware that stops,
    or the run of the handler. *)
Definition route_getallOrders (authHeader : option string)
  (rejects : nat -> bool) (s : Server)
  : (Reply unit + option (Reply OrderBody)) * Server :=
  match authenticate authHeader with
  | Stop r => (inl r, s)
  | Next user =>
      match authorizeRole "admin" user with
      | Stop r => (inl r, s)
      | Next _ =>
          let (o, s') := perform exec_order rejects 0 getAllOrders s in
          (inr o, s')
      end
  end.

End Auth.

(** ** Categories (controllers/categoryController.js) *)

(** Modelled from the spec: the Category model file is not among the
    sources.  The columns are those the controller reads and writes: the
    numeric id, the sequential code [categoryId], the name and the
    description. *)
Module Category.
Record t := mk { id : Z; categoryId : string; name : string; description : string }.
End Category.

Record Catalogue := mkCatalogue {
  categories : list Category.t;
  categorySeq : Z
}.

(** JavaScript numbers as the controller meets them: a double that is an
    integer, or NaN.  The codes read are column values, short enough for
    their numbers to be finite. *)
Definition Number := option Z.

(** The double nearest to an integer, as an integer; the integers up to
    2^53 are doubles. *)
Definition nearest_double (z : Z) : Z :=
  if Z.abs z <=? 2 ^ 53 then z else Double.to_Z (Double.of_Z z).

Definition digits_value (s : string) : Number :=
  match leading_digits s with
  | EmptyString => None
  | ds => option_map (fun d => nearest_double (Z.of_uint d)) (NilEmpty.uint_of_string ds)
  end.

(** [parseInt(s, 10)]: white space, an optional sign, then the longest run
    of digits; NaN without a digit. *)
Definition parseInt (s : string) : Number :=
  match skip_spaces s with
  | String c rest =>
      if (Ascii.nat_of_ascii c =? 45)%nat then option_map Z.opp (digits_value rest)
      else if (Ascii.nat_of_ascii c =? 43)%nat then digits_value rest
      else digits_value (String c rest)
  | EmptyString => None
  end.

(** [n + 1] *)
Definition plus_one (n : Number) : Number :=
  option_map (fun z => nearest_double (z + 1)) n.

(** [n.toString()]: every digit up to 2^53, the shortest digits that read
    back beyond. *)
Definition toString (n : Number) : string :=
  match n with
  | Some z =>
      if Z.abs z <=? 2 ^ 53 then Number_toString z
      else Double.toString (Double.of_Z z)
  | None => "NaN"
  end.

(** [s.padStart(width, c)] *)
Definition padStart (width : nat) (c : Ascii.ascii) (s : string) : string :=
  String.append (replicate (width - String.length s) c) s.

(** [s.slice(1)] *)
Definition slice1 (s : string) : string :=
  match s with
  | String _ rest => rest
  | EmptyString => EmptyString
  end.

(** The code createCategory gives to the next category, from the category
    with the highest id. *)
Definition newCategoryId (lastCategory : option Category.t) : string :=
  match lastCategory with
  | None => "C001"
  | Some lastCategory =>
      let lastCategoryNumber := parseInt (slice1 (Category.categoryId lastCategory)) in
      String.append "C"
        (padStart 3 zero (toString (plus_one lastCategoryNumber)))
  end.

Inductive CategoryOp : Type -> Type :=
| Category_findOne_last : CategoryOp (option Category.t)
| Category_findOne_byCode (categoryId : string) : CategoryOp (option Category.t)
| Category_findOne_byId (id : Z) : CategoryOp (option Category.t)
| Category_findAll : CategoryOp (list Category.t)
| Category_create (categoryId name description : string) : CategoryOp Category.t
| Category_update (name description : string) (id : Z) : CategoryOp unit
| Category_destroy (id : Z) : CategoryOp unit.

(** [ORDER BY id DESC LIMIT 1] *)
Definition last_by_id (cs : list Category.t) : option Category.t :=
  fold_left
    (fun best c =>
       match best with
       | Some b => if Category.id b <? Category.id c then Some c else Some b
       | None => Some c
       end)
    cs None.

Definition exec_category (X : Type) (op : CategoryOp X) (s : Catalogue)
  : X * Catalogue :=
  match op in CategoryOp X return X * Catalogue with
  | Category_findOne_last => (last_by_id (categories s), s)
  | Category_findOne_byCode code =>
      (find (fun c => String.eqb (Category.categoryId c) code) (categories s), s)
  | Category_findOne_byId id =>
      (find (fun c => Category.id c =? id) (categories s), s)
  | Category_findAll => (categories s, s)
  | Category_create code name description =>
      let c := Category.mk (categorySeq s) code name description in
      (c, mkCatalogue (categories s ++ [c]) (categorySeq s + 1))
  | Category_update name description id =>
      (tt, mkCatalogue
             (map (fun c => if Category.id c =? id
                            then Category.mk (Category.id c) (Category.categoryId c)
                                   name description
                            else c)
                  (categories s))
             (categorySeq s))
  | Category_destroy id =>
      (tt, mkCatalogue
             (filter (fun c => negb (Category.id c =? id)) (categories s))
             (categorySeq s))
  end.

Inductive CategoryBody :=
| NoCategory
| ValidationErrors (errors : list string)
| OneCategory (category : Category.t)
| AllCategories (categories : list Category.t).

Definition CategoryCode := Code CategoryOp (Reply CategoryBody).

Definition category_internal_error : Reply CategoryBody :=
  mkReply 500 "Internal server error" NoCategory.

Local Open Scope code_scope.

(** categoryController.createCategory; [errors] is what
    [validationResult(req)] holds. *)
Definition createCategory (errors : list string) (name description : string)
  : CategoryCode :=
  if negb (List.length errors =? 0)%nat
  then Answer (mkReply 400 "" (ValidationErrors errors))
  else
    guarded
      (await lastCategory <- Category_findOne_last ;;
       let newCategoryId := newCategoryId lastCategory in
       await existingCategory <- Category_findOne_byCode newCategoryId ;;
       match existingCategory with
       | Some _ => Answer (mkReply 400 "Category already existed" NoCategory)
       | None =>
           await newCategory <- Category_create newCategoryId name description ;;
           Answer (mkReply 201 "Category created successfully"
                     (OneCategory newCategory))
       end)
      (Answer category_internal_error).

(** categoryController.updateCategory; [id] is the path segment. *)
Definition updateCategory (errors : list string) (id name description : string)
  : CategoryCode :=
  if negb (List.length errors =? 0)%nat
  then Answer (mkReply 400 "" (ValidationErrors errors))
  else
    guarded
      (if falsy_str name || falsy_str description
       then Answer (mkReply 400 "Both name and description are required" NoCategory)
       else
         match parseInt id with
         | None => Answer (mkReply 400 "Invalid category ID" NoCategory)
         | Some categoryId =>
         await category <- Category_findOne_byId categoryId ;;
         match category with
         | None => Answer (mkReply 400 "Category not found" NoCategory)
         | Some _ =>
         await _ <- Category_update name description categoryId ;;
         await updatedCategory <- Category_findOne_byId categoryId ;;
         match updatedCategory with
         | None =>
             Answer (mkReply 400 "Category not found after update" NoCategory)
         | Some updatedCategory =>
             Answer (mkReply 200 "Category updated successfully"
                       (OneCategory updatedCategory))
         end
         end
         end)
      (Answer category_internal_error).

(** categoryController.getAllCategories *)
Definition getAllCategories : CategoryCode :=
  guarded
    (await categories <- Category_findAll ;;
     if (List.length categories =? 0)%nat
     then Answer (mkReply 404 "No categories found" NoCategory)
     else Answer (mkReply 200 "Categories fetched successfully"
                    (AllCategories categories)))
    (Answer category_internal_error).

(** categoryController.getCategoryById *)
Definition getCategoryById (categoryId : Z) : CategoryCode :=
  guarded
    (await category <- Category_findOne_byId categoryId ;;
     match category with
     | None => Answer (mkReply 404 "Category not found" NoCategory)
     | Some category =>
         Answer (mkReply 200 "Category fetched successfully" (OneCategory category))
     end)
    (Answer category_internal_error).

(** categoryController.deleteCategoryById *)
Definition deleteCategoryById (categoryId : Z) : CategoryCode :=
  guarded
    (await category <- Category_findOne_byId categoryId ;;
     match category with
     | None => Answer (mkReply 404 "Category not found" NoCategory)
     | Some _ =>
         await _ <- Category_destroy categoryId ;;
         Answer (mkReply 200 "Category deleted successfully" NoCategory)
     end)
    (Answer category_internal_error).

Local Close Scope code_scope.

Inductive CategoryRequest :=
| CreateCategory (errors : list string) (name description : string)
| UpdateCategory (errors : list string) (id name description : string)
| GetAllCategories
| GetCategory (id : Z)
| DeleteCategory (id : Z).

Definition category_handler (r : CategoryRequest) : CategoryCode :=
  match r with
  | CreateCategory errors name description => createCategory errors name description
  | UpdateCategory errors id name description =>
      updateCategory errors id name description
  | GetAllCategories => getAllCategories
  | GetCategory id => getCategoryById id
  | DeleteCategory id => deleteCategoryById id
  end.

Fixpoint serve_categories (rs : list (CategoryRequest * (nat -> bool)))
  (s : Catalogue) : list (option (Reply CategoryBody)) * Catalogue :=
  match rs with
  | [] => ([], s)
  | (r, rejects) :: rest =>
      let (o, s1) := perform exec_category rejects 0 (category_handler r) s in
      let (os, s2) := serve_categories rest s1 in
      (o :: os, s2)
  end.

(** The code of the [n]-th category: "C" and [n] in at least three
    digits. *)
Definition category_code (n : Z) : string :=
  String.append "C" (padStart 3 zero (Number_toString n)).

(** [coded c n]: the code of [c] is that of the positive number [n], one
    of the integers up to 2^53, which doubles hold exactly. *)
Definition coded (c : Category.t) (n : Z) : Prop :=
  0 < n <= 2 ^ 53 /\ Category.categoryId c = category_code n.

(** [earlier a b]: [a] has the smaller id and the code of the smaller
    number. *)
Definition earlier (a b : Category.t) : Prop :=
  Category.id a < Category.id b /\
  exists m n, coded a m /\ coded b n /\ m < n.

(** Categories as creations, updates and deletions leave them: along the
    table ids and code numbers grow together, every code is that of a
    positive number, and ids stay below the sequence. *)
Definition catalogue_in_order (s : Catalogue) : Prop :=
  StronglySorted earlier (categories s) /\
  Forall (fun c => exists n, coded c n) (categories s) /\
  Forall (fun c => Category.id c < categorySeq s) (categories s).

(** Every code of the table is that of a number below [bound]. *)
Definition codes_below (bound : Z) (s : Catalogue) : Prop :=
  Forall (fun c => exists n, coded c n /\ n < bound) (categories s).

(** The catalogue is ordered with its code numbers below [bound]. *)
Definition ordered_below (bound : Z) (s : Catalogue) : Prop :=
  catalogue_in_order s /\ codes_below bound s.

Definition empty_catalogue : Catalogue := mkCatalogue [] 1.

(** ** Accounts (controllers/userController.js) *)

(** The Users table with the columns of models/user.js. *)
Module Account.
Record t := mk { id : Z; email : string; password : string; role : string }.
End Account.

Record Accounts := mkAccounts {
  accounts : list Account.t;
  accountSeq : Z
}.

(** [attributes: ["id", "email", "role", ...]]: an account without its
    password. *)
Module Profile.
Record t := mk { id : Z; email : string; role : string }.
End Profile.

Definition profile (a : Account.t) : Profile.t :=
  Profile.mk (Account.id a) (Account.email a) (Account.role a).

Inductive UserOp : Type -> Type :=
| user_findOne (email : string) : UserOp (option Account.t)
| user_findOne_profile (id : Z) : UserOp (option Profile.t)
| user_findAll_profiles : UserOp (list Profile.t)
| user_create (email password role : string) : UserOp Account.t
| bcrypt_hash (password : string) : UserOp string
| bcrypt_compare (password hash : string) : UserOp bool.

Inductive UserBody :=
| NoUser
| FormErrors (errors : list string)
| Registered (userData : Account.t)
| LoggedIn (userData : Profile.t) (Token : string) (access : string)
| OneUser (user : Profile.t)
| AllUsers (users : list Profile.t).

Definition UserCode := Code UserOp (Reply UserBody).

Definition find_account (email : string) (s : Accounts) : option Account.t :=
  find (fun a => String.eqb (Account.email a) email) (accounts s).

(** The values of the ENUM of the role column. *)
Definition role_allowed (role : string) : bool :=
  String.eqb role "admin" || String.eqb role "customer".

Section Users.

(** bcryptjs and jsonwebtoken, which the controller calls and this
    repository does not contain. *)
Variable hash : string -> string.
Variable compare : string -> string -> bool.
Variable JWT_sign : Claims.t -> option string.

(** What each call settles to when the store answers: an insert is
    rejected by the table when the e-mail is taken (the column is unique)
    or the role is not of the ENUM. *)
Definition settle_user (X : Type) (op : UserOp X) (s : Accounts)
  : Settled X * Accounts :=
  match op in UserOp X return Settled X * Accounts with
  | user_findOne email => (Resolved (find_account email s), s)
  | user_findOne_profile id =>
      (Resolved (option_map profile
                   (find (fun a => Account.id a =? id) (accounts s))), s)
  | user_findAll_profiles => (Resolved (map profile (accounts s)), s)
  | user_create email password role =>
      match find_account email s with
      | Some _ => (Rejected, s)
      | None =>
          if role_allowed role
          then let a := Account.mk (accountSeq s) email password role in
               (Resolved a, mkAccounts (accounts s ++ [a]) (accountSeq s + 1))
          else (Rejected, s)
      end
  | bcrypt_hash password => (Resolved (hash password), s)
  | bcrypt_compare password hashed => (Resolved (compare password hashed), s)
  end.

(** As [perform], for calls that may reject by themselves. *)
Fixpoint attempt (rejects : nat -> bool) (n : nat) (p : UserCode) (s : Accounts)
  : option (Reply UserBody) * Accounts :=
  match p with
  | Answer r => (Some r, s)
  | Raise => (None, s)
  | Call op k =>
      if rejects n
      then attempt rejects (S n) (k Rejected) s
      else let (x, s') := settle_user _ op s in attempt rejects (S n) (k x) s'
  end.

Definition user_internal_error : Reply UserBody :=
  mkReply 500 "Internal server error" NoUser.

Local Open Scope code_scope.

(** UserController.registerUser; [errors] is what [validationResult(req)]
    holds and an absent role is "". *)
Definition registerUser (errors : list string) (email password role : string)
  : UserCode :=
  if negb (List.length errors =? 0)%nat
  then Answer (mkReply 400 "" (FormErrors errors))
  else
    guarded
      (await existingUser <- user_findOne email ;;
       match existingUser with
       | Some _ => Answer (mkReply 400 "Email already registered" NoUser)
       | None =>
           await hashedPassword <- bcrypt_hash password ;;
           await newUser <- user_create email hashedPassword
                              (if falsy_str role then "customer" else role) ;;
           Answer (mkReply 201 "User Registered successfully" (Registered newUser))
       end)
      (Answer user_internal_error).

(** UserController.userLogin *)
Definition userLogin (errors : list string) (email password : string) : UserCode :=
  if negb (List.length errors =? 0)%nat
  then Answer (mkReply 400 "" (FormErrors errors))
  else
    guarded
      (await users <- user_findOne email ;;
       match users with
       | None => Answer (mkReply 401 "Email not found" NoUser)
       | Some users =>
           await isPasswordValid <- bcrypt_compare password (Account.password users) ;;
           if negb isPasswordValid
           then Answer (mkReply 401 "Invalid Password or email" NoUser)
           else
             match JWT_sign (Claims.mk (Account.id users) (Account.email users)
                               (Account.role users)) with
             | None => Raise
             | Some token =>
                 let accessMessage :=
                   if String.eqb (Account.role users) "admin"
                   then "Admin access granted"
                   else "Customer access granted" in
                 Answer (mkReply 200 "Login Successful"
                           (LoggedIn (profile users) token accessMessage))
             end
       end)
      (Answer user_internal_error).

(** UserController.getallUsers *)
Definition getallUsers : UserCode :=
  guarded
    (await users <- user_findAll_profiles ;;
     Answer (mkReply 200 "Users retrieved successfully" (AllUsers users)))
    (Answer user_internal_error).

(** UserController.userProfile *)
Definition userProfile (id : Z) : UserCode :=
  guarded
    (await userDetails <- user_findOne_profile id ;;
     match userDetails with
     | None => Answer (mkReply 404 "User not found" NoUser)
     | Some userDetails =>
         Answer (mkReply 200 "User details retrieved successfully"
                   (OneUser userDetails))
     end)
    (Answer user_internal_error).

Local Close Scope code_scope.

End Users.

(** The refusal of a creation whose generated code is taken. *)
Definition already_existed : Reply CategoryBody :=
  mkReply 400 "Category already existed" NoCategory.

(** ** Stand-ins for the libraries in the examples *)

(** A toy hash and a toy token. *)
Definition toy_hash (password : string) : string := String.append "#" password.
Definition toy_compare (password hashed : string) : bool :=
  String.eqb (toy_hash password) hashed.
Definition toy_sign (c : Claims.t) : option string :=
  Some (String.append (Claims.role c) (String.append "." (Claims.email c))).
Definition toy_verify (token : string) : option Claims.t :=
  if String.eqb token "admin.root@example.com"
  then Some (Claims.mk 1 "root@example.com" "admin")
  else None.

(** * Properties *)

(** ** Facts about the store *)

Lemma find_product_id pid d p :
  find_product pid d = Some p -> Product.id p = pid.
Proof.
  unfold find_product. intros H.
  apply find_some in H. destruct H as [_ H]. now apply Z.eqb_eq.
Qed.

Lemma find_update_stock pid pid' v ps :
  find (fun p => Product.id p =? pid) (update_stock pid' v ps) =
  if pid =? pid'
  then option_map (Product.set_stock v) (find (fun p => Product.id p =? pid) ps)
  else find (fun p => Product.id p =? pid) ps.
Proof.
  induction ps as [|a ps IH]; simpl.
  - now destruct (pid =? pid').
  - destruct (Product.id a =? pid') eqn:Ea; simpl.
    + destruct (Product.id a =? pid) eqn:Eb.
      * apply Z.eqb_eq in Ea, Eb.
        replace (pid =? pid') with true by (symmetry; apply Z.eqb_eq; lia).
        reflexivity.
      * exact IH.
    + destruct (Product.id a =? pid) eqn:Eb.
      * apply Z.eqb_neq in Ea. apply Z.eqb_eq in Eb.
        replace (pid =? pid') with false by (symmetry; apply Z.eqb_neq; lia).
        reflexivity.
      * exact IH.
Qed.

Lemma stock_of_apply_placement pid p' v o s s' :
  db s' = apply_writes [SetStock p' v; InsertOrder o] (db s) ->
  stock_of pid s' =
  if pid =? p' then option_map (fun _ => v) (stock_of pid s) else stock_of pid s.
Proof.
  intros E. unfold stock_of, find_product. rewrite E. simpl.
  rewrite find_update_stock.
  destruct (pid =? p'); [| reflexivity].
  now destruct (find _ (products (db s))).
Qed.

Lemma stock_of_same_products pid s s' :
  products (db s') = products (db s) -> stock_of pid s' = stock_of pid s.
Proof.
  intros E. unfold stock_of, find_product. now rewrite E.
Qed.

Lemma complete_order_body_passes body :
  order_body_complete body ->
  falsy_str (PlaceOrderBody.email body) || falsy_num (PlaceOrderBody.productId body)
  || falsy_num (PlaceOrderBody.quantity body) || falsy_str (PlaceOrderBody.address body)
  || falsy_str (PlaceOrderBody.city body) || falsy_str (PlaceOrderBody.zipcode body)
  || falsy_str (DateText.text (PlaceOrderBody.deliveryDate body))
  || falsy_str (PlaceOrderBody.courierName body) = false.
Proof.
  intros (H1 & H2 & H3 & H4 & H5 & H6 & H7 & H8).
  unfold falsy_str, falsy_num.
  apply String.eqb_neq in H1, H4, H5, H6, H7, H8.
  apply Z.eqb_neq in H2, H3.
  now rewrite H1, H2, H3, H4, H5, H6, H7, H8.
Qed.

Lemma complete_cart_body_passes body :
  cart_body_complete body ->
  falsy_str (CartBody.email body) || falsy_num (CartBody.productId body)
  || falsy_num (CartBody.quantity body) = false.
Proof.
  intros (H1 & H2 & H3).
  unfold falsy_str, falsy_num.
  apply String.eqb_neq in H1. apply Z.eqb_neq in H2, H3.
  now rewrite H1, H2, H3.
Qed.

(** ** placeOrder, case by case *)

Ltac no_order := right; split; [discriminate | reflexivity].

(** Either the placement is answered 201, and then the user and product
    were found, the stock covered the quantity and the committed tables are
    the old ones with the stock set and the order appended; or the answer
    is anything else and the committed tables are the old ones. *)
Lemma placeOrder_cases rejects body s :
  (exists user product,
      order_body_complete body /\
      find_user (PlaceOrderBody.email body) (db s) = Some user /\
      find_product (PlaceOrderBody.productId body) (db s) = Some product /\
      PlaceOrderBody.quantity body <= Product.stock product /\
      fst (handle rejects (placeOrder body) s) =
        Responded (mkRes 201 "Order placed successfully"
                     (OrderData (placed body user product s))) /\
      db (snd (handle rejects (placeOrder body) s)) =
        apply_writes
          [SetStock (PlaceOrderBody.productId body)
             (Product.stock product - PlaceOrderBody.quantity body);
           InsertOrder (placed body user product s)] (db s))
  \/ (status_of (fst (handle rejects (placeOrder body) s)) <> Some 201 /\
      db (snd (handle rejects (placeOrder body) s)) = db s).
Proof.
  unfold handle, placeOrder. cbn [run refuses waits await_call].
  destruct (rejects 0%nat); [no_order |].
  cbn [exec begin_transaction].
  match goal with
  | |- context [try_catch (if ?b then _ else _) _] => destruct b eqn:Hfields
  end; [no_order |].
  cbn [try_catch await_call run refuses waits].
  destruct (rejects 1%nat); [no_order |].
  cbn [exec db].
  destruct (find_user _ _) as [user|] eqn:Hu; [| no_order].
  cbn [try_catch await_call run refuses waits].
  destruct (rejects 2%nat); [no_order |].
  cbn [exec db].
  destruct (find_product _ _) as [product|] eqn:Hp; [| no_order].
  destruct (Product.stock product <? _) eqn:Hq; [no_order |].
  cbn [try_catch await_call run refuses waits].
  destruct (rejects 3%nat); [no_order |].
  destruct (locked_by_other _ _ _); [no_order |].
  cbn [exec write].
  destruct (rejects 4%nat); [no_order |].
  destruct (negb (Orders_takes _)); [no_order |].
  cbn [exec write].
  destruct (rejects 5%nat); [no_order |].
  left. exists user, product. apply Z.ltb_ge in Hq.
  assert (Hid : Product.id product = PlaceOrderBody.productId body)
    by (eapply find_product_id; eassumption).
  split.
  { unfold falsy_str, falsy_num in Hfields.
    repeat (apply orb_false_iff in Hfields; destruct Hfields as [Hfields ?]).
    repeat split;
      first [ now apply String.eqb_neq | now apply Z.eqb_neq ]. }
  repeat split; try assumption.
  unfold commit, pending_of, add_pending. cbn.
  rewrite !Nat.eqb_refl. cbn. rewrite ?Nat.eqb_refl. cbn.
  rewrite Hid. reflexivity.
Qed.

(** C2. Whatever placeOrder answers other than 201 (a missing field, an
    unknown user or product, too little stock, or a store call rejecting at
    any point, also after the stock was decremented inside the transaction)
    and also when it does not answer at all, the committed tables are
    exactly those of before the call: same stock, same order rows. *)
Theorem placeOrder_failure_commits_nothing rejects body s :
  status_of (fst (handle rejects (placeOrder body) s)) <> Some 201 ->
  db (snd (handle rejects (placeOrder body) s)) = db s.
Proof.
  intros Hstatus.
  destruct (placeOrder_cases rejects body s)
    as [(user & product & _ & _ & _ & _ & Hres & _) | [_ Hdb]].
  - rewrite Hres in Hstatus. now elim Hstatus.
  - exact Hdb.
Qed.

(** Order.create rejecting after the decrement: the answer is 500 and the
    committed tables are untouched. *)
Lemma placeOrder_failure_commits_nothing_witness :
  status_of (fst (handle (fails_at 4) (placeOrder (order_for "asha@example.com" 3)) shop))
    <> Some 201 /\
  fst (handle (fails_at 4) (placeOrder (order_for "asha@example.com" 3)) shop)
    = Responded internal_server_error /\
  db (snd (handle (fails_at 4) (placeOrder (order_for "asha@example.com" 3)) shop))
    = db shop.
Proof.
  split; [vm_compute; discriminate |].
  split; [reflexivity |].
  apply placeOrder_failure_commits_nothing. vm_compute. discriminate.
Defined.

(** The decrement of a failed placement is not rolled back either: it stays
    pending in a transaction that is never ended. *)
Example placeOrder_failure_leaves_transaction_open :
  open (snd (handle (fails_at 4) (placeOrder (order_for "asha@example.com" 3)) shop))
  = [(0%nat, [SetStock 7 2])].
Proof. reflexivity. Qed.

(** The rendering used in the message is the decimal numeral of the count. *)
Lemma Number_toString_decimal n :
  option_map Z.of_int (NilZero.int_of_string (Number_toString n)) = Some n.
Proof.
  unfold Number_toString.
  rewrite NilZero.isi.
  - simpl. now rewrite DecimalZ.of_to.
  - destruct n; simpl; try discriminate.
    intros [= H]. now apply DecimalPos.Unsigned.to_uint_nonnil in H.
  - destruct n; simpl; try discriminate.
    intros [= H]. now apply DecimalPos.Unsigned.to_uint_nonnil in H.
Qed.

(** C3. For an existing user and product and a complete body, ordering more
    than the current stock is answered 400 with the message
    "Only <stock> items left in stock", and the committed tables (the stock
    among them) are unchanged. *)
Theorem placeOrder_insufficient_stock body s user product :
  order_body_complete body ->
  find_user (PlaceOrderBody.email body) (db s) = Some user ->
  find_product (PlaceOrderBody.productId body) (db s) = Some product ->
  Product.stock product < PlaceOrderBody.quantity body ->
  fst (handle no_failure (placeOrder body) s) =
    Responded
      (mkRes 400
         (String.append "Only "
            (String.append (Number_toString (Product.stock product))
               " items left in stock"))
         NoData) /\
  db (snd (handle no_failure (placeOrder body) s)) = db s /\
  stock_of (PlaceOrderBody.productId body) (snd (handle no_failure (placeOrder body) s))
    = Some (Product.stock product).
Proof.
  intros Hbody Hu Hp Hq.
  assert (Hres : fst (handle no_failure (placeOrder body) s) =
                 Responded (mkRes 400 (only_left (Product.stock product)) NoData)).
  { unfold handle, placeOrder. cbn [run refuses waits await_call no_failure].
    cbn [exec begin_transaction].
    rewrite (complete_order_body_passes body Hbody).
    cbn [try_catch await_call run refuses waits no_failure exec db].
    rewrite Hu. cbn [try_catch await_call run refuses waits no_failure exec db].
    rewrite Hp.
    apply Z.ltb_lt in Hq. rewrite Hq. reflexivity. }
  assert (Hdb : db (snd (handle no_failure (placeOrder body) s)) = db s).
  { destruct (placeOrder_cases no_failure body s)
      as [(u & p & _ & _ & _ & _ & Hok & _) | [_ Hsame]].
    - rewrite Hres in Hok. discriminate Hok.
    - exact Hsame. }
  split; [exact Hres |]. split; [exact Hdb |].
  unfold stock_of. rewrite Hdb, Hp. reflexivity.
Qed.

Lemma placeOrder_insufficient_stock_witness :
  fst (handle no_failure (placeOrder (order_for "asha@example.com" 6)) shop) =
    Responded (mkRes 400 "Only 5 items left in stock" NoData) /\
  db (snd (handle no_failure (placeOrder (order_for "asha@example.com" 6)) shop))
    = db shop /\
  stock_of 7 (snd (handle no_failure (placeOrder (order_for "asha@example.com" 6)) shop))
    = Some 5.
Proof.
  apply (placeOrder_insufficient_stock (order_for "asha@example.com" 6) shop
           (User.mk 1 "asha@example.com") (Product.mk 7 "Lamp" 10000 5)).
  - unfold order_body_complete; simpl; repeat split; discriminate.
  - reflexivity.
  - reflexivity.
  - simpl; lia.
Defined.

(** Saving the stock does not wait when no transaction was left open. *)
Lemma nothing_open_nothing_locked t pid s :
  row_locked pid s = false -> locked_by_other t pid s = false.
Proof.
  unfold row_locked, locked_by_other, Txn.
  induction (open s) as [|e rest IH]; cbn [existsb]; [reflexivity |].
  intros H. apply orb_false_iff in H. destruct H as [He Hrest].
  rewrite He, andb_false_r. now apply IH.
Qed.




(** ** Handlers that never write to Products *)

Lemma exec_keeps_products X (op : StoreOp X) s :
  writes_products op = false ->
  products (db (snd (exec op s))) = products (db s).
Proof.
  destruct op; simpl; intros H; try discriminate H; try reflexivity.
  - destruct t; reflexivity.
  - now destruct (DECIMAL_10_2 price).
Qed.

Lemma stock_free_run p :
  stock_free p ->
  forall rejects n s, products (db (snd (run rejects n p s))) = products (db s).
Proof.
  induction 1 as [r | | X op k Hop Hk IH]; intros rejects n s;
    cbn [run]; try reflexivity.
  destruct (rejects n); [apply IH |].
  destruct (refuses op s); [apply IH |].
  destruct (waits (Await op k) s); [reflexivity |].
  pose proof (exec_keeps_products X op s Hop) as E.
  destruct (exec op s) as [x s1]. simpl in E.
  rewrite IH. exact E.
Qed.

Lemma stock_free_try_catch body handler :
  stock_free body -> stock_free handler -> stock_free (try_catch body handler).
Proof.
  induction 1 as [r | | X op k Hop Hk IH]; intros Hh; simpl.
  - constructor.
  - exact Hh.
  - constructor; [exact Hop | intros x; now apply IH].
Qed.

Lemma stock_free_await X (op : StoreOp X) k :
  writes_products op = false ->
  (forall x, stock_free (k x)) ->
  stock_free (await_call op k).
Proof.
  intros Hop Hk. unfold await_call. constructor; [exact Hop |].
  intros [x|]; [apply Hk | constructor].
Qed.

Ltac stock_free_paths :=
  repeat first
    [ apply sf_respond
    | apply sf_throw
    | apply stock_free_try_catch
    | apply stock_free_await; [reflexivity | intros ?]
    | progress cbv zeta
    | match goal with
      | |- stock_free (if ?b then _ else _) => destruct b
      | |- stock_free (match ?x with _ => _ end) => destruct x
      end ].

Lemma getallOrdersByEmail_stock_free email : stock_free (getallOrdersByEmail email).
Proof. unfold getallOrdersByEmail. stock_free_paths. Qed.

Lemma cancelOrderById_stock_free email orderId :
  stock_free (cancelOrderById email orderId).
Proof. unfold cancelOrderById. stock_free_paths. Qed.

Lemma addToCart_stock_free body : stock_free (addToCart body).
Proof. unfold addToCart. stock_free_paths. Qed.

Lemma getallCartItems_stock_free email : stock_free (getallCartItems email).
Proof. unfold getallCartItems. stock_free_paths. Qed.

Lemma updateCartQuantity_stock_free body : stock_free (updateCartQuantity body).
Proof. unfold updateCartQuantity. stock_free_paths. Qed.

Lemma removeCartItem_stock_free email cartId :
  stock_free (removeCartItem email cartId).
Proof. unfold removeCartItem. stock_free_paths. Qed.

(** ** The stock ledger *)

Lemma placed_ok_status o : placed_ok o = true <-> status_of o = Some 201.
Proof.
  destruct o as [r|]; simpl.
  - rewrite Z.eqb_eq. split; [now intros -> | now intros [= ->]].
  - split; discriminate.
Qed.

(** One request: the stock of a product goes down by what the request
    took, and stays non-negative. *)
Lemma handle_stock pid r rejects s v :
  stock_of pid s = Some v -> 0 <= v ->
  stock_of pid (snd (handle rejects (handler r) s)) =
    Some (v - ordered pid r (fst (handle rejects (handler r) s))) /\
  0 <= v - ordered pid r (fst (handle rejects (handler r) s)).
Proof.
  intros Hv Hpos.
  assert (Hfree : stock_free (handler r) ->
                  ordered pid r (fst (handle rejects (handler r) s)) = 0 ->
                  stock_of pid (snd (handle rejects (handler r) s)) =
                    Some (v - ordered pid r (fst (handle rejects (handler r) s))) /\
                  0 <= v - ordered pid r (fst (handle rejects (handler r) s))).
  { intros Hsf ->. rewrite Z.sub_0_r. split; [| exact Hpos].
    rewrite <- Hv. apply stock_of_same_products.
    unfold handle. now apply stock_free_run. }
  destruct r as [body | email | email orderId | body | email | body | email cartId];
    try (apply Hfree; [| reflexivity]).
  - clear Hfree. cbn [handler ordered].
    destruct (placeOrder_cases rejects body s)
      as [(user & product & _ & _ & Hp & Hq & Hres & Hdb) | [Hstatus Hdb]].
    + rewrite (stock_of_apply_placement _ _ _ _ s _ Hdb).
      rewrite Hres. cbn [placed_ok status]. rewrite Z.eqb_refl. cbn [andb].
      rewrite (Z.eqb_sym (PlaceOrderBody.productId body) pid).
      destruct (pid =? PlaceOrderBody.productId body) eqn:E.
      * apply Z.eqb_eq in E. subst pid.
        unfold stock_of in Hv. rewrite Hp in Hv. injection Hv as <-.
        unfold stock_of. rewrite Hp. simpl. split; [reflexivity | lia].
      * rewrite Z.sub_0_r. now split.
    + assert (Hno : placed_ok (fst (handle rejects (placeOrder body) s)) = false).
      { destruct (placed_ok _) eqn:E; [| reflexivity].
        apply placed_ok_status in E. contradiction. }
      rewrite Hno. cbn [andb]. rewrite Z.sub_0_r. split; [| exact Hpos].
      rewrite <- Hv. apply stock_of_same_products. now rewrite Hdb.
  - apply getallOrdersByEmail_stock_free.
  - apply cancelOrderById_stock_free.
  - apply addToCart_stock_free.
  - apply getallCartItems_stock_free.
  - apply updateCartQuantity_stock_free.
  - apply removeCartItem_stock_free.
Qed.

(** C1. Start from a product with non-negative stock and serve any sequence
    of placements, cart operations, cancellations and listings, whatever
    each is answered.  The committed stock of the product is then still
    non-negative, and it is the initial stock minus the quantities of the
    placements answered 201 for that product; nothing is added back by a
    cancellation. *)
Theorem stock_ledger rs : forall s pid initial,
  stock_of pid s = Some initial ->
  0 <= initial ->
  exists v,
    stock_of pid (snd (serve rs s)) = Some v /\
    0 <= v /\
    v = initial - total_ordered pid rs (fst (serve rs s)).
Proof.
  induction rs as [|[r rejects] rest IH]; intros s pid initial Hv Hpos.
  - exists initial. simpl. repeat split; [exact Hv | exact Hpos | lia].
  - simpl.
    destruct (handle_stock pid r rejects s initial Hv Hpos) as [Hv1 Hpos1].
    destruct (handle rejects (handler r) s) as [o s1]. simpl in Hv1, Hpos1.
    destruct (IH s1 pid _ Hv1 Hpos1) as (v & Hv2 & Hpos2 & Heq).
    destruct (serve rest s1) as [os s2]. simpl in *.
    exists v. repeat split; [exact Hv2 | exact Hpos2 | lia].
Qed.

(** Two placements of which the second asks too much, an addition to the
    cart and the cancellation of the first order: 5 - 3 = 2 are left. *)
Lemma stock_ledger_witness :
  exists v,
    stock_of 7
      (snd (serve [(PlaceOrder (order_for "asha@example.com" 3), no_failure);
                   (PlaceOrder (order_for "ravi@example.com" 4), no_failure);
                   (AddCart (cart_for "ravi@example.com" 2), no_failure);
                   (CancelOrder "asha@example.com" 1, no_failure)] shop)) = Some v /\
    0 <= v /\
    v = 5 - total_ordered 7
              [(PlaceOrder (order_for "asha@example.com" 3), no_failure);
               (PlaceOrder (order_for "ravi@example.com" 4), no_failure);
               (AddCart (cart_for "ravi@example.com" 2), no_failure);
               (CancelOrder "asha@example.com" 1, no_failure)]
              (fst (serve [(PlaceOrder (order_for "asha@example.com" 3), no_failure);
                           (PlaceOrder (order_for "ravi@example.com" 4), no_failure);
                           (AddCart (cart_for "ravi@example.com" 2), no_failure);
                           (CancelOrder "asha@example.com" 1, no_failure)] shop)).
Proof.
  apply (stock_ledger _ shop 7 5); [reflexivity | lia].
Defined.

Example stock_ledger_run :
  map status_of
    (fst (serve [(PlaceOrder (order_for "asha@example.com" 3), no_failure);
                 (PlaceOrder (order_for "ravi@example.com" 4), no_failure);
                 (AddCart (cart_for "ravi@example.com" 2), no_failure);
                 (CancelOrder "asha@example.com" 1, no_failure)] shop))
    = [Some 201; Some 400; Some 200; Some 200] /\
  stock_of 7
    (snd (serve [(PlaceOrder (order_for "asha@example.com" 3), no_failure);
                 (PlaceOrder (order_for "ravi@example.com" 4), no_failure);
                 (AddCart (cart_for "ravi@example.com" 2), no_failure);
                 (CancelOrder "asha@example.com" 1, no_failure)] shop)) = Some 2.
Proof. split; reflexivity. Qed.

(** ** The cart *)

Lemma find_none_filter {A : Type} (f : A -> bool) (l : list A) :
  find f l = None -> filter f l = [].
Proof.
  induction l as [|a l IH]; simpl; [reflexivity |].
  destruct (f a); [discriminate | exact IH].
Qed.



Ltac run_handler :=
  cbn [try_catch await_call run refuses waits no_failure exec db].



(** ** Adding to the cart *)

Lemma find_appended {A : Type} (f : A -> bool) (l : list A) (x : A) :
  find f l = None -> f x = true -> find f (l ++ [x]) = Some x.
Proof.
  intros Hnone Hx. induction l as [|a l IH]; simpl in *.
  - now rewrite Hx.
  - destruct (f a); [discriminate | now apply IH].
Qed.

(** The first addition for a user and a product creates the row. *)
Lemma addToCart_creates body s user product :
  cart_body_complete body ->
  find_user (CartBody.email body) (db s) = Some user ->
  find_product (CartBody.productId body) (db s) = Some product ->
  CartBody.quantity body <= Product.stock product ->
  find_cart (User.id user) (CartBody.productId body) (db s) = None ->
  let row := Cart.mk (cartSeq s) (User.id user) (CartBody.productId body)
               (CartBody.quantity body)
               (Product.price product * CartBody.quantity body) in
  handle no_failure (addToCart body) s =
    (Responded (mkRes 200 "Product added to cart successfully" (CartItemData row)),
     mkServer (with_carts (carts (db s) ++ [row]) (db s))
       (open s) (txnSeq s) (orderSeq s) (cartSeq s + 1)).
Proof.
  intros Hbody Hu Hp Hq Hnone row.
  assert (Hq' := proj2 (Z.ltb_ge _ _) Hq).
  unfold handle, addToCart.
  rewrite (complete_cart_body_passes body Hbody).
  run_handler. rewrite Hu. run_handler. rewrite Hp. cbv zeta.
  rewrite Hq'. run_handler. rewrite Hnone. run_handler.
  reflexivity.
Qed.

(** A later addition appends the text of its line total to the text of the
    row's price, and the row is saved when the column reads the result as
    a number. *)
Lemma addToCart_again body s user product old :
  cart_body_complete body ->
  find_user (CartBody.email body) (db s) = Some user ->
  find_product (CartBody.productId body) (db s) = Some product ->
  CartBody.quantity body <= Product.stock product ->
  find_cart (User.id user) (CartBody.productId body) (db s) = Some old ->
  let quantity := Cart.quantity old + CartBody.quantity body in
  let price :=
    String.append (DECIMAL_text (Cart.price old))
      (Double.toString
         (Double.mul (Double.of_DECIMAL (Product.price product))
                     (Double.of_Z (CartBody.quantity body)))) in
  handle no_failure (addToCart body) s =
    match DECIMAL_10_2 price with
    | Some v =>
        (Responded (mkRes 200 "Product added to cart successfully"
                      (CartItemText (Cart.id old) (Cart.userId old)
                         (Cart.productId old) quantity price)),
         with_db
           (with_carts
              (map (fun r => if Cart.id r =? Cart.id old
                             then Cart.mk (Cart.id old) (Cart.userId old)
                                    (Cart.productId old) quantity v
                             else r)
                   (carts (db s)))
              (db s)) s)
    | None => (Responded internal_server_error, s)
    end.
Proof.
  intros Hbody Hu Hp Hq Hold quantity price.
  assert (Hq' := proj2 (Z.ltb_ge _ _) Hq).
  unfold handle, addToCart.
  rewrite (complete_cart_body_passes body Hbody).
  run_handler. rewrite Hu. run_handler. rewrite Hp. cbv zeta.
  rewrite Hq'. run_handler. rewrite Hold.
  fold quantity. fold price.
  cbn [try_catch await_call run no_failure refuses].
  destruct (DECIMAL_10_2 price) as [v|] eqn:Ev.
  - cbn [waits exec]. rewrite Ev. reflexivity.
  - reflexivity.
Qed.

(** C6. addToCart never changes the Products table, whatever the request
    and whatever fails; and a first addition of 2 at the unit price of
    100.00 creates one row of quantity 2 and price 200.00.  The second
    addition, of 3, is answered 200 and adds 3 to the quantity, but it
    does not add 300 to the price: the row's price is the text "200.00",
    the line total 300 is appended to it, the answer carries the price
    "200.00300", and the column keeps 200.00.  The row ends with quantity
    5 and price 200.00, not 500.00. *)
Theorem addToCart_appends_price_text :
  (forall body rejects s,
     products (db (snd (handle rejects (addToCart body) s))) = products (db s)) /\
  let s1 := snd (handle no_failure (addToCart (cart_for "asha@example.com" 2)) shop) in
  let s2 := snd (handle no_failure (addToCart (cart_for "asha@example.com" 3)) s1) in
  find_product 7 (db shop) = Some (Product.mk 7 "Lamp" 10000 5) /\
  cart_rows 1 7 (db shop) = [] /\
  fst (handle no_failure (addToCart (cart_for "asha@example.com" 2)) shop) =
    Responded (mkRes 200 "Product added to cart successfully"
                 (CartItemData (Cart.mk 1 1 7 2 20000))) /\
  cart_rows 1 7 (db s1) = [Cart.mk 1 1 7 2 20000] /\
  fst (handle no_failure (addToCart (cart_for "asha@example.com" 3)) s1) =
    Responded (mkRes 200 "Product added to cart successfully"
                 (CartItemText 1 1 7 5 "200.00300")) /\
  cart_rows 1 7 (db s2) = [Cart.mk 1 1 7 5 20000] /\
  cart_rows 1 7 (db s2) <> [Cart.mk 1 1 7 5 50000].
Proof.
  split.
  - intros body rejects s. unfold handle.
    apply stock_free_run, addToCart_stock_free.
  - cbv zeta. repeat split; try (vm_compute; reflexivity).
    vm_compute. discriminate.
Qed.

(** C10. The stock check of addToCart looks at the quantity of the call
    alone.  Take a user without a row for a product, and two additions for
    that product, each of a quantity from 1 up to the stock, that together
    exceed the stock (with the first line total and the sum of the
    quantities within what the columns of Carts hold).  The first addition
    is answered 200, and whenever the second is answered 200 as well the
    user has one row for the product, of the two quantities together: more
    than the stock, which is still what it was. *)
Theorem addToCart_exceeds_stock_by_accumulation email pid q1 q2 s user product r2 :
  email <> "" ->
  pid <> 0 ->
  find_user email (db s) = Some user ->
  find_product pid (db s) = Some product ->
  find_cart (User.id user) pid (db s) = None ->
  carts_consistent s ->
  0 < q1 <= Product.stock product ->
  0 < q2 <= Product.stock product ->
  Product.stock product < q1 + q2 ->
  INTEGER (q1 + q2) = true ->
  Z.abs (Product.price product * q1) < 10 ^ 10 ->
  let s1 := snd (handle no_failure (addToCart (CartBody.mk email pid q1)) s) in
  let s2 := snd (handle no_failure (addToCart (CartBody.mk email pid q2)) s1) in
  fst (handle no_failure (addToCart (CartBody.mk email pid q2)) s1) = Responded r2 ->
  status r2 = 200 ->
  (exists r1,
     fst (handle no_failure (addToCart (CartBody.mk email pid q1)) s) = Responded r1 /\
     status r1 = 200) /\
  (exists row,
     cart_rows (User.id user) pid (db s2) = [row] /\
     Cart.quantity row = q1 + q2 /\
     find_product pid (db s2) = Some product /\
     Product.stock product < Cart.quantity row).
Proof.
  intros Hemail Hpid Hu Hp Hnone (_ & Hbelow & _) [Hq1 Hs1] [Hq2 Hs2] Hmore _ _.
  assert (Hb1 : cart_body_complete (CartBody.mk email pid q1))
    by (repeat split; cbn; [assumption | assumption | lia]).
  assert (Hb2 : cart_body_complete (CartBody.mk email pid q2))
    by (repeat split; cbn; [assumption | assumption | lia]).
  rewrite (addToCart_creates (CartBody.mk email pid q1) s user product
             Hb1 Hu Hp Hs1 Hnone).
  cbn [fst snd CartBody.email CartBody.productId CartBody.quantity].
  set (row1 := Cart.mk (cartSeq s) (User.id user) pid q1 (Product.price product * q1)).
  set (s1 := mkServer (with_carts (carts (db s) ++ [row1]) (db s))
               (open s) (txnSeq s) (orderSeq s) (cartSeq s + 1)).
  assert (Hfound : find_cart (User.id user) pid (db s1) = Some row1).
  { unfold find_cart. cbn [s1 db carts with_carts].
    apply find_appended; [exact Hnone |].
    cbn. now rewrite !Z.eqb_refl. }
  rewrite (addToCart_again (CartBody.mk email pid q2) s1 user product row1
             Hb2 Hu Hp Hs2 Hfound).
  cbn [CartBody.quantity row1 Cart.id Cart.userId Cart.productId Cart.quantity
       Cart.price].
  destruct (DECIMAL_10_2 _) as [v|]; cbn [fst snd]; intros Hr2 H200.
  - split; [eexists; split; reflexivity |].
    exists (Cart.mk (cartSeq s) (User.id user) pid (q1 + q2) v).
    split; [| split; [reflexivity | split; [exact Hp | cbn; exact Hmore]]].
    unfold cart_rows. cbn [s1 db carts with_db with_carts].
    rewrite map_app, filter_app.
    rewrite (map_ext_in _ (fun r => r)), map_id.
    + unfold find_cart in Hnone. rewrite (find_none_filter _ _ Hnone).
      cbn. rewrite !Z.eqb_refl. reflexivity.
    + intros r Hr. specialize (Hbelow r Hr).
      destruct (Cart.id r =? cartSeq s) eqn:E; [| reflexivity].
      apply Z.eqb_eq in E. lia.
  - injection Hr2 as <-. discriminate H200.
Qed.

(** With a stock of 5, additions of 3 and 4 are both answered 200 and leave
    one row of quantity 7. *)
Lemma addToCart_exceeds_stock_by_accumulation_witness :
  let s1 := snd (handle no_failure (addToCart (cart_for "asha@example.com" 3)) shop) in
  let s2 := snd (handle no_failure (addToCart (cart_for "asha@example.com" 4)) s1) in
  stock_of 7 shop = Some 5 /\
  fst (handle no_failure (addToCart (cart_for "asha@example.com" 4)) s1) =
    Responded (mkRes 200 "Product added to cart successfully"
                 (CartItemText 1 1 7 7 "300.00400")) /\
  cart_rows 1 7 (db s2) = [Cart.mk 1 1 7 7 30000] /\
  stock_of 7 s2 = Some 5 /\
  exists row,
    cart_rows 1 7 (db s2) = [row] /\
    Cart.quantity row = 3 + 4 /\
    find_product 7 (db s2) = Some (Product.mk 7 "Lamp" 10000 5) /\
    5 < Cart.quantity row.
Proof.
  intros s1 s2.
  split; [reflexivity |].
  split; [vm_compute; reflexivity |].
  split; [vm_compute; reflexivity |].
  split; [vm_compute; reflexivity |].
  refine (proj2 (addToCart_exceeds_stock_by_accumulation
                   "asha@example.com" 7 3 4 shop
                   (User.mk 1 "asha@example.com") (Product.mk 7 "Lamp" 10000 5)
                   (mkRes 200 "Product added to cart successfully"
                      (CartItemText 1 1 7 7 "300.00400"))
                   _ _ _ _ _ _ _ _ _ _ _ _ _)).
  - discriminate.
  - discriminate.
  - reflexivity.
  - reflexivity.
  - reflexivity.
  - unfold carts_consistent. cbn. repeat split; try constructor. intros c [].
  - cbn. lia.
  - cbn. lia.
  - cbn. lia.
  - reflexivity.
  - reflexivity.
  - vm_compute. reflexivity.
  - reflexivity.
Defined.

(** ** Cancelling an order *)

Lemma find_flagged {A : Type} (f : A -> bool) (g : A -> A) (l : list A) (x : A) :
  (forall y, f (g y) = f y) ->
  find f l = Some x ->
  find f (map (fun y => if f y then g y else y) l) = Some (g x).
Proof.
  intros Hg. induction l as [|a l IH]; simpl; [discriminate |].
  destruct (f a) eqn:Ea; simpl.
  - intros [= ->]. now rewrite Hg, Ea.
  - rewrite Ea. exact IH.
Qed.

(** C8. Cancelling an order of the user whose status is "Pending" is
    answered 200; in Orders the rows with that id and owner get status
    "Cancelled" and every other row and field is as before; Users, Products
    (so every stock) and Carts are unchanged; and cancelling it once more is
    answered 400 "Order is already cancelled" and changes nothing. *)
Theorem cancelOrderById_pending email orderId s user order :
  find_user email (db s) = Some user ->
  find_order orderId (User.id user) (db s) = Some order ->
  Order.status order = "Pending" ->
  let s' := snd (handle no_failure (cancelOrderById email orderId) s) in
  fst (handle no_failure (cancelOrderById email orderId) s) =
    Responded (mkRes 200 "Order cancelled successfully"
                 (CancelledOrder orderId (User.email user))) /\
  find_order orderId (User.id user) (db s') =
    Some (Order.set_status "Cancelled" order) /\
  orders (db s') =
    map (fun o => if (Order.id o =? orderId) && (Order.userId o =? User.id user)
                  then Order.set_status "Cancelled" o else o)
        (orders (db s)) /\
  products (db s') = products (db s) /\
  users (db s') = users (db s) /\
  carts (db s') = carts (db s) /\
  open s' = open s /\
  (forall pid, stock_of pid s' = stock_of pid s) /\
  handle no_failure (cancelOrderById email orderId) s' =
    (Responded (mkRes 400 "Order is already cancelled" NoData), s').
Proof.
  intros Hu Ho Hpending s'.
  assert (Hrun : handle no_failure (cancelOrderById email orderId) s =
                 (Responded (mkRes 200 "Order cancelled successfully"
                               (CancelledOrder orderId (User.email user))),
                  snd (exec (Order_update "Cancelled" orderId (User.id user)) s))).
  { unfold handle, cancelOrderById. run_handler. rewrite Hu. run_handler.
    rewrite Ho, Hpending. reflexivity. }
  subst s'. rewrite Hrun. cbn [fst snd exec].
  set (s' := with_db _ s).
  assert (Ho' : find_order orderId (User.id user) (db s') =
                Some (Order.set_status "Cancelled" order)).
  { unfold find_order. subst s'. cbn [db with_db orders with_orders].
    apply (find_flagged
             (fun o => (Order.id o =? orderId) && (Order.userId o =? User.id user))
             (Order.set_status "Cancelled")); [reflexivity | exact Ho]. }
  repeat split; try exact Ho'.
  unfold handle, cancelOrderById. run_handler.
  replace (find_user email (db s')) with (Some user) by (symmetry; exact Hu).
  run_handler. rewrite Ho'. reflexivity.
Qed.

Lemma cancelOrderById_pending_witness :
  let s1 := snd (handle no_failure (placeOrder (order_for "asha@example.com" 3)) shop) in
  let s2 := snd (handle no_failure (cancelOrderById "asha@example.com" 1) s1) in
  option_map Order.status (find_order 1 1 (db s1)) = Some "Pending" /\
  option_map Order.status (find_order 1 1 (db s2)) = Some "Cancelled" /\
  stock_of 7 s1 = Some 2 /\
  stock_of 7 s2 = Some 2 /\
  handle no_failure (cancelOrderById "asha@example.com" 1) s2 =
    (Responded (mkRes 400 "Order is already cancelled" NoData), s2).
Proof.
  intros s1 s2.
  pose proof (cancelOrderById_pending "asha@example.com" 1 s1
                (User.mk 1 "asha@example.com")
                (Order.mk 1 1 7 (Double.of_Z 300) 3 "Pending" "12 Lake Road" "Chennai"
                          "600001" the_first_of_March "FedEx")
                eq_refl eq_refl eq_refl) as H.
  cbv zeta in H.
  destruct H as (_ & Hfound & _ & _ & _ & _ & _ & Hstock & Hagain).
  split; [reflexivity |].
  split; [exact (f_equal (option_map Order.status) Hfound) |].
  split; [reflexivity |].
  split; [exact (eq_trans (Hstock 7) eq_refl) |].
  exact Hagain.
Defined.

(** ** Listing the orders of an unknown user *)

(** For any non-empty e-mail without a user, the listing is answered 400. *)
Lemma getallOrdersByEmail_without_user email s :
  email <> "" ->
  find_user email (db s) = None ->
  handle no_failure (getallOrdersByEmail email) s =
    (Responded (mkRes 400 "User not found" NoData), s).
Proof.
  intros Hemail Hu. unfold handle, getallOrdersByEmail, falsy_str.
  apply String.eqb_neq in Hemail. rewrite Hemail.
  run_handler. rewrite Hu. reflexivity.
Qed.

(** C9. Listing the orders of an e-mail that belongs to no user is answered
    with status 400 and "User not found", not with 404. *)
Theorem getallOrdersByEmail_unknown_user_is_400 :
  find_user "nobody@example.com" (db shop) = None /\
  handle no_failure (getallOrdersByEmail "nobody@example.com") shop =
    (Responded (mkRes 400 "User not found" NoData), shop).
Proof. split; reflexivity. Qed.

(** The other lookups by e-mail answer 404 for the same unknown user. *)
Example unknown_user_elsewhere_is_404 :
  status_of (fst (handle no_failure (cancelOrderById "nobody@example.com" 1) shop))
    = Some 404 /\
  status_of (fst (handle no_failure (placeOrder (order_for "nobody@example.com" 1)) shop))
    = Some 404 /\
  status_of (fst (handle no_failure (getallCartItems "nobody@example.com") shop))
    = Some 404.
Proof. repeat split. Qed.

(** A user who exists and has no order is answered 404. *)
Example getallOrdersByEmail_no_orders_is_404 :
  handle no_failure (getallOrdersByEmail "asha@example.com") shop =
    (Responded (mkRes 404 "No orders found for this user" NoData), shop).
Proof. reflexivity. Qed.

(** ** Placements racing for the same stock *)

(** Stepping a program alone reaches the answer that [run] gives when the
    store rejects nothing of its own accord. *)
Lemma steps_reach_run p : forall k s r s',
  run no_failure k p s = (Responded r, s') ->
  exists n, steps n p s = (Respond r, s').
Proof.
  induction p as [r0 | | X op cont IH]; intros k s r s'.
  - intros [= <- <-]. exists 0%nat. reflexivity.
  - discriminate.
  - cbn [run no_failure].
    destruct (refuses op s) eqn:Er.
    + intros H. destruct (IH Rejected (S k) s r s' H) as [n Hn].
      exists (S n). cbn [steps step]. rewrite Er. exact Hn.
    + destruct (waits (Await op cont) s); [discriminate |].
      destruct (exec op s) as [x s1] eqn:E.
      intros H. destruct (IH (Resolved x) (S k) s1 r s' H) as [n Hn].
      exists (S n). cbn [steps step]. rewrite Er, E. exact Hn.
Qed.

(** C5. With a stock of 5, two placements of 3 each whose calls interleave
    as in [stale_read_schedule] are both answered 201: two orders for 6
    items are committed and the stock is left at 2. *)
Theorem placeOrder_race_oversells :
  let r := interleave stale_read_schedule two_placements in
  stock_of 7 shop = Some 5 /\
  5 < 3 + 3 /\
  option_map status (answer (client1 r)) = Some 201 /\
  option_map status (answer (client2 r)) = Some 201 /\
  map Order.quantity (orders (db (server r))) = [3; 3] /\
  stock_of 7 (server r) = Some 2.
Proof. vm_compute. repeat split. Qed.

(** In that schedule no update waits: the second client saves after the
    first has committed. *)
Example stale_read_schedule_lock_free :
  row_locked 7 (server (interleave (firstn 6 stale_read_schedule) two_placements))
    = false /\
  row_locked 7 (server (interleave (firstn 9 stale_read_schedule) two_placements))
    = false.
Proof. split; reflexivity. Qed.

(** Waiting for the row does not help: the second client saves the value it
    computed from its stale read once the first has committed. *)
Example contended_schedule_oversells :
  let waiting := interleave (firstn 7 contended_schedule) two_placements in
  let r := interleave contended_schedule two_placements in
  waits (client2 waiting) (server waiting) = true /\
  option_map status (answer (client1 r)) = Some 201 /\
  option_map status (answer (client2 r)) = Some 201 /\
  map Order.quantity (orders (db (server r))) = [3; 3] /\
  stock_of 7 (server r) = Some 2.
Proof. vm_compute. repeat split. Qed.

(** Served one after the other, the second placement is refused. *)
Example placements_in_sequence :
  map status_of
    (fst (serve [(PlaceOrder (order_for "asha@example.com" 3), no_failure);
                 (PlaceOrder (order_for "ravi@example.com" 3), no_failure)] shop))
  = [Some 201; Some 400].
Proof. reflexivity. Qed.

(** Served one after the other, two placements for the same product that
    together ask for more than the stock are never both answered 201. *)
Lemma placements_in_sequence_never_oversell pid body1 body2 rejects1 rejects2 s v :
  PlaceOrderBody.productId body1 = pid ->
  PlaceOrderBody.productId body2 = pid ->
  stock_of pid s = Some v ->
  0 <= v ->
  v < PlaceOrderBody.quantity body1 + PlaceOrderBody.quantity body2 ->
  let first := handle rejects1 (placeOrder body1) s in
  let second := handle rejects2 (placeOrder body2) (snd first) in
  placed_ok (fst first) && placed_ok (fst second) = false.
Proof.
  intros H1 H2 Hv Hpos Hsum first second.
  destruct (handle_stock pid (PlaceOrder body1) rejects1 s v Hv Hpos) as [Hv1 Hpos1].
  destruct (handle_stock pid (PlaceOrder body2) rejects2 _ _ Hv1 Hpos1) as [_ Hpos2].
  cbn [handler ordered] in Hpos2. fold first in Hpos2. fold second in Hpos2.
  rewrite H1, H2, Z.eqb_refl, !andb_true_r in Hpos2.
  destruct (placed_ok (fst first)); [| reflexivity].
  destruct (placed_ok (fst second)); [| reflexivity].
  lia.
Qed.

(** * Further properties of the handlers *)

(** ** Framing by the calls a handler makes *)

Section Frame.

Context {A : Type}.
Variable bad : forall X : Type, StoreOp X -> bool.
Variable observe : Server -> A.
Hypothesis exec_keeps :
  forall X (op : StoreOp X) s, bad X op = false -> observe (snd (exec op s)) = observe s.

Lemma avoids_run p :
  avoids bad p ->
  forall rejects n s, observe (snd (run rejects n p s)) = observe s.
Proof.
  induction 1 as [r | | X op k Hop Hk IH]; intros rejects n s;
    cbn [run]; try reflexivity.
  destruct (rejects n); [apply IH |].
  destruct (refuses op s); [apply IH |].
  destruct (waits (Await op k) s); [reflexivity |].
  pose proof (exec_keeps X op s Hop) as E.
  destruct (exec op s) as [x s1]. simpl in E.
  rewrite IH. exact E.
Qed.

End Frame.

Lemma avoids_try_catch bad body handler :
  avoids bad body -> avoids bad handler -> avoids bad (try_catch body handler).
Proof.
  induction 1 as [r | | X op k Hop Hk IH]; intros Hh; simpl.
  - constructor.
  - exact Hh.
  - constructor; [exact Hop | intros x; now apply IH].
Qed.

Lemma avoids_await bad X (op : StoreOp X) k :
  bad X op = false ->
  (forall x, avoids bad (k x)) ->
  avoids bad (await_call op k).
Proof.
  intros Hop Hk. unfold await_call. constructor; [exact Hop |].
  intros [x|]; [apply Hk | constructor].
Qed.

Ltac avoids_paths :=
  repeat first
    [ apply av_respond
    | apply av_throw
    | apply avoids_try_catch
    | apply avoids_await; [reflexivity | intros ?]
    | progress cbv zeta
    | match goal with
      | |- avoids _ (if ?b then _ else _) => destruct b
      | |- avoids _ (match ?x with _ => _ end) => destruct x
      end ].

Lemma exec_keeps_server X (op : StoreOp X) s :
  changes_server X op = false -> snd (exec op s) = s.
Proof. destruct op; simpl; intros H; try discriminate H; reflexivity. Qed.

Lemma carts_apply_writes ws : forall d, carts (apply_writes ws d) = carts d.
Proof.
  unfold apply_writes.
  induction ws as [|w ws IH]; intros d; simpl; [reflexivity |].
  rewrite IH. now destruct w.
Qed.

Lemma users_apply_writes ws : forall d, users (apply_writes ws d) = users d.
Proof.
  unfold apply_writes.
  induction ws as [|w ws IH]; intros d; simpl; [reflexivity |].
  rewrite IH. now destruct w.
Qed.

Lemma exec_keeps_carts X (op : StoreOp X) st :
  writes_carts X op = false ->
  (carts (db (snd (exec op st))), cartSeq (snd (exec op st)))
  = (carts (db st), cartSeq st).
Proof.
  destruct op; simpl; intros H; try discriminate H; try reflexivity.
  - unfold commit. destruct (pending_of t st) as [ws|]; [| reflexivity].
    simpl. now rewrite carts_apply_writes.
  - destruct t; reflexivity.
  - destruct t; reflexivity.
Qed.

Lemma exec_keeps_orders X (op : StoreOp X) st :
  writes_orders X op = false ->
  (orders (db (snd (exec op st))), orderSeq (snd (exec op st)))
  = (orders (db st), orderSeq st).
Proof.
  destruct op; simpl; intros H; try discriminate H; try reflexivity.
  - destruct t; reflexivity.
  - now destruct (DECIMAL_10_2 price).
Qed.

(** Explores every path of a handler run under an arbitrary [rejects]. *)
Ltac explore rejects :=
  repeat (cbn [try_catch await_call run refuses waits exec fst snd];
          match goal with
          | |- context [if rejects ?n then _ else _] => destruct (rejects n) eqn:?
          | |- context [if locked_by_other ?t ?p ?s then _ else _] =>
              destruct (locked_by_other t p s) eqn:?
          | |- context [if negb (Orders_takes ?o) then _ else _] =>
              destruct (negb (Orders_takes o)) eqn:?
          | |- context [match DECIMAL_10_2 ?t with _ => _ end] =>
              destruct (DECIMAL_10_2 t) eqn:?
          | |- context [match find_user ?e ?d with _ => _ end] =>
              destruct (find_user e d) eqn:?
          | |- context [match find_product ?e ?d with _ => _ end] =>
              destruct (find_product e d) eqn:?
          | |- context [match find_order ?a ?e ?d with _ => _ end] =>
              destruct (find_order a e d) eqn:?
          | |- context [match find_cart ?a ?e ?d with _ => _ end] =>
              destruct (find_cart a e d) eqn:?
          | |- context [match find_cart_by_id ?a ?e ?d with _ => _ end] =>
              destruct (find_cart_by_id a e d) eqn:?
          | |- context [match orderDetails ?a ?e with _ => _ end] =>
              destruct (orderDetails a e) eqn:?
          | |- context [try_catch (if ?b then _ else _) _] => destruct b eqn:?
          end).

(** ** Refused requests *)

(** X1. Whatever the request and whichever store calls reject, a request
    that is answered with a status of 400 or more, or not answered, leaves
    the committed tables exactly as they were: no handler answers an error
    after a write took effect. *)
Theorem refused_request_changes_nothing r rejects s :
  refused (fst (handle rejects (handler r) s)) = true ->
  db (snd (handle rejects (handler r) s)) = db s.
Proof.
  destruct r as [body | email | email orderId | body | email | body | email cartId].
  - intros H. destruct (placeOrder_cases rejects body s)
      as [(user & product & _ & _ & _ & _ & Hres & _) | [_ Hdb]].
    + cbn [handler] in H. rewrite Hres in H. discriminate H.
    + exact Hdb.
  - unfold handle, handler, getallOrdersByEmail.
    explore rejects; try reflexivity; try discriminate.
  - unfold handle, handler, cancelOrderById.
    explore rejects; try reflexivity; try discriminate.
  - unfold handle, handler, addToCart.
    explore rejects; try reflexivity; try discriminate.
  - unfold handle, handler, getallCartItems.
    explore rejects; try reflexivity; try discriminate.
  - unfold handle, handler, updateCartQuantity.
    explore rejects; try reflexivity; try discriminate.
  - unfold handle, handler, removeCartItem.
    explore rejects; try reflexivity; try discriminate.
Qed.

(** The save of an existing cart row rejects: 500 and the cart is as it
    was. *)
Lemma refused_request_changes_nothing_witness :
  let s1 := snd (handle no_failure (addToCart (cart_for "asha@example.com" 2)) shop) in
  fst (handle (fails_at 3) (addToCart (cart_for "asha@example.com" 3)) s1)
    = Responded internal_server_error /\
  db (snd (handle (fails_at 3) (handler (AddCart (cart_for "asha@example.com" 3))) s1))
    = db s1.
Proof.
  intros s1. split; [reflexivity |].
  apply refused_request_changes_nothing. reflexivity.
Defined.

(** ** Answering *)

Lemma try_catch_answers body r :
  avoids saves_stock body ->
  forall rejects n s,
    exists r', fst (run rejects n (try_catch body (Respond r)) s) = Responded r'.
Proof.
  induction 1 as [r0 | | X op k Hop Hk IH]; intros rejects n s; cbn [try_catch run].
  - now exists r0.
  - now exists r.
  - destruct (rejects n); [apply IH |].
    destruct (refuses op s); [apply IH |].
    replace (waits _ s) with false by (now destruct op).
    destruct (exec op s) as [x s1]. apply IH.
Qed.

Lemma begun_lock pid s d a b c :
  locked_by_other (txnSeq s) pid (mkServer d ((txnSeq s, []) :: open s) a b c) =
  locked_by_other (txnSeq s) pid s.
Proof.
  unfold locked_by_other. cbn [existsb open fst snd].
  now rewrite Nat.eqb_refl.
Qed.

Ltac answered_anyway :=
  split;
  [ discriminate
  | let b := fresh "b" in
    let Hb := fresh "Hb" in
    let H0 := fresh "W" in
    intros (b & Hb & [H0 | (H0 & ?W & ?W & (?u & ?W) & ?W & (?p & ?W & ?W) & ?W & ?W)]);
    injection Hb as <-; try congruence ].

(** X2. Every handler answers whatever the store does, with one exception.
    placeOrder leaves the request unanswered when beginning the transaction
    rejects, because that call is made before its [try], and when it comes
    to save the stock while a transaction left open by another placement
    holds the row of the product: that save never settles.  In no other
    case is a request left unanswered. *)
Theorem unanswered_placements r rejects s :
  fst (handle rejects (handler r) s) = Unanswered <->
  exists body,
    r = PlaceOrder body /\
    (rejects 0%nat = true \/ placement_waits rejects body s).
Proof.
  destruct r as [body | email | email orderId | body | email | body | email cartId];
    try (split;
         [ intros H; exfalso; unfold handle, handler in H;
           match type of H with
           | fst (run _ _ (?f) _) = _ => unfold f in H
           | fst (run _ _ (?f _) _) = _ => unfold f in H
           | fst (run _ _ (?f _ _) _) = _ => unfold f in H
           end;
           match type of H with
           | fst (run ?rj ?n (try_catch ?b (Respond ?r0)) ?st) = _ =>
               assert (Hav : avoids saves_stock b) by avoids_paths;
               destruct (try_catch_answers b r0 Hav rj n st) as [r' Hr'];
               rewrite Hr' in H; discriminate H
           end
         | intros (b & Hb & _); discriminate Hb ]).
  unfold handle, handler, placeOrder. cbn [run refuses waits await_call].
  destruct (rejects 0%nat) eqn:R0.
  { split; [intros _; exists body; split; [reflexivity | now left] | reflexivity]. }
  cbn [exec begin_transaction].
  match goal with
  | |- context [try_catch (if ?b then _ else _) _] => destruct b eqn:Hfields
  end.
  { answered_anyway.
    rewrite (complete_order_body_passes _ W0) in Hfields. discriminate. }
  cbn [try_catch await_call run refuses waits].
  destruct (rejects 1%nat) eqn:R1; [answered_anyway |].
  cbn [exec db].
  destruct (find_user _ _) as [user|] eqn:Hu; [| answered_anyway].
  cbn [try_catch await_call run refuses waits].
  destruct (rejects 2%nat) eqn:R2; [answered_anyway |].
  cbn [exec db].
  destruct (find_product _ _) as [product|] eqn:Hp; [| answered_anyway].
  destruct (Product.stock product <? _) eqn:Hq.
  { answered_anyway. apply Z.ltb_lt in Hq.
    match goal with
    | H : find_product _ _ = Some ?p |- _ => rewrite Hp in H; injection H as <-
    end. lia. }
  cbn [try_catch await_call run refuses waits].
  destruct (rejects 3%nat) eqn:R3; [answered_anyway |].
  cbn [Product.id Product.set_stock].
  rewrite begun_lock, (find_product_id _ _ _ Hp).
  destruct (locked_by_other _ _ s) eqn:Hlock.
  { split; [intros _ | reflexivity].
    exists body. split; [reflexivity | right].
    unfold placement_waits.
    split; [exact R0 |]. split.
    { unfold falsy_str, falsy_num in Hfields.
      repeat (apply orb_false_iff in Hfields; destruct Hfields as [Hfields ?]).
      repeat split; first [ now apply String.eqb_neq | now apply Z.eqb_neq ]. }
    split; [exact R1 |]. split; [exists user; exact Hu |].
    split; [exact R2 |]. split.
    { exists product. split; [exact Hp | now apply Z.ltb_ge]. }
    split; [exact R3 | exact Hlock]. }
  cbn [exec write].
  destruct (rejects 4%nat) eqn:R4; [answered_anyway |].
  destruct (negb (Orders_takes _)); [answered_anyway |].
  cbn [exec write].
  destruct (rejects 5%nat) eqn:R5; answered_anyway.
Qed.

(** ** The transaction of a placement *)



Lemma open_commit_length t s :
  (List.length (open (commit t s)) <= List.length (open s))%nat.
Proof.
  unfold commit. destruct (pending_of t s); simpl; [| lia].
  apply filter_length_le.
Qed.




(** ** One cart row for a user and a product *)

Lemma NoDup_map_eq {A B : Type} (f : A -> B) (l : list A) (a b : A) :
  NoDup (map f l) -> In a l -> In b l -> f a = f b -> a = b.
Proof.
  induction l as [|x l IH]; simpl; intros Hnd Ha Hb Hf; [contradiction |].
  inversion Hnd as [|? ? Hx Hl]; subst.
  destruct Ha as [-> | Ha], Hb as [-> | Hb].
  - reflexivity.
  - exfalso. apply Hx. rewrite Hf. now apply in_map.
  - exfalso. apply Hx. rewrite <- Hf. now apply in_map.
  - now apply IH.
Qed.

Lemma NoDup_map_filter {A B : Type} (f : A -> B) (g : A -> bool) (l : list A) :
  NoDup (map f l) -> NoDup (map f (filter g l)).
Proof.
  induction l as [|x l IH]; simpl; intros Hnd; [constructor |].
  inversion Hnd as [|? ? Hx Hl]; subst.
  destruct (g x); simpl; [| now apply IH].
  constructor; [| now apply IH].
  intros Hin. apply Hx. apply in_map_iff in Hin. destruct Hin as (y & Hy & Hin).
  apply filter_In in Hin. apply in_map_iff. exists y. tauto.
Qed.

Lemma find_cart_none_key uid pid d :
  find_cart uid pid d = None -> ~ In (uid, pid) (map cart_key (carts d)).
Proof.
  unfold find_cart. intros Hnone Hin.
  apply in_map_iff in Hin. destruct Hin as (c & Hkey & Hin).
  apply (find_none _ _ Hnone) in Hin.
  unfold cart_key in Hkey. injection Hkey as <- <-.
  now rewrite !Z.eqb_refl in Hin.
Qed.

Lemma find_cart_in uid pid d c : find_cart uid pid d = Some c -> In c (carts d).
Proof. unfold find_cart. intros H. now apply find_some in H. Qed.

Lemma consistent_created s uid pid q pr :
  carts_consistent s ->
  find_cart uid pid (db s) = None ->
  carts_consistent (snd (exec (Cart_create (Cart.mk 0 uid pid q pr)) s)).
Proof.
  intros (Hids & Hbelow & Hkeys) Hnone. unfold carts_consistent. cbn.
  rewrite !map_app. cbn. split; [| split].
  - apply NoDup_app; [exact Hids | repeat constructor; intros [] |].
    intros x Hx [<- | []]. apply in_map_iff in Hx. destruct Hx as (c & Hc & Hin).
    apply Hbelow in Hin. lia.
  - intros c Hin. apply in_app_or in Hin. destruct Hin as [Hin | [<- | []]].
    + apply Hbelow in Hin. lia.
    + cbn. lia.
  - apply NoDup_app; [exact Hkeys | repeat constructor; intros [] |].
    intros x Hx [<- | []]. now apply (find_cart_none_key uid pid (db s)).
Qed.

Lemma saved_same_columns {B : Type} (f : Cart.t -> B) (l : list Cart.t) (c c' : Cart.t) :
  NoDup (map Cart.id l) -> In c l -> f c' = f c ->
  map f (map (fun r => if Cart.id r =? Cart.id c then c' else r) l) = map f l.
Proof.
  intros Hnd Hin Hf. rewrite map_map. apply map_ext_in. intros r Hr.
  destruct (Cart.id r =? Cart.id c) eqn:E; [| reflexivity].
  apply Z.eqb_eq in E.
  rewrite (NoDup_map_eq Cart.id l r c Hnd Hr Hin E). exact Hf.
Qed.

Lemma consistent_saved s c c' :
  carts_consistent s ->
  In c (carts (db s)) ->
  Cart.id c' = Cart.id c ->
  cart_key c' = cart_key c ->
  carts_consistent (snd (exec (cartItem_save c') s)).
Proof.
  intros (Hids & Hbelow & Hkeys) Hin Hid Hkey. unfold carts_consistent. cbn.
  rewrite Hid.
  rewrite (saved_same_columns Cart.id _ c c' Hids Hin Hid).
  rewrite (saved_same_columns cart_key _ c c' Hids Hin Hkey).
  repeat split; [exact Hids | | exact Hkeys].
  intros r Hr. apply in_map_iff in Hr. destruct Hr as (r0 & Hr0 & Hin0).
  destruct (Cart.id r0 =? Cart.id c).
  - subst r. rewrite Hid. now apply Hbelow.
  - subst r. now apply Hbelow.
Qed.

Lemma consistent_destroyed s c :
  carts_consistent s ->
  carts_consistent (snd (exec (cartItem_destroy c) s)).
Proof.
  intros (Hids & Hbelow & Hkeys). unfold carts_consistent. cbn.
  repeat split.
  - now apply NoDup_map_filter.
  - intros r Hr. apply filter_In in Hr. now apply Hbelow.
  - now apply NoDup_map_filter.
Qed.

Lemma consistent_same_carts s s' :
  (carts (db s'), cartSeq s') = (carts (db s), cartSeq s) ->
  carts_consistent s -> carts_consistent s'.
Proof.
  intros [= Hc Hseq]. unfold carts_consistent. now rewrite Hc, Hseq.
Qed.

Lemma handle_keeps_carts_consistent r rejects s :
  carts_consistent s ->
  carts_consistent (snd (handle rejects (handler r) s)).
Proof.
  intros Hs.
  assert (Hframe : avoids writes_carts (handler r) ->
                   carts_consistent (snd (handle rejects (handler r) s))).
  { intros Hav. apply (consistent_same_carts s); [| exact Hs].
    unfold handle.
    apply (avoids_run writes_carts (fun st => (carts (db st), cartSeq st))
             exec_keeps_carts _ Hav). }
  destruct r as [body | email | email orderId | body | email | body | email cartId];
    cbn [handler] in *.
  - apply Hframe. unfold placeOrder. avoids_paths.
  - apply Hframe. unfold getallOrdersByEmail. avoids_paths.
  - apply Hframe. unfold cancelOrderById. avoids_paths.
  - clear Hframe. unfold handle, addToCart.
    explore rejects; try exact Hs.
    + match goal with
      | Hc : find_cart _ _ _ = Some ?c
        |- context [CartItemText _ _ _ ?q _] =>
          match goal with
          | |- context [if Cart.id _ =? _ then Cart.mk _ _ _ _ ?v else _] =>
              exact (consistent_saved s c
                       (Cart.mk (Cart.id c) (Cart.userId c) (Cart.productId c) q v)
                       Hs (find_cart_in _ _ _ _ Hc) eq_refl eq_refl)
          end
      end.
    + match goal with
      | Hc : find_cart ?u ?p _ = None |- _ =>
          exact (consistent_created s u p _ _ Hs Hc)
      end.
  - apply Hframe. unfold getallCartItems. avoids_paths.
  - clear Hframe. unfold handle, updateCartQuantity.
    explore rejects; try exact Hs.
    match goal with
    | Hc : find_cart _ _ _ = Some ?c
      |- context [CartItemData (Cart.mk _ _ _ ?q ?p)] =>
        exact (consistent_saved s c
                 (Cart.mk (Cart.id c) (Cart.userId c) (Cart.productId c) q p)
                 Hs (find_cart_in _ _ _ _ Hc) eq_refl eq_refl)
    end.
  - clear Hframe. unfold handle, removeCartItem.
    explore rejects; try exact Hs.
    match goal with
    | Hc : find_cart_by_id _ _ _ = Some ?c |- _ =>
        exact (consistent_destroyed s c Hs)
    end.
Qed.

Lemma consistent_one_row s uid pid :
  carts_consistent s -> (List.length (cart_rows uid pid (db s)) <= 1)%nat.
Proof.
  intros (_ & _ & Hkeys). unfold cart_rows.
  induction (carts (db s)) as [|c l IH]; simpl; [lia |].
  inversion Hkeys as [|? ? Hc Hl]; subst.
  destruct ((Cart.userId c =? uid) && (Cart.productId c =? pid)) eqn:E;
    [| now apply IH].
  apply andb_true_iff in E. destruct E as [E1 E2].
  apply Z.eqb_eq in E1, E2.
  replace (filter _ l) with (@nil Cart.t); [simpl; lia |].
  symmetry. apply find_none_filter.
  destruct (find _ l) as [c0|] eqn:F; [| reflexivity].
  exfalso. apply find_some in F. destruct F as [Hin F].
  apply andb_true_iff in F. destruct F as [F1 F2]. apply Z.eqb_eq in F1, F2.
  apply Hc. apply in_map_iff. exists c0. split; [| exact Hin].
  unfold cart_key. congruence.
Qed.

(** X4. Served one after the other, the handlers keep the Carts table
    consistent whatever is requested and whatever fails: from a table with
    unique ids below the sequence and at most one row per (user, product),
    any sequence of requests leads to such a table again; so a user never
    has two rows for the same product, although no constraint of the
    schema says so. *)
Theorem serve_keeps_one_cart_row_per_product rs : forall s,
  carts_consistent s ->
  carts_consistent (snd (serve rs s)) /\
  forall uid pid, (List.length (cart_rows uid pid (db (snd (serve rs s)))) <= 1)%nat.
Proof.
  assert (H : forall s, carts_consistent s -> carts_consistent (snd (serve rs s))).
  { induction rs as [|[r rejects] rest IH]; intros s Hs; simpl; [exact Hs |].
    pose proof (handle_keeps_carts_consistent r rejects s Hs) as H1.
    destruct (handle rejects (handler r) s) as [o s1]. simpl in H1.
    specialize (IH s1 H1). destruct (serve rest s1) as [os s2]. exact IH. }
  intros s Hs. split; [now apply H |].
  intros uid pid. apply consistent_one_row. now apply H.
Qed.

Lemma shop_carts_consistent : carts_consistent shop.
Proof.
  unfold carts_consistent. simpl. repeat split; try constructor.
  intros c [].
Qed.

Lemma serve_keeps_one_cart_row_per_product_witness :
  (List.length
     (cart_rows 1 7
        (db (snd (serve [(AddCart (cart_for "asha@example.com" 2), no_failure);
                         (AddCart (cart_for "asha@example.com" 3), no_failure);
                         (UpdateCartQuantity (cart_for "asha@example.com" 1), no_failure);
                         (AddCart (cart_for "ravi@example.com" 1), no_failure)]
                        shop)))) <= 1)%nat.
Proof.
  apply (serve_keeps_one_cart_row_per_product _ shop shop_carts_consistent).
Defined.

(** ** Orders are only ever appended or cancelled *)

Lemma grows_refl l : grows l l.
Proof. induction l; constructor; auto. Qed.

Lemma grows_app l added : grows l (l ++ added).
Proof. induction l; simpl; constructor; auto. Qed.

Lemma grows_trans l1 l2 : grows l1 l2 -> forall l3, grows l2 l3 -> grows l1 l3.
Proof.
  induction 1 as [added | o o' before after Hf Hs H12 IH]; intros l3 H23.
  - constructor.
  - inversion H23 as [| ? o'' ? after' Hf' Hs' H' ]; subst.
    constructor.
    + congruence.
    + destruct Hs' as [Hs' | Hs']; [| now right].
      destruct Hs as [Hs | Hs]; [left | right]; congruence.
    + now apply IH.
Qed.

Lemma grows_cancelled (test : Order.t -> bool) l :
  grows l (map (fun o => if test o then Order.set_status "Cancelled" o else o) l).
Proof.
  induction l as [|o l IH]; simpl; constructor; auto.
  - now destruct (test o).
  - destruct (test o); [now right | now left].
Qed.

Lemma grows_In before after :
  grows before after ->
  forall o, In o before ->
  exists o', In o' after /\ frozen o' = frozen o /\
             (Order.status o' = Order.status o \/ Order.status o' = "Cancelled").
Proof.
  induction 1 as [added | o0 o0' before after Hf Hs H IH]; intros o Hin.
  - destruct Hin.
  - destruct Hin as [<- | Hin].
    + exists o0'. repeat split; [now left | exact Hf | exact Hs].
    + destruct (IH o Hin) as (o' & Hin' & H').
      exists o'. split; [now right | exact H'].
Qed.

Lemma handle_grows_orders r rejects s :
  grows (orders (db s)) (orders (db (snd (handle rejects (handler r) s)))).
Proof.
  assert (Hframe : avoids writes_orders (handler r) ->
                   grows (orders (db s))
                         (orders (db (snd (handle rejects (handler r) s))))).
  { intros Hav.
    pose proof (avoids_run writes_orders (fun st => (orders (db st), orderSeq st))
                  exec_keeps_orders _ Hav rejects 0%nat s) as E.
    injection E as E _. unfold handle. rewrite E. apply grows_refl. }
  destruct r as [body | email | email orderId | body | email | body | email cartId];
    cbn [handler] in *.
  - clear Hframe.
    destruct (placeOrder_cases rejects body s)
      as [(user & product & _ & _ & _ & _ & _ & Hdb) | [_ Hdb]]; rewrite Hdb.
    + simpl. apply grows_app.
    + apply grows_refl.
  - apply Hframe. unfold getallOrdersByEmail. avoids_paths.
  - clear Hframe. unfold handle, cancelOrderById.
    explore rejects; try apply grows_refl.
    cbn [db with_db orders with_orders].
    apply (grows_cancelled
             (fun o => (Order.id o =? orderId) && (Order.userId o =? _))).
  - apply Hframe. unfold addToCart. avoids_paths.
  - apply Hframe. unfold getallCartItems. avoids_paths.
  - apply Hframe. unfold updateCartQuantity. avoids_paths.
  - apply Hframe. unfold removeCartItem. avoids_paths.
Qed.

(** X5. Whatever sequence of requests is served and whatever fails, the
    Orders table only grows: every row that was there is still there, in
    place, with the same owner, product, quantity, totalAmount and shipping
    fields, and with its old status or "Cancelled" (a cancelled order stays
    cancelled); no handler deletes or rewrites an order. *)
Theorem serve_only_appends_or_cancels_orders rs : forall s,
  grows (orders (db s)) (orders (db (snd (serve rs s)))) /\
  forall o, In o (orders (db s)) ->
    exists o', In o' (orders (db (snd (serve rs s)))) /\
      frozen o' = frozen o /\
      (Order.status o' = Order.status o \/ Order.status o' = "Cancelled").
Proof.
  assert (H : forall s, grows (orders (db s)) (orders (db (snd (serve rs s))))).
  { induction rs as [|[r rejects] rest IH]; intros s; simpl; [apply grows_refl |].
    pose proof (handle_grows_orders r rejects s) as H1.
    destruct (handle rejects (handler r) s) as [o s1]. simpl in H1.
    specialize (IH s1). destruct (serve rest s1) as [os s2]. simpl in *.
    exact (grows_trans _ _ H1 _ IH). }
  intros s. split; [apply H |]. apply grows_In, H.
Qed.

(** A placed order, then its cancellation and another placement: the
    first order is still there, unchanged but for its status. *)
Lemma serve_only_appends_or_cancels_orders_witness :
  let first := Order.mk 1 1 7 (Double.of_Z 300) 3 "Pending" "12 Lake Road" "Chennai"
                        "600001" the_first_of_March "FedEx" in
  let s1 := snd (handle no_failure (placeOrder (order_for "asha@example.com" 3)) shop) in
  let rs := [(CancelOrder "asha@example.com" 1, no_failure);
             (PlaceOrder (order_for "ravi@example.com" 1), no_failure)] in
  orders (db s1) = [first] /\
  exists o', In o' (orders (db (snd (serve rs s1)))) /\
    frozen o' = frozen first /\
    (Order.status o' = "Pending" \/ Order.status o' = "Cancelled").
Proof.
  intros first s1 rs. split; [reflexivity |].
  exact (proj2 (serve_only_appends_or_cancels_orders rs s1) first
           (or_introl eq_refl)).
Defined.

(** ** Removing a cart row *)

Lemma find_none_of {A : Type} (f : A -> bool) (l : list A) :
  (forall x, In x l -> f x = false) -> find f l = None.
Proof.
  induction l as [|a l IH]; simpl; intros H; [reflexivity |].
  rewrite (H a (or_introl eq_refl)). apply IH. intros x Hx. apply H. now right.
Qed.

Lemma find_cart_by_id_is cid uid d c :
  find_cart_by_id cid uid d = Some c -> Cart.id c = cid /\ Cart.userId c = uid.
Proof.
  unfold find_cart_by_id. intros H. apply find_some in H. destruct H as [_ H].
  apply andb_true_iff in H. destruct H as [H1 H2]. split; now apply Z.eqb_eq.
Qed.

(** X6. Removing a cart row of one's own is answered 200; every row with
    that id is deleted and every other row is kept; Products and Orders are
    untouched; and removing it again is answered 404 and changes
    nothing. *)
Theorem removeCartItem_removes email cartId s user item :
  email <> "" ->
  find_user email (db s) = Some user ->
  find_cart_by_id cartId (User.id user) (db s) = Some item ->
  let s' := snd (handle no_failure (removeCartItem email cartId) s) in
  fst (handle no_failure (removeCartItem email cartId) s) =
    Responded (mkRes 200 "Cart item removed successfully" NoData) /\
  carts (db s') = filter (fun r => negb (Cart.id r =? cartId)) (carts (db s)) /\
  products (db s') = products (db s) /\
  orders (db s') = orders (db s) /\
  handle no_failure (removeCartItem email cartId) s' =
    (Responded (mkRes 404 "Cart item not found" NoData), s').
Proof.
  intros Hemail Hu Hc.
  destruct (find_cart_by_id_is _ _ _ _ Hc) as [Hid _].
  apply String.eqb_neq in Hemail.
  unfold handle, removeCartItem, falsy_str. rewrite Hemail.
  run_handler. rewrite Hu. run_handler. rewrite Hc. run_handler.
  cbn [fst snd db carts products orders with_db with_carts]. rewrite Hid.
  repeat split.
  replace (find_user email _) with (Some user) by (symmetry; exact Hu).
  run_handler.
  replace (find_cart_by_id cartId (User.id user) _) with (@None Cart.t);
    [reflexivity |].
  symmetry. unfold find_cart_by_id. cbn [db carts with_db with_carts].
  apply find_none_of. intros x Hx. apply filter_In in Hx. destruct Hx as [_ Hx].
  apply negb_true_iff in Hx. now rewrite Hx.
Qed.

Lemma removeCartItem_removes_witness :
  let s1 := snd (handle no_failure (addToCart (cart_for "asha@example.com" 2)) shop) in
  let s2 := snd (handle no_failure (removeCartItem "asha@example.com" 1) s1) in
  carts (db s1) = [Cart.mk 1 1 7 2 20000] /\
  carts (db s2) = [] /\
  handle no_failure (removeCartItem "asha@example.com" 1) s2 =
    (Responded (mkRes 404 "Cart item not found" NoData), s2).
Proof.
  intros s1 s2.
  destruct (removeCartItem_removes "asha@example.com" 1 s1
              (User.mk 1 "asha@example.com") (Cart.mk 1 1 7 2 20000))
    as (_ & Hc & _ & _ & Hagain);
    [discriminate | reflexivity | reflexivity |].
  split; [reflexivity |].
  split; [exact Hc | exact Hagain].
Defined.

(** X7. A user cannot remove a row of somebody else: for an id that the
    INTEGER column of Carts.id can be compared with (the text of an integer
    of 32 bits; any other text makes the store reject the query, and that
    is answered 500), when no row with the given id belongs to the user,
    the answer is 404 and the server is left as it was. *)
Theorem removeCartItem_only_own_rows email cartId s user :
  email <> "" ->
  find_user email (db s) = Some user ->
  INTEGER cartId = true ->
  (forall c, In c (carts (db s)) -> Cart.id c = cartId ->
             Cart.userId c <> User.id user) ->
  handle no_failure (removeCartItem email cartId) s =
    (Responded (mkRes 404 "Cart item not found" NoData), s).
Proof.
  intros Hemail Hu _ Hforeign.
  apply String.eqb_neq in Hemail.
  unfold handle, removeCartItem, falsy_str. rewrite Hemail.
  run_handler. rewrite Hu. run_handler.
  replace (find_cart_by_id cartId (User.id user) (db s)) with (@None Cart.t);
    [reflexivity |].
  symmetry. apply find_none_of. intros c Hc.
  destruct (Cart.id c =? cartId) eqn:E1; [| reflexivity].
  destruct (Cart.userId c =? User.id user) eqn:E2; [| reflexivity].
  apply Z.eqb_eq in E1, E2. now elim (Hforeign c Hc E1).
Qed.

Lemma removeCartItem_only_own_rows_witness :
  let s1 := snd (handle no_failure (addToCart (cart_for "asha@example.com" 2)) shop) in
  handle no_failure (removeCartItem "ravi@example.com" 1) s1 =
    (Responded (mkRes 404 "Cart item not found" NoData), s1).
Proof.
  intros s1.
  apply (removeCartItem_only_own_rows "ravi@example.com" 1 s1
           (User.mk 2 "ravi@example.com")).
  - discriminate.
  - reflexivity.
  - reflexivity.
  - intros c [<- | []] _. simpl. discriminate.
Defined.

(** ** Cancelling somebody else's order *)

(** X8. A user cannot cancel an order of somebody else: for an id that the
    INTEGER column of Orders.id can be compared with (the text of an
    integer of 32 bits; any other text makes the store reject the query,
    and that is answered 500), when no order with the given id belongs to
    the user, the answer is 404 and the server is left as it was, whatever
    the status of that order. *)
Theorem cancelOrderById_only_own_orders email orderId s user :
  find_user email (db s) = Some user ->
  INTEGER orderId = true ->
  (forall o, In o (orders (db s)) -> Order.id o = orderId ->
             Order.userId o <> User.id user) ->
  handle no_failure (cancelOrderById email orderId) s =
    (Responded (mkRes 404 "Order not found for the given email and orderId" NoData), s).
Proof.
  intros Hu _ Hforeign.
  unfold handle, cancelOrderById.
  run_handler. rewrite Hu. run_handler.
  replace (find_order orderId (User.id user) (db s)) with (@None Order.t);
    [reflexivity |].
  symmetry. apply find_none_of. intros o Ho.
  destruct (Order.id o =? orderId) eqn:E1; [| reflexivity].
  destruct (Order.userId o =? User.id user) eqn:E2; [| reflexivity].
  apply Z.eqb_eq in E1, E2. now elim (Hforeign o Ho E1).
Qed.

Lemma cancelOrderById_only_own_orders_witness :
  let s1 := snd (handle no_failure (placeOrder (order_for "asha@example.com" 3)) shop) in
  handle no_failure (cancelOrderById "ravi@example.com" 1) s1 =
    (Responded (mkRes 404 "Order not found for the given email and orderId" NoData), s1).
Proof.
  intros s1.
  apply (cancelOrderById_only_own_orders "ravi@example.com" 1 s1
           (User.mk 2 "ravi@example.com")).
  - reflexivity.
  - reflexivity.
  - intros o [<- | []] _. simpl. discriminate.
Defined.

(** ** The stock check of the cart handlers *)

(** X9. addToCart refuses a quantity above the current stock with 400 and
    "Only <stock> items left in stock", before looking at the cart, and
    leaves the server as it was. *)
Theorem addToCart_insufficient_stock body s user product :
  cart_body_complete body ->
  find_user (CartBody.email body) (db s) = Some user ->
  find_product (CartBody.productId body) (db s) = Some product ->
  Product.stock product < CartBody.quantity body ->
  handle no_failure (addToCart body) s =
    (Responded
       (mkRes 400
          (String.append "Only "
             (String.append (Number_toString (Product.stock product))
                " items left in stock"))
          NoData), s).
Proof.
  intros Hbody Hu Hp Hq.
  unfold handle, addToCart.
  rewrite (complete_cart_body_passes body Hbody).
  run_handler. rewrite Hu. run_handler. rewrite Hp. cbv zeta.
  apply Z.ltb_lt in Hq. rewrite Hq. reflexivity.
Qed.

Lemma addToCart_insufficient_stock_witness :
  handle no_failure (addToCart (cart_for "asha@example.com" 6)) shop =
    (Responded (mkRes 400 "Only 5 items left in stock" NoData), shop).
Proof.
  apply (addToCart_insufficient_stock (cart_for "asha@example.com" 6) shop
           (User.mk 1 "asha@example.com") (Product.mk 7 "Lamp" 10000 5)).
  - unfold cart_body_complete; simpl; repeat split; discriminate.
  - reflexivity.
  - reflexivity.
  - simpl; lia.
Defined.

(** X10. updateCartQuantity refuses a new quantity above the current stock
    with 400 and "Only <stock> items left in stock" and leaves the row as
    it was; the check comes after the lookup of the row, so without a row
    the answer is 404 whatever the quantity. *)
Theorem updateCartQuantity_insufficient_stock body s user product :
  cart_body_complete body ->
  find_user (CartBody.email body) (db s) = Some user ->
  find_product (CartBody.productId body) (db s) = Some product ->
  Product.stock product < CartBody.quantity body ->
  handle no_failure (updateCartQuantity body) s =
    (Responded
       (match find_cart (User.id user) (CartBody.productId body) (db s) with
        | Some _ =>
            mkRes 400
              (String.append "Only "
                 (String.append (Number_toString (Product.stock product))
                    " items left in stock"))
              NoData
        | None => mkRes 404 "Cart item not found" NoData
        end), s).
Proof.
  intros Hbody Hu Hp Hq.
  unfold handle, updateCartQuantity.
  rewrite (complete_cart_body_passes body Hbody).
  run_handler. rewrite Hu. run_handler. rewrite Hp. run_handler.
  destruct (find_cart _ _ _); [| reflexivity].
  assert (Hq' : (CartBody.quantity body >? Product.stock product) = true)
    by (rewrite Z.gtb_ltb; now apply Z.ltb_lt).
  rewrite Hq'. reflexivity.
Qed.

Lemma updateCartQuantity_insufficient_stock_witness :
  let s1 := snd (handle no_failure (addToCart (cart_for "asha@example.com" 2)) shop) in
  handle no_failure (updateCartQuantity (cart_for "asha@example.com" 6)) s1 =
    (Responded (mkRes 400 "Only 5 items left in stock" NoData), s1) /\
  handle no_failure (updateCartQuantity (cart_for "ravi@example.com" 6)) s1 =
    (Responded (mkRes 404 "Cart item not found" NoData), s1).
Proof.
  intros s1. split.
  - apply (updateCartQuantity_insufficient_stock (cart_for "asha@example.com" 6) s1
             (User.mk 1 "asha@example.com") (Product.mk 7 "Lamp" 10000 5));
      [ unfold cart_body_complete; simpl; repeat split; discriminate
      | reflexivity | reflexivity | simpl; lia ].
  - apply (updateCartQuantity_insufficient_stock (cart_for "ravi@example.com" 6) s1
             (User.mk 2 "ravi@example.com") (Product.mk 7 "Lamp" 10000 5));
      [ unfold cart_body_complete; simpl; repeat split; discriminate
      | reflexivity | reflexivity | simpl; lia ].
Defined.

(** ** Listings *)

(** X11. The two listings by e-mail only read: whatever the e-mail and
    whichever calls reject, the server is left exactly as it was. *)
Theorem listings_change_nothing email rejects s :
  snd (handle rejects (getallOrdersByEmail email) s) = s /\
  snd (handle rejects (getallCartItems email) s) = s.
Proof.
  split; unfold handle;
    apply (avoids_run changes_server (fun st => st) exec_keeps_server).
  - unfold getallOrdersByEmail. avoids_paths.
  - unfold getallCartItems. avoids_paths.
Qed.



Lemma orderDetails_none user rows :
  orderDetails user rows = None <-> exists o, In (o, None) rows.
Proof.
  induction rows as [|[o [p|]] rows IH]; simpl.
  - split; [discriminate | intros [o []]].
  - destruct (orderDetails user rows) as [ds|].
    + split; [discriminate |].
      intros [o' [Hin | Hin]]; [discriminate |].
      assert (Hno : Some ds = None) by (apply (proj2 IH); now exists o').
      discriminate Hno.
    + split; [| reflexivity]. intros _.
      destruct (proj1 IH eq_refl) as [o' Hin]. exists o'. now right.
  - split; [| reflexivity]. intros _. exists o. now left.
Qed.

Lemma orderDetails_all user d rows :
  (forall r, In r rows -> find_product (Order.productId r) d <> None) ->
  orderDetails user (map (fun r => (r, find_product (Order.productId r) d)) rows)
  = Some (map (details_of user d) rows).
Proof.
  induction rows as [|r rows IH]; intros Hall; [reflexivity |].
  cbn [map orderDetails]. unfold details_of at 1.
  destruct (find_product (Order.productId r) d) as [p|] eqn:Hp.
  - rewrite IH; [reflexivity |]. intros r' Hin. apply Hall. now right.
  - exfalso. apply (Hall r); [now left | exact Hp].
Qed.

(** X13. For an existing user the order listing is answered 404 when the
    user has no order, 500 when one of the user's orders points to a
    product that is no longer there (its name is read without a check),
    and otherwise 200 with one entry per order of that user, carrying the
    user's e-mail, the product's name and the order's own fields; the
    query fixes no order of the entries. *)
Theorem getallOrdersByEmail_outcomes email s user :
  email <> "" ->
  find_user email (db s) = Some user ->
  let rows := filter (fun o => Order.userId o =? User.id user) (orders (db s)) in
  let o := fst (handle no_failure (getallOrdersByEmail email) s) in
  (rows = [] ->
     o = Responded (mkRes 404 "No orders found for this user" NoData)) /\
  (rows <> [] ->
     (exists r, In r rows /\ find_product (Order.productId r) (db s) = None) ->
     o = Responded internal_server_error) /\
  (rows <> [] ->
     (forall r, In r rows -> find_product (Order.productId r) (db s) <> None) ->
     exists details,
       o = Responded (mkRes 200 "Order History retrieved successfully"
                        (OrderHistory details)) /\
       Permutation details (map (details_of user (db s)) rows)).
Proof.
  intros Hemail Hu rows o.
  apply String.eqb_neq in Hemail.
  subst o. unfold handle, getallOrdersByEmail, falsy_str. rewrite Hemail.
  run_handler. rewrite Hu. run_handler. fold rows.
  set (joined := map (fun r => (r, find_product (Order.productId r) (db s))) rows).
  assert (Hlen : forall (b : bool), rows <> [] ->
                 (List.length joined =? 0)%nat = false).
  { intros _ Hne. subst joined. rewrite length_map.
    destruct rows; [contradiction | reflexivity]. }
  split; [| split].
  - intros Hnil. subst joined. rewrite Hnil. reflexivity.
  - intros Hne (r & Hin & Hmiss). rewrite (Hlen true Hne).
    replace (orderDetails user joined) with (@None (list OrderDetails.t));
      [reflexivity |].
    symmetry. apply orderDetails_none. exists r. subst joined.
    apply in_map_iff. exists r. now rewrite Hmiss.
  - intros Hne Hall. rewrite (Hlen true Hne).
    subst joined. rewrite (orderDetails_all user (db s) rows Hall).
    eexists. split; [reflexivity | apply Permutation_refl].
Qed.

Lemma getallOrdersByEmail_outcomes_witness :
  let s1 := snd (handle no_failure (placeOrder (order_for "asha@example.com" 3)) shop) in
  fst (handle no_failure (getallOrdersByEmail "ravi@example.com") s1)
    = Responded (mkRes 404 "No orders found for this user" NoData) /\
  exists details,
    fst (handle no_failure (getallOrdersByEmail "asha@example.com") s1)
      = Responded (mkRes 200 "Order History retrieved successfully"
                     (OrderHistory details)) /\
    Permutation details
      [OrderDetails.mk "asha@example.com" "Lamp" 3 (Double.of_Z 300) "Pending"
         "12 Lake Road" "Chennai" "600001" the_first_of_March "FedEx"].
Proof.
  intros s1. split.
  - apply (getallOrdersByEmail_outcomes "ravi@example.com" s1
             (User.mk 2 "ravi@example.com")); [discriminate | reflexivity | reflexivity].
  - destruct (getallOrdersByEmail_outcomes "asha@example.com" s1
                (User.mk 1 "asha@example.com")) as (_ & _ & H);
      [discriminate | reflexivity |].
    destruct H as (details & Hres & Hperm).
    + discriminate.
    + intros r [<- | []]. discriminate.
    + exists details. split; [exact Hres |].
      vm_compute in Hperm. vm_compute. exact Hperm.
Defined.

(** ** One order, and all orders *)

Ltac perform_code :=
  cbn [guarded call perform exec_order exec no_failure db].

(** X14. getOrderById is scoped to the user of the e-mail.  For an order of
    that user it answers 200 with the order's own fields and the user's
    e-mail, and with the product's name or "N/A" when the product is no
    longer there (where the listing by e-mail answers 500); when the id is
    an INTEGER and no order with that id belongs to the user it answers
    404.  The server is unchanged either way.  (A path segment that is no
    integer, or none of the column's range, makes the store reject the
    lookup and is not covered.) *)
Theorem getOrderById_outcomes email orderId s user :
  find_user email (db s) = Some user ->
  INTEGER orderId = true ->
  (forall order,
     find_order orderId (User.id user) (db s) = Some order ->
     perform exec_order no_failure 0 (getOrderById email orderId) s =
       (Some (mkReply 200 "Order details retrieved successfully"
                (OneOrder
                   (view order (User.email user)
                      (match find_product (Order.productId order) (db s) with
                       | Some product => Product.name product
                       | None => "N/A"
                       end)))), s)) /\
  ((forall o, In o (orders (db s)) -> Order.id o = orderId ->
              Order.userId o <> User.id user) ->
   perform exec_order no_failure 0 (getOrderById email orderId) s =
     (Some (mkReply 404 "Order not found for the given email and orderId" NoOrder), s)).
Proof.
  intros Hu _. unfold getOrderById. perform_code. rewrite Hu. perform_code.
  split.
  - intros order Ho. rewrite Ho. cbn [option_map].
    now destruct (find_product (Order.productId order) (db s)).
  - intros Hforeign.
    replace (find_order orderId (User.id user) (db s)) with (@None Order.t);
      [reflexivity |].
    symmetry. apply find_none_of. intros o Ho.
    destruct (Order.id o =? orderId) eqn:E1; [| reflexivity].
    destruct (Order.userId o =? User.id user) eqn:E2; [| reflexivity].
    apply Z.eqb_eq in E1, E2. now elim (Hforeign o Ho E1).
Qed.

(** An order whose product has gone: "N/A" here, 500 in the listing; and
    404 for the other user. *)
Lemma getOrderById_outcomes_witness :
  let placed_shop :=
    snd (handle no_failure (placeOrder (order_for "asha@example.com" 3)) shop) in
  let s1 := with_db (with_products [] (db placed_shop)) placed_shop in
  option_map (fun r => (code r, body r))
    (fst (perform exec_order no_failure 0 (getOrderById "asha@example.com" 1) s1))
  = Some (200, OneOrder (OrderView.mk 1 "asha@example.com" "N/A" 3 (Double.of_Z 300) "Pending"
                           "12 Lake Road" "Chennai" "600001" the_first_of_March "FedEx")) /\
  fst (handle no_failure (getallOrdersByEmail "asha@example.com") s1)
  = Responded internal_server_error /\
  option_map code
    (fst (perform exec_order no_failure 0 (getOrderById "ravi@example.com" 1) s1))
  = Some 404.
Proof.
  intros placed_shop s1.
  destruct (getOrderById_outcomes "asha@example.com" 1 s1
              (User.mk 1 "asha@example.com") eq_refl eq_refl) as [Hown _].
  destruct (getOrderById_outcomes "ravi@example.com" 1 s1
              (User.mk 2 "ravi@example.com") eq_refl eq_refl) as [_ Hother].
  split; [| split].
  - rewrite (Hown _ eq_refl). vm_compute. reflexivity.
  - vm_compute. reflexivity.
  - rewrite Hother; [reflexivity |].
    intros o [<- | []] _. simpl. discriminate.
Defined.

Lemma allOrderDetails_none rows :
  allOrderDetails rows = None <->
  exists o u p, In (o, u, p) rows /\ (u = None \/ p = None).
Proof.
  induction rows as [|[[o u] p] rows IH]; simpl.
  - split; [discriminate | intros (o & u & p & [] & _)].
  - destruct u as [u|], p as [p|];
      try (split; [intros _ | reflexivity]; exists o; eexists; eexists;
           split; [left; reflexivity | tauto]).
    destruct (allOrderDetails rows) as [vs|].
    + split; [discriminate |].
      intros (o' & u' & p' & [Heq | Hin] & Hnull).
      * injection Heq as <- <- <-. destruct Hnull; discriminate.
      * assert (Hno : Some vs = None)
          by (apply (proj2 IH); exists o', u', p'; tauto).
        discriminate Hno.
    + split; [| reflexivity]. intros _.
      destruct (proj1 IH eq_refl) as (o' & u' & p' & Hin & Hnull).
      exists o', u', p'. split; [now right | exact Hnull].
Qed.

Lemma allOrderDetails_all d rows :
  (forall r, In r rows ->
     find_user_by_id (Order.userId r) d <> None /\
     find_product (Order.productId r) d <> None) ->
  allOrderDetails
    (map (fun o => (o, find_user_by_id (Order.userId o) d,
                    find_product (Order.productId o) d)) rows)
  = Some (map (view_of d) rows).
Proof.
  induction rows as [|r rows IH]; intros Hall; [reflexivity |].
  cbn [map allOrderDetails]. unfold view_of at 1.
  destruct (Hall r (or_introl eq_refl)) as [Hu Hp].
  destruct (find_user_by_id (Order.userId r) d) as [u|]; [| now elim Hu].
  destruct (find_product (Order.productId r) d) as [p|]; [| now elim Hp].
  rewrite IH; [reflexivity |]. intros r' Hin. apply Hall. now right.
Qed.

Lemma getAllOrders_reads_only rejects s :
  snd (perform exec_order rejects 0 getAllOrders s) = s.
Proof.
  unfold getAllOrders. cbn [guarded call perform].
  destruct (rejects 0%nat); [reflexivity |].
  cbn [exec_order].
  destruct (List.length _ =? 0)%nat; [reflexivity |].
  now destruct (allOrderDetails _).
Qed.

(** X15. getAllOrders answers 404 on an empty Orders table, 500 when some
    order has lost its user or its product (both are read without a
    check), and otherwise 200 with one entry per order of the table, with
    the order's own fields, the e-mail of its owner and the name of its
    product; the query fixes no order of the entries.  The server is
    unchanged whatever rejects. *)
Theorem getAllOrders_outcomes s :
  let joined o := (find_user_by_id (Order.userId o) (db s),
                   find_product (Order.productId o) (db s)) in
  let o := fst (perform exec_order no_failure 0 getAllOrders s) in
  (forall rejects, snd (perform exec_order rejects 0 getAllOrders s) = s) /\
  (orders (db s) = [] -> o = Some (mkReply 404 "No orders found" NoOrder)) /\
  (orders (db s) <> [] ->
     (exists r, In r (orders (db s)) /\
                (fst (joined r) = None \/ snd (joined r) = None)) ->
     o = Some order_internal_error) /\
  (orders (db s) <> [] ->
     (forall r, In r (orders (db s)) ->
                fst (joined r) <> None /\ snd (joined r) <> None) ->
     exists views,
       o = Some (mkReply 200 "All orders retrieved successfully" (AllOrders views)) /\
       Permutation views (map (view_of (db s)) (orders (db s)))).
Proof.
  intros joined o. subst o.
  split; [intros rejects; apply getAllOrders_reads_only |].
  unfold getAllOrders. perform_code.
  set (rows := map (fun o => (o, find_user_by_id (Order.userId o) (db s),
                              find_product (Order.productId o) (db s)))
                   (orders (db s))).
  assert (Hlen : orders (db s) <> [] -> (List.length rows =? 0)%nat = false).
  { intros Hne. subst rows. rewrite length_map.
    destruct (orders (db s)); [contradiction | reflexivity]. }
  split; [| split].
  - intros Hnil. subst rows. rewrite Hnil. reflexivity.
  - intros Hne (r & Hin & Hnull). rewrite (Hlen Hne).
    replace (allOrderDetails rows) with (@None (list OrderView.t)); [reflexivity |].
    symmetry. apply allOrderDetails_none.
    exists r, (fst (joined r)), (snd (joined r)). split; [| exact Hnull].
    subst rows. apply in_map_iff. now exists r.
  - intros Hne Hall. rewrite (Hlen Hne).
    subst rows. rewrite (allOrderDetails_all (db s) (orders (db s)) Hall).
    eexists. split; [reflexivity | apply Permutation_refl].
Qed.

Lemma getAllOrders_outcomes_witness :
  let s1 := snd (serve [(PlaceOrder (order_for "asha@example.com" 3), no_failure);
                        (PlaceOrder (order_for "ravi@example.com" 1), no_failure)] shop) in
  fst (perform exec_order no_failure 0 getAllOrders shop)
    = Some (mkReply 404 "No orders found" NoOrder) /\
  exists views,
    fst (perform exec_order no_failure 0 getAllOrders s1)
      = Some (mkReply 200 "All orders retrieved successfully" (AllOrders views)) /\
    Permutation views
      [OrderView.mk 1 "asha@example.com" "Lamp" 3 (Double.of_Z 300) "Pending"
         "12 Lake Road" "Chennai" "600001" the_first_of_March "FedEx";
       OrderView.mk 2 "ravi@example.com" "Lamp" 1 (Double.of_Z 100) "Pending"
         "12 Lake Road" "Chennai" "600001" the_first_of_March "FedEx"].
Proof.
  intros s1.
  destruct (getAllOrders_outcomes shop) as (_ & Hempty & _).
  destruct (getAllOrders_outcomes s1) as (_ & _ & _ & Hall).
  split; [exact (Hempty eq_refl) |].
  destruct Hall as (views & Hres & Hperm).
  - discriminate.
  - intros r [<- | [<- | []]]; split; discriminate.
  - exists views. split; [exact Hres |].
    vm_compute in Hperm. vm_compute. exact Hperm.
Defined.

(** ** Who reaches the listing of all orders *)

Section AuthFacts.

Variable JWT_verify : string -> option Claims.t.

Lemma bearer_not_empty h : String.prefix "Bearer " h = true -> falsy_str h = false.
Proof. destruct h; [discriminate | reflexivity]. Qed.

Lemma authenticate_next authHeader user :
  authenticate JWT_verify authHeader = Next user <->
  exists h, authHeader = Some h /\
            String.prefix "Bearer " h = true /\
            JWT_verify (nth 1 (split_on space h) EmptyString) = Some user.
Proof.
  unfold authenticate. split.
  - destruct authHeader as [h|]; [| discriminate].
    destruct (String.prefix "Bearer " h) eqn:Hp.
    + rewrite (bearer_not_empty h Hp). cbn [orb negb].
      destruct (JWT_verify _) as [u|] eqn:Hv; [| discriminate].
      intros [= ->]. now exists h.
    + rewrite orb_true_r. discriminate.
  - intros (h & -> & Hp & Hv).
    rewrite Hp, (bearer_not_empty h Hp). cbn [orb negb]. now rewrite Hv.
Qed.

(** X16. The route of getAllOrders lets a request through to the handler
    exactly when its Authorization header starts with "Bearer ", the text
    between the first and the second space verifies as a token, and the
    role in the token is "admin".  Every other request is answered 401 or
    403 by a middleware.  In no case does the route change the server. *)
Theorem getallOrders_route_admin_only authHeader rejects s :
  let answer := fst (route_getallOrders JWT_verify authHeader rejects s) in
  snd (route_getallOrders JWT_verify authHeader rejects s) = s /\
  ((exists o, answer = inr o) <->
   (exists h user,
      authHeader = Some h /\
      String.prefix "Bearer " h = true /\
      JWT_verify (nth 1 (split_on space h) EmptyString) = Some user /\
      Claims.role user = "admin")) /\
  (forall r, answer = inl r -> code r = 401 \/ code r = 403).
Proof.
  unfold route_getallOrders.
  destruct (authenticate JWT_verify authHeader) as [r0 | user] eqn:Ha.
  - cbn [fst snd]. split; [reflexivity |]. split.
    + split; [intros [o Ho]; discriminate Ho |].
      intros (h & user & Hh & Hp & Hv & _).
      assert (Hn : authenticate JWT_verify authHeader = Next user)
        by (apply authenticate_next; now exists h).
      rewrite Hn in Ha. discriminate Ha.
    + intros r [= <-]. unfold authenticate in Ha.
      destruct authHeader as [h|]; [| injection Ha as <-; now right].
      destruct (falsy_str h || negb (String.prefix "Bearer " h));
        [injection Ha as <-; now right |].
      destruct (JWT_verify _); [discriminate | injection Ha as <-; now left].
  - apply authenticate_next in Ha. destruct Ha as (h & Hh & Hp & Hv).
    unfold authorizeRole.
    destruct (String.eqb (Claims.role user) "admin") eqn:Hr; cbn [negb].
    + pose proof (getAllOrders_reads_only rejects s) as Hs.
      destruct (perform exec_order rejects 0 getAllOrders s) as [o s'].
      cbn [fst snd] in *. split; [exact Hs |]. split.
      * split; [| intros _; now exists o].
        intros _. exists h, user. apply String.eqb_eq in Hr. tauto.
      * intros r Hr'. discriminate Hr'.
    + cbn [fst snd]. split; [reflexivity |]. split.
      * split; [intros [o Ho]; discriminate Ho |].
        intros (h' & user' & Hh' & _ & Hv' & Hrole).
        rewrite Hh in Hh'. injection Hh' as <-.
        rewrite Hv in Hv'. injection Hv' as <-.
        apply String.eqb_neq in Hr. contradiction.
      * intros r [= <-]. now right.
Qed.

Lemma split_on_nonempty sep s : split_on sep s <> [].
Proof.
  destruct s as [|c s]; simpl; [discriminate |].
  destruct (Ascii.eqb c sep); [discriminate |].
  destruct (split_on sep s); discriminate.
Qed.

Lemma split_on_first sep token rest :
  contains sep token = false ->
  hd EmptyString (split_on sep (String.append token (String sep rest))) = token /\
  hd EmptyString (split_on sep token) = token.
Proof.
  induction token as [|c token IH]; simpl; intros Hc.
  - now rewrite Ascii.eqb_refl.
  - apply orb_false_iff in Hc. destruct Hc as [Hc1 Hc2].
    rewrite Hc1. destruct (IH Hc2) as [IH1 IH2].
    split.
    + destruct (split_on sep (String.append token (String sep rest))) eqn:E.
      * now elim (split_on_nonempty _ _ E).
      * simpl in *. now rewrite IH1.
    + destruct (split_on sep token) eqn:E.
      * now elim (split_on_nonempty _ _ E).
      * simpl in *. now rewrite IH2.
Qed.

Lemma split_on_bearer rest :
  split_on space (String.append "Bearer " rest) = "Bearer" :: split_on space rest.
Proof. reflexivity. Qed.

Lemma append_nothing s : String.append s EmptyString = s.
Proof. induction s as [|c s IH]; simpl; [reflexivity | now rewrite IH]. Qed.

Lemma authenticate_bearer token trailing :
  contains space token = false ->
  (trailing = EmptyString \/ exists rest, trailing = String space rest) ->
  authenticate JWT_verify
    (Some (String.append "Bearer " (String.append token trailing)))
  = match JWT_verify token with
    | Some decoded => Next decoded
    | None => Stop (mkReply 401 "Invalid token" tt)
    end.
Proof.
  intros Htoken Htrailing.
  assert (Hfield : nth 1 (split_on space
                            (String.append "Bearer " (String.append token trailing)))
                       EmptyString = token).
  { rewrite split_on_bearer. cbn [nth].
    destruct (split_on_first space token
                match trailing with String _ rest => rest | EmptyString => EmptyString end
                Htoken) as [H1 H2].
    destruct Htrailing as [-> | [rest ->]].
    - rewrite append_nothing.
      destruct (split_on space token) eqn:E; [now elim (split_on_nonempty _ _ E) |].
      exact H2.
    - destruct (split_on space (String.append token (String space rest))) eqn:E;
        [now elim (split_on_nonempty _ _ E) |].
      exact H1. }
  assert (Hpass : forall rest,
            falsy_str (String.append "Bearer " rest)
            || negb (String.prefix "Bearer " (String.append "Bearer " rest)) = false).
  { intros rest. simpl. destruct rest; reflexivity. }
  unfold authenticate. rewrite Hfield, Hpass. reflexivity.
Qed.

(** X17. authenticate verifies the text that follows "Bearer " up to the
    next space and ignores whatever comes after that space: for a header
    "Bearer <token>" or "Bearer <token> <anything>" with a token free of
    spaces, it hands over with the payload of that token when it verifies
    and answers 401 "Invalid token" when it does not. *)
Theorem authenticate_reads_the_token token trailing :
  contains space token = false ->
  (trailing = EmptyString \/ exists rest, trailing = String space rest) ->
  authenticate JWT_verify
    (Some (String.append "Bearer " (String.append token trailing)))
  = match JWT_verify token with
    | Some decoded => Next decoded
    | None => Stop (mkReply 401 "Invalid token" tt)
    end.
Proof. exact (authenticate_bearer token trailing). Qed.

End AuthFacts.

Lemma authenticate_reads_the_token_witness :
  let verify := (fun t => if String.eqb t "abc"
                          then Some (Claims.mk 9 "root@example.com" "admin")
                          else None) in
  authenticate verify (Some "Bearer abc trailing words")
    = Next (Claims.mk 9 "root@example.com" "admin") /\
  authenticate verify (Some "Bearer abd") = Stop (mkReply 401 "Invalid token" tt).
Proof.
  intros verify. split.
  - apply (authenticate_reads_the_token verify "abc" " trailing words").
    + reflexivity.
    + right. now exists "trailing words".
  - apply (authenticate_reads_the_token verify "abd" "").
    + reflexivity.
    + now left.
Defined.

(** ** Category codes *)

Lemma digit_is_plain c :
  is_digit c = true ->
  is_space c = false /\
  (Ascii.nat_of_ascii c =? 45)%nat = false /\
  (Ascii.nat_of_ascii c =? 43)%nat = false.
Proof.
  unfold is_digit, is_space. intros H.
  apply andb_true_iff in H. destruct H as [H1 H2].
  apply Nat.leb_le in H1, H2.
  repeat split.
  - apply orb_false_iff. split.
    + apply andb_false_iff. right. apply Nat.leb_gt. lia.
    + apply Nat.eqb_neq. lia.
  - apply Nat.eqb_neq. lia.
  - apply Nat.eqb_neq. lia.
Qed.

Lemma parseInt_digits c rest :
  is_digit c = true -> parseInt (String c rest) = digits_value (String c rest).
Proof.
  intros H. destruct (digit_is_plain c H) as (Hs & Hm & Hp).
  unfold parseInt. cbn [skip_spaces]. now rewrite Hs, Hm, Hp.
Qed.

Lemma string_of_uint_digits d :
  leading_digits (NilEmpty.string_of_uint d) = NilEmpty.string_of_uint d.
Proof.
  induction d; simpl; try reflexivity; now rewrite IHd.
Qed.

Lemma zeros_digits k s :
  leading_digits s = s ->
  leading_digits (String.append (replicate k zero) s) = String.append (replicate k zero) s.
Proof.
  intros H. induction k as [|k IH]; simpl; [exact H | now rewrite IH].
Qed.

Lemma zeros_value k s d :
  NilEmpty.uint_of_string s = Some d ->
  option_map Z.of_uint (NilEmpty.uint_of_string (String.append (replicate k zero) s))
  = Some (Z.of_uint d).
Proof.
  intros H. induction k as [|k IH]; simpl.
  - now rewrite H.
  - destruct (NilEmpty.uint_of_string (String.append (replicate k zero) s)) as [d'|];
      [| discriminate].
    simpl in *. exact IH.
Qed.

Lemma padded_value k d :
  d <> Decimal.Nil ->
  parseInt (String.append (replicate k zero) (NilEmpty.string_of_uint d))
  = Some (nearest_double (Z.of_uint d)).
Proof.
  intros Hd.
  set (s := String.append (replicate k zero) (NilEmpty.string_of_uint d)).
  assert (Hdigits : leading_digits s = s)
    by (apply zeros_digits, string_of_uint_digits).
  assert (Hvalue : option_map Z.of_uint (NilEmpty.uint_of_string s) = Some (Z.of_uint d))
    by (apply zeros_value, NilEmpty.usu).
  assert (Hfirst : exists c rest, s = String c rest /\ is_digit c = true).
  { subst s. destruct k as [|k]; simpl.
    - destruct d; try (now elim Hd); simpl; eexists; eexists; split; reflexivity.
    - eexists; eexists; split; reflexivity. }
  destruct Hfirst as (c & rest & Hs & Hc).
  rewrite Hs, (parseInt_digits c rest Hc), <- Hs.
  unfold digits_value. rewrite Hdigits. rewrite Hs at 1. rewrite <- Hs.
  destruct (NilEmpty.uint_of_string s) as [d'|]; [| discriminate Hvalue].
  cbn [option_map] in *. injection Hvalue as ->. reflexivity.
Qed.

Lemma nearest_double_exact z : Z.abs z <= 2 ^ 53 -> nearest_double z = z.
Proof.
  intros H. unfold nearest_double. apply Z.leb_le in H. now rewrite H.
Qed.

Lemma parseInt_padded n :
  0 <= n -> parseInt (padStart 3 zero (Number_toString n)) = Some (nearest_double n).
Proof.
  intros Hn. unfold padStart, Number_toString.
  destruct n as [|p|p]; [| | lia].
  - reflexivity.
  - simpl Z.to_int. unfold NilZero.string_of_int.
    pose proof (DecimalPos.Unsigned.to_uint_nonnil p) as Hnil.
    assert (Hsame : NilZero.string_of_uint (Pos.to_uint p)
                    = NilEmpty.string_of_uint (Pos.to_uint p))
      by (destruct (Pos.to_uint p); [now elim Hnil | reflexivity ..]).
    rewrite Hsame, (padded_value _ _ Hnil).
    unfold Z.of_uint. now rewrite DecimalPos.Unsigned.of_to.
Qed.

Lemma parseInt_category_code k :
  0 <= k <= 2 ^ 53 -> parseInt (slice1 (category_code k)) = Some k.
Proof.
  intros Hk. unfold category_code. cbn [String.append slice1].
  rewrite parseInt_padded by lia. now rewrite nearest_double_exact by lia.
Qed.

Lemma category_code_injective m n :
  0 <= m <= 2 ^ 53 -> 0 <= n <= 2 ^ 53 -> category_code m = category_code n -> m = n.
Proof.
  intros Hm Hn Heq. apply (f_equal (fun s => parseInt (slice1 s))) in Heq.
  rewrite (parseInt_category_code m Hm), (parseInt_category_code n Hn) in Heq.
  now injection Heq.
Qed.

Lemma newCategoryId_after last n :
  0 <= n < 2 ^ 53 -> Category.categoryId last = category_code n ->
  newCategoryId (Some last) = category_code (n + 1).
Proof.
  intros Hn Hlast. unfold newCategoryId.
  rewrite Hlast, parseInt_category_code by lia.
  unfold plus_one, toString. cbn [option_map].
  rewrite nearest_double_exact by lia.
  assert (H : (Z.abs (n + 1) <=? 2 ^ 53) = true) by (apply Z.leb_le; lia).
  now rewrite H.
Qed.

(** X18. Category codes read back, as long as the numbers are integers
    that doubles hold exactly.  For every n from 0 up to 2^53 the code "C"
    followed by n in at least three digits (C007, C042, C1000) gives n
    again under [parseInt(code.slice(1), 10)], and different such numbers
    have different codes; for n below 2^53 the code created after a
    category coded n is the code of n + 1, also past C999.  At 2^53 this
    ends: the code created after C9007199254740992 is that same code. *)
Theorem category_code_round_trip n :
  0 <= n <= 2 ^ 53 ->
  parseInt (slice1 (category_code n)) = Some n /\
  (forall last, n < 2 ^ 53 -> Category.categoryId last = category_code n ->
                newCategoryId (Some last) = category_code (n + 1)) /\
  (forall m, 0 <= m <= 2 ^ 53 -> category_code m = category_code n -> m = n) /\
  newCategoryId (Some (Category.mk 1 (category_code (2 ^ 53)) "" ""))
    = category_code (2 ^ 53).
Proof.
  intros Hn.
  split; [now apply parseInt_category_code |]. split; [| split].
  - intros last Hlt Hlast. apply newCategoryId_after; [lia | exact Hlast].
  - intros m Hm Heq. now apply category_code_injective.
  - vm_compute. reflexivity.
Qed.

Lemma category_code_round_trip_witness :
  parseInt (slice1 (category_code 999)) = Some 999 /\
  newCategoryId (Some (Category.mk 12 "C999" "Lamps" "")) = "C1000" /\
  newCategoryId (Some (Category.mk 13 "C1000" "Desks" "")) = "C1001".
Proof.
  destruct (category_code_round_trip 999 ltac:(lia)) as (H1 & H2 & _).
  destruct (category_code_round_trip 1000 ltac:(lia)) as (_ & H3 & _).
  split; [exact H1 |].
  split; [exact (H2 (Category.mk 12 "C999" "Lamps" "") ltac:(lia) eq_refl) |].
  exact (H3 (Category.mk 13 "C1000" "Desks" "") ltac:(lia) eq_refl).
Defined.

(** Past the exact integers the codes are those of doubles: after
    C1000000000000000000000 comes "C1e+21". *)
Example newCategoryId_of_a_large_double :
  newCategoryId (Some (Category.mk 1 "C1000000000000000000000" "" "")) = "C1e+21".
Proof. vm_compute. reflexivity. Qed.

(** ** Categories in sequence *)

Lemma sorted_snoc {A : Type} (R : A -> A -> Prop) (l : list A) (y : A) :
  StronglySorted R l -> Forall (fun x => R x y) l -> StronglySorted R (l ++ [y]).
Proof.
  induction 1 as [|a l Hl IH Ha]; intros Hy; simpl.
  - repeat constructor.
  - inversion Hy as [|? ? Hay Hly]; subst.
    constructor; [now apply IH |].
    apply Forall_app. split; [exact Ha | now constructor].
Qed.

Lemma sorted_snoc_inv {A : Type} (R : A -> A -> Prop) (l : list A) (y : A) :
  StronglySorted R (l ++ [y]) -> StronglySorted R l /\ Forall (fun x => R x y) l.
Proof.
  induction l as [|a l IH]; simpl; intros H.
  - split; constructor.
  - inversion H as [|? ? Hl Ha]; subst.
    destruct (IH Hl) as [Hs Hy]. apply Forall_app in Ha. destruct Ha as [Ha Hay].
    split; constructor; auto. now inversion Hay.
Qed.

Lemma sorted_filter {A : Type} (R : A -> A -> Prop) (f : A -> bool) (l : list A) :
  StronglySorted R l -> StronglySorted R (filter f l).
Proof.
  induction 1 as [|a l Hl IH Ha]; simpl; [constructor |].
  destruct (f a); [| exact IH].
  constructor; [exact IH |].
  apply Forall_forall. intros x Hx. apply filter_In in Hx.
  rewrite Forall_forall in Ha. now apply Ha.
Qed.

Lemma sorted_map {A : Type} (R : A -> A -> Prop) (g : A -> A) (l : list A) :
  (forall a b, R a b -> R (g a) (g b)) ->
  StronglySorted R l -> StronglySorted R (map g l).
Proof.
  intros Hg. induction 1 as [|a l Hl IH Ha]; simpl; constructor; [exact IH |].
  apply Forall_forall. intros x Hx. apply in_map_iff in Hx.
  destruct Hx as (b & <- & Hb). rewrite Forall_forall in Ha. auto.
Qed.

Lemma coded_unique c m n : coded c m -> coded c n -> m = n.
Proof.
  intros [Hm Em] [Hn En]. apply category_code_injective; try lia. congruence.
Qed.

Lemma last_by_id_snoc cs c :
  last_by_id (cs ++ [c]) =
  match last_by_id cs with
  | Some b => if Category.id b <? Category.id c then Some c else Some b
  | None => Some c
  end.
Proof. unfold last_by_id. now rewrite fold_left_app. Qed.

Lemma last_by_id_in cs : forall b, last_by_id cs = Some b -> In b cs.
Proof.
  induction cs as [|c cs IH] using rev_ind; intros b H; [discriminate |].
  rewrite last_by_id_snoc in H. apply in_or_app.
  destruct (last_by_id cs) as [b0|].
  - destruct (Category.id b0 <? Category.id c).
    + injection H as <-. right. now left.
    + injection H as <-. left. now apply IH.
  - injection H as <-. right. now left.
Qed.

Lemma last_by_id_sorted cs c :
  StronglySorted earlier (cs ++ [c]) -> last_by_id (cs ++ [c]) = Some c.
Proof.
  intros H. apply sorted_snoc_inv in H. destruct H as [_ Hall].
  rewrite last_by_id_snoc.
  destruct (last_by_id cs) as [b|] eqn:E; [| reflexivity].
  apply last_by_id_in in E. rewrite Forall_forall in Hall.
  destruct (Hall b E) as [Hid _].
  apply Z.ltb_lt in Hid. now rewrite Hid.
Qed.

Lemma codes_below_more b b' s : b <= b' -> codes_below b s -> codes_below b' s.
Proof.
  intros Hle H. unfold codes_below in *. rewrite Forall_forall in *.
  intros c Hc. destruct (H c Hc) as (n & Hn & Hlt). exists n. split; [exact Hn | lia].
Qed.

(** In an ordered catalogue whose code numbers are below a bound of exact
    integers, the next code is that of a number above every number in use
    and not above the bound. *)
Lemma fresh_code s bound :
  catalogue_in_order s ->
  codes_below bound s ->
  1 <= bound <= 2 ^ 53 ->
  exists k,
    0 < k <= bound /\
    newCategoryId (last_by_id (categories s)) = category_code k /\
    (categories s = [] -> k = 1) /\
    (forall cs last n, categories s = cs ++ [last] -> coded last n -> k = n + 1) /\
    Forall (fun x => exists m, coded x m /\ m < k) (categories s).
Proof.
  intros (Hsorted & Hcoded & _) Hbelow Hbound.
  destruct (categories s) as [|c0 cs0] eqn:Ecs.
  - exists 1. repeat split; try lia; try constructor.
    intros cs last n Habs. now destruct cs.
  - destruct (@exists_last _ (c0 :: cs0)) as (cs & last & Elast); [discriminate |].
    unfold codes_below in Hbelow. rewrite Ecs in Hbelow.
    rewrite Elast in *. clear Elast c0 cs0.
    rewrite (last_by_id_sorted _ _ Hsorted).
    apply Forall_app in Hbelow. destruct Hbelow as [_ Hlast].
    inversion Hlast as [|? ? (n & Hn & Hlt) _]; subst.
    exists (n + 1). destruct Hn as [Hpos Hcode].
    split; [lia |]. split; [apply newCategoryId_after; [lia | exact Hcode] |].
    split; [intros Habs; now destruct cs |].
    split.
    + intros cs' last' n' Heq Hn'. apply app_inj_tail in Heq. destruct Heq as [_ <-].
      f_equal. apply (coded_unique last); [now split | exact Hn'].
    + apply sorted_snoc_inv in Hsorted. destruct Hsorted as [_ Hall].
      apply Forall_app. split.
      * rewrite Forall_forall in *. intros x Hx.
        destruct (Hall x Hx) as (_ & m & n' & Hm & Hn' & Hlt').
        exists m. split; [exact Hm |].
        rewrite (coded_unique last n n' (conj Hpos Hcode) Hn'). lia.
      * constructor; [| constructor]. exists n. split; [now split | lia].
Qed.

Lemma fresh_code_unused s k :
  Forall (fun x => exists m, coded x m /\ m < k) (categories s) ->
  0 < k <= 2 ^ 53 ->
  find (fun c => String.eqb (Category.categoryId c) (category_code k)) (categories s)
  = None.
Proof.
  intros Hall Hk. apply find_none_of. intros x Hx.
  rewrite Forall_forall in Hall. destruct (Hall x Hx) as (m & [Hm Hcode] & Hlt).
  apply String.eqb_neq. rewrite Hcode. intros Heq.
  apply category_code_injective in Heq; lia.
Qed.

Lemma created_in_order s k name description :
  catalogue_in_order s ->
  0 < k <= 2 ^ 53 ->
  Forall (fun x => exists m, coded x m /\ m < k) (categories s) ->
  catalogue_in_order
    (snd (exec_category _ (Category_create (category_code k) name description) s)).
Proof.
  intros (Hsorted & Hcoded & Hids) Hk Hall. unfold catalogue_in_order. cbn.
  split; [| split].
  - apply sorted_snoc; [exact Hsorted |].
    rewrite Forall_forall in *. intros x Hx.
    destruct (Hall x Hx) as (m & Hm & Hlt).
    split; [cbn; now apply Hids |].
    exists m, k. split; [exact Hm | split; [now split | exact Hlt]].
  - apply Forall_app. split; [exact Hcoded |].
    constructor; [| constructor]. exists k. now split.
  - apply Forall_app. split.
    + rewrite Forall_forall in *. intros x Hx. specialize (Hids x Hx). lia.
    + constructor; [cbn; lia | constructor].
Qed.

Lemma created_below s bound k name description :
  codes_below bound s ->
  0 < k <= bound -> bound <= 2 ^ 53 ->
  codes_below (bound + 1)
    (snd (exec_category _ (Category_create (category_code k) name description) s)).
Proof.
  intros Hbelow Hk Hbound. unfold codes_below in *. cbn.
  apply Forall_app. split.
  - rewrite Forall_forall in *. intros c Hc.
    destruct (Hbelow c Hc) as (n & Hn & Hlt). exists n. split; [exact Hn | lia].
  - constructor; [| constructor]. exists k. split; [| lia].
    split; [lia | reflexivity].
Qed.

Lemma updated_in_order s name description id :
  catalogue_in_order s ->
  catalogue_in_order (snd (exec_category _ (Category_update name description id) s)).
Proof.
  intros (Hsorted & Hcoded & Hids). unfold catalogue_in_order. cbn.
  set (g := fun c => if Category.id c =? id
                     then Category.mk (Category.id c) (Category.categoryId c)
                            name description
                     else c).
  assert (Hid : forall c, Category.id (g c) = Category.id c)
    by (intros c; unfold g; now destruct (Category.id c =? id)).
  assert (Hcode : forall c, Category.categoryId (g c) = Category.categoryId c)
    by (intros c; unfold g; now destruct (Category.id c =? id)).
  split; [| split].
  - apply sorted_map; [| exact Hsorted].
    intros a b (Hlt & m & n & [Hm Ha] & [Hn Hb] & Hmn).
    split; [now rewrite !Hid |].
    exists m, n. unfold coded. rewrite !Hcode. tauto.
  - apply Forall_forall. intros x Hx. apply in_map_iff in Hx.
    destruct Hx as (c & <- & Hc). rewrite Forall_forall in Hcoded.
    destruct (Hcoded c Hc) as [n Hn]. exists n. unfold coded in *. now rewrite Hcode.
  - apply Forall_forall. intros x Hx. apply in_map_iff in Hx.
    destruct Hx as (c & <- & Hc). rewrite Forall_forall in Hids.
    rewrite Hid. now apply Hids.
Qed.

Lemma updated_below s bound name description id :
  codes_below bound s ->
  codes_below bound (snd (exec_category _ (Category_update name description id) s)).
Proof.
  intros Hbelow. unfold codes_below in *. cbn.
  apply Forall_forall. intros x Hx. apply in_map_iff in Hx.
  destruct Hx as (c & <- & Hc). rewrite Forall_forall in Hbelow.
  destruct (Hbelow c Hc) as (n & Hn & Hlt). exists n. split; [| exact Hlt].
  unfold coded in *. now destruct (Category.id c =? id).
Qed.

Lemma destroyed_in_order s id :
  catalogue_in_order s ->
  catalogue_in_order (snd (exec_category _ (Category_destroy id) s)).
Proof.
  intros (Hsorted & Hcoded & Hids). unfold catalogue_in_order. cbn.
  split; [| split].
  - now apply sorted_filter.
  - apply Forall_forall. intros x Hx. apply filter_In in Hx.
    rewrite Forall_forall in Hcoded. now apply Hcoded.
  - apply Forall_forall. intros x Hx. apply filter_In in Hx.
    rewrite Forall_forall in Hids. now apply Hids.
Qed.

Lemma destroyed_below s bound id :
  codes_below bound s ->
  codes_below bound (snd (exec_category _ (Category_destroy id) s)).
Proof.
  intros Hbelow. unfold codes_below in *. cbn.
  apply Forall_forall. intros x Hx. apply filter_In in Hx.
  rewrite Forall_forall in Hbelow. now apply Hbelow.
Qed.

Ltac perform_category :=
  cbn [guarded call perform exec_category fst snd].

(** One request keeps the catalogue ordered, raises the code numbers by
    one at most, and is never answered "Category already existed". *)
Lemma category_request_in_order r rejects s bound :
  1 <= bound <= 2 ^ 53 ->
  ordered_below bound s ->
  ordered_below (bound + 1) (snd (perform exec_category rejects 0 (category_handler r) s)) /\
  fst (perform exec_category rejects 0 (category_handler r) s) <> Some already_existed.
Proof.
  intros Hbound [Hs Hb].
  assert (Hsame : ordered_below (bound + 1) s)
    by (split; [exact Hs | apply (codes_below_more bound); [lia | exact Hb]]).
  destruct r as [errors name description | errors id name description | | id | id];
    cbn [category_handler].
  - unfold createCategory.
    destruct (negb (List.length errors =? 0)%nat); [split; [exact Hsame | discriminate] |].
    perform_category.
    destruct (rejects 0%nat); [split; [exact Hsame | discriminate] |].
    perform_category.
    destruct (rejects 1%nat); [split; [exact Hsame | discriminate] |].
    destruct (fresh_code s bound Hs Hb Hbound) as (k & Hk & Hnew & _ & _ & Hall).
    rewrite Hnew, (fresh_code_unused s k Hall ltac:(lia)).
    perform_category.
    destruct (rejects 2%nat); [split; [exact Hsame | discriminate] |].
    split; [| discriminate]. split.
    + exact (created_in_order s k name description Hs ltac:(lia) Hall).
    + apply created_below; [exact Hb | exact Hk | lia].
  - unfold updateCategory.
    destruct (negb (List.length errors =? 0)%nat); [split; [exact Hsame | discriminate] |].
    destruct (falsy_str name || falsy_str description);
      [split; [exact Hsame | discriminate] |].
    destruct (parseInt id) as [cid|]; [| split; [exact Hsame | discriminate]].
    perform_category.
    destruct (rejects 0%nat); [split; [exact Hsame | discriminate] |].
    destruct (find _ (categories s)); [| split; [exact Hsame | discriminate]].
    perform_category.
    destruct (rejects 1%nat); [split; [exact Hsame | discriminate] |].
    assert (Hs' : ordered_below (bound + 1)
                    (snd (exec_category _ (Category_update name description cid) s))).
    { split; [now apply updated_in_order |].
      apply (codes_below_more bound); [lia | now apply updated_below]. }
    cbn [exec_category snd] in Hs'.
    perform_category.
    destruct (rejects 2%nat); [split; [exact Hs' | discriminate] |].
    perform_category.
    destruct (find _ _); split; try exact Hs'; discriminate.
  - unfold getAllCategories. perform_category.
    destruct (rejects 0%nat); [split; [exact Hsame | discriminate] |].
    destruct (List.length _ =? 0)%nat; split; try exact Hsame; discriminate.
  - unfold getCategoryById. perform_category.
    destruct (rejects 0%nat); [split; [exact Hsame | discriminate] |].
    destruct (find _ _); split; try exact Hsame; discriminate.
  - unfold deleteCategoryById. perform_category.
    destruct (rejects 0%nat); [split; [exact Hsame | discriminate] |].
    destruct (find _ _); [| split; [exact Hsame | discriminate]].
    perform_category.
    destruct (rejects 1%nat); [split; [exact Hsame | discriminate] |].
    split; [| discriminate]. split.
    + exact (destroyed_in_order s id Hs).
    + apply (codes_below_more bound); [lia | now apply destroyed_below].
Qed.

Lemma in_order_distinct_codes s :
  catalogue_in_order s -> NoDup (map Category.categoryId (categories s)).
Proof.
  intros (Hsorted & _ & _).
  induction Hsorted as [|a l Hl IH Ha]; simpl; constructor; [| exact IH].
  intros Hin. apply in_map_iff in Hin. destruct Hin as (b & Heq & Hb).
  rewrite Forall_forall in Ha.
  destruct (Ha b Hb) as (_ & m & n & [Hm Ea] & [Hn Eb] & Hlt).
  assert (m = n) by (apply category_code_injective; try lia; congruence).
  lia.
Qed.

Lemma serve_categories_in_order rs : forall s bound,
  ordered_below bound s ->
  1 <= bound ->
  bound + Z.of_nat (List.length rs) <= 2 ^ 53 + 1 ->
  ordered_below (bound + Z.of_nat (List.length rs)) (snd (serve_categories rs s)) /\
  ~ In (Some already_existed) (fst (serve_categories rs s)).
Proof.
  induction rs as [|[r rejects] rest IH]; intros s bound Hs H1 Hbound.
  - cbn [serve_categories List.length fst snd]. rewrite Z.add_0_r.
    split; [exact Hs | intros []].
  - cbn [serve_categories]. cbn [List.length] in *.
    rewrite Nat2Z.inj_succ in *.
    destruct (category_request_in_order r rejects s bound ltac:(lia) Hs) as [Hs1 Hr1].
    destruct (perform exec_category rejects 0 (category_handler r) s) as [o s1].
    cbn [fst snd] in Hs1, Hr1.
    destruct (IH s1 (bound + 1) Hs1 ltac:(lia) ltac:(lia)) as [Hs2 Hr2].
    destruct (serve_categories rest s1) as [os s2]. cbn [fst snd] in *.
    split.
    + replace (bound + Z.succ (Z.of_nat (List.length rest)))
        with (bound + 1 + Z.of_nat (List.length rest)) by lia.
      exact Hs2.
    + intros [Heq | Hin]; [now apply Hr1 | now apply Hr2].
Qed.

(** X19. Served one after the other, category requests keep the codes in
    order, as long as the code numbers stay among the integers that
    doubles hold exactly.  From a catalogue in which ids and code numbers
    grow together and the code numbers are below a bound (the empty one
    and 1 to begin with), after any sequence of creations, updates,
    deletions and listings, whatever fails, that with the bound stays
    within 2^53 + 1: the catalogue is again so with the bound raised by
    the number of requests, no two categories share a code, and no
    creation was refused with "Category already existed". *)
Theorem serve_categories_keeps_codes_distinct rs : forall s bound,
  catalogue_in_order s ->
  codes_below bound s ->
  1 <= bound ->
  bound + Z.of_nat (List.length rs) <= 2 ^ 53 + 1 ->
  catalogue_in_order (snd (serve_categories rs s)) /\
  codes_below (bound + Z.of_nat (List.length rs)) (snd (serve_categories rs s)) /\
  NoDup (map Category.categoryId (categories (snd (serve_categories rs s)))) /\
  ~ In (Some already_existed) (fst (serve_categories rs s)).
Proof.
  intros s bound Hs Hb H1 Hbound.
  destruct (serve_categories_in_order rs s bound (conj Hs Hb) H1 Hbound)
    as [[Hs' Hb'] Hr].
  split; [exact Hs' |]. split; [exact Hb' |].
  split; [now apply in_order_distinct_codes | exact Hr].
Qed.

Lemma empty_catalogue_in_order : catalogue_in_order empty_catalogue.
Proof. unfold catalogue_in_order. simpl. repeat split; constructor. Qed.

Lemma empty_catalogue_below bound : codes_below bound empty_catalogue.
Proof. constructor. Qed.

Lemma serve_categories_keeps_codes_distinct_witness :
  let rs := [(CreateCategory [] "Lamps" "", no_failure);
             (CreateCategory [] "Chairs" "", no_failure);
             (CreateCategory [] "Desks" "", no_failure);
             (DeleteCategory 2, no_failure);
             (DeleteCategory 3, no_failure);
             (CreateCategory [] "Shelves" "", no_failure)] in
  map Category.categoryId (categories (snd (serve_categories rs empty_catalogue)))
    = ["C001"; "C002"] /\
  NoDup (map Category.categoryId (categories (snd (serve_categories rs empty_catalogue)))).
Proof.
  intros rs. split; [reflexivity |].
  apply (serve_categories_keeps_codes_distinct rs empty_catalogue 1
           empty_catalogue_in_order (empty_catalogue_below 1)).
  - lia.
  - vm_compute. discriminate.
Defined.

(** X20. In an ordered catalogue whose code numbers are below 2^53, a
    creation without validation errors, with a name and a description of
    at most 255 characters, an id left in the sequence and the store
    answering, is answered 201: the new category is appended with the next
    id of the sequence and with code "C001" when the table is empty, and
    otherwise with the code of one more than the number of the newest
    category, a code no category has. *)
Theorem createCategory_next_code name description s :
  catalogue_in_order s ->
  codes_below (2 ^ 53) s ->
  STRING name = true ->
  STRING description = true ->
  INTEGER (categorySeq s) = true ->
  exists k,
    let new := Category.mk (categorySeq s) (category_code k) name description in
    perform exec_category no_failure 0 (createCategory [] name description) s =
      (Some (mkReply 201 "Category created successfully" (OneCategory new)),
       mkCatalogue (categories s ++ [new]) (categorySeq s + 1)) /\
    (categories s = [] -> k = 1) /\
    (forall cs last n, categories s = cs ++ [last] -> coded last n -> k = n + 1) /\
    ~ In (category_code k) (map Category.categoryId (categories s)).
Proof.
  intros Hs Hb _ _ _.
  assert (Hbound : 1 <= 2 ^ 53 <= 2 ^ 53) by (split; [discriminate | apply Z.le_refl]).
  destruct (fresh_code s (2 ^ 53) Hs Hb Hbound) as (k & Hk & Hnew & Hempty & Hlast & Hall).
  exists k. cbv zeta. split; [| split; [exact Hempty | split; [exact Hlast |]]].
  - unfold createCategory. cbn [List.length Nat.eqb negb].
    perform_category. cbn [no_failure].
    rewrite Hnew, (fresh_code_unused s k Hall Hk).
    reflexivity.
  - intros Hin. apply in_map_iff in Hin. destruct Hin as (x & Hx & Hin).
    rewrite Forall_forall in Hall. destruct (Hall x Hin) as (m & [Hm Hcode] & Hlt).
    rewrite Hcode in Hx. apply category_code_injective in Hx; lia.
Qed.

Lemma createCategory_next_code_witness :
  let s2 := snd (serve_categories [(CreateCategory [] "Lamps" "", no_failure);
                                   (CreateCategory [] "Chairs" "", no_failure)]
                   empty_catalogue) in
  exists k,
    fst (perform exec_category no_failure 0 (createCategory [] "Desks" "wood") s2) =
      Some (mkReply 201 "Category created successfully"
              (OneCategory (Category.mk 3 (category_code k) "Desks" "wood"))) /\
    k = 3.
Proof.
  intros s2.
  destruct (serve_categories_in_order
              [(CreateCategory [] "Lamps" "", no_failure);
               (CreateCategory [] "Chairs" "", no_failure)]
              empty_catalogue 1 (conj empty_catalogue_in_order (empty_catalogue_below 1)))
    as [[Hs2 Hb2] _]; [lia | vm_compute; discriminate |].
  destruct (createCategory_next_code "Desks" "wood" s2 Hs2) as (k & Hrun & _ & Hk & _).
  - apply (codes_below_more (1 + 2)); [vm_compute; discriminate | exact Hb2].
  - reflexivity.
  - reflexivity.
  - reflexivity.
  - exists k. split.
    + cbv zeta in Hrun. rewrite Hrun. reflexivity.
    + apply (Hk [Category.mk 1 "C001" "Lamps" ""] (Category.mk 2 "C002" "Chairs" "") 2).
      * reflexivity.
      * split; [split; [lia | vm_compute; discriminate] | reflexivity].
Defined.

(** ** Two additions in flight *)





(** ** Registering and logging in *)

Section UserFacts.

Variable hash : string -> string.
Variable compare : string -> string -> bool.
Variable JWT_sign : Claims.t -> option string.

Ltac attempt_code :=
  cbn [guarded call attempt settle_user no_failure List.length Nat.eqb negb].

Lemma register_new email password role s :
  find_account email s = None ->
  role_allowed role = true ->
  attempt hash compare no_failure 0 (registerUser [] email password role) s =
    (Some (mkReply 201 "User Registered successfully"
             (Registered (Account.mk (accountSeq s) email (hash password) role))),
     mkAccounts
       (accounts s ++ [Account.mk (accountSeq s) email (hash password) role])
       (accountSeq s + 1)).
Proof.
  intros Hnew Hrole.
  assert (Hgiven : falsy_str role = false).
  { unfold falsy_str. destruct role; [discriminate Hrole | reflexivity]. }
  unfold registerUser. attempt_code. rewrite Hnew. attempt_code.
  rewrite Hgiven, Hnew, Hrole. reflexivity.
Qed.

Lemma login_registered email password s a :
  find_account email s = Some a ->
  attempt hash compare no_failure 0 (userLogin JWT_sign [] email password) s =
    (if negb (compare password (Account.password a))
     then Some (mkReply 401 "Invalid Password or email" NoUser)
     else match JWT_sign (Claims.mk (Account.id a) (Account.email a) (Account.role a)) with
          | None => Some user_internal_error
          | Some token =>
              Some (mkReply 200 "Login Successful"
                      (LoggedIn (profile a) token
                         (if String.eqb (Account.role a) "admin"
                          then "Admin access granted"
                          else "Customer access granted")))
          end, s).
Proof.
  intros Ha. unfold userLogin. attempt_code. rewrite Ha. attempt_code.
  destruct (compare password (Account.password a)); cbn [negb]; [| reflexivity].
  now destruct (JWT_sign _).
Qed.

(** X23. Registering and then logging in.  For an e-mail without an
    account and a role of the ENUM, registration is answered 201 and
    stores (and sends back) the hash of the password.  If the hash
    library accepts a password against its own hash and the token library
    signs the payload, logging in with the same e-mail and password is
    then answered 200 with the token signed over the new id, the e-mail
    and the role, and with the access message of that role; and any
    password the hash library does not accept against the stored hash is
    answered 401. *)
Theorem register_then_login email password role s token :
  find_account email s = None ->
  role_allowed role = true ->
  compare password (hash password) = true ->
  JWT_sign (Claims.mk (accountSeq s) email role) = Some token ->
  let new := Account.mk (accountSeq s) email (hash password) role in
  let s' := mkAccounts (accounts s ++ [new]) (accountSeq s + 1) in
  attempt hash compare no_failure 0 (registerUser [] email password role) s =
    (Some (mkReply 201 "User Registered successfully" (Registered new)), s') /\
  attempt hash compare no_failure 0 (userLogin JWT_sign [] email password) s' =
    (Some (mkReply 200 "Login Successful"
             (LoggedIn (Profile.mk (accountSeq s) email role) token
                (if String.eqb role "admin"
                 then "Admin access granted" else "Customer access granted"))), s') /\
  (forall wrong,
     compare wrong (hash password) = false ->
     attempt hash compare no_failure 0 (userLogin JWT_sign [] email wrong) s' =
       (Some (mkReply 401 "Invalid Password or email" NoUser), s')).
Proof.
  intros Hnew Hrole Hcompare Hsign new s'.
  assert (Hfound : find_account email s' = Some new).
  { unfold find_account. subst s'. cbn [accounts].
    apply find_appended; [exact Hnew | apply String.eqb_refl]. }
  split; [now apply register_new |]. split.
  - rewrite (login_registered email password s' new Hfound).
    subst new. cbn [Account.password Account.id Account.email Account.role].
    now rewrite Hcompare, Hsign.
  - intros wrong Hwrong.
    rewrite (login_registered email wrong s' new Hfound).
    subst new. cbn [Account.password]. now rewrite Hwrong.
Qed.

(** X24. An e-mail is registered once: when an account has the e-mail, a
    registration for it is answered 400 "Email already registered" when
    the lookup resolves, and whichever calls reject no account is added or
    changed. *)
Theorem registerUser_refuses_known_email email password role s existing :
  find_account email s = Some existing ->
  attempt hash compare no_failure 0 (registerUser [] email password role) s =
    (Some (mkReply 400 "Email already registered" NoUser), s) /\
  forall rejects errors,
    snd (attempt hash compare rejects 0 (registerUser errors email password role) s) = s.
Proof.
  intros Hknown. split.
  - unfold registerUser. attempt_code. now rewrite Hknown.
  - intros rejects errors. unfold registerUser.
    destruct (negb (List.length errors =? 0)%nat); [reflexivity |].
    cbn [guarded call attempt settle_user].
    destruct (rejects 0%nat); [reflexivity |]. now rewrite Hknown.
Qed.

End UserFacts.

Lemma register_then_login_witness :
  let s' := mkAccounts [Account.mk 1 "root@example.com" "#secret1" "admin"] 2 in
  attempt toy_hash toy_compare no_failure 0
    (registerUser [] "root@example.com" "secret1" "admin") (mkAccounts [] 1)
  = (Some (mkReply 201 "User Registered successfully"
             (Registered (Account.mk 1 "root@example.com" "#secret1" "admin"))), s') /\
  attempt toy_hash toy_compare no_failure 0
    (userLogin toy_sign [] "root@example.com" "secret1") s'
  = (Some (mkReply 200 "Login Successful"
             (LoggedIn (Profile.mk 1 "root@example.com" "admin")
                "admin.root@example.com" "Admin access granted")), s').
Proof.
  intros s'.
  destruct (register_then_login toy_hash toy_compare toy_sign
              "root@example.com" "secret1" "admin" (mkAccounts [] 1)
              "admin.root@example.com" eq_refl eq_refl eq_refl eq_refl)
    as (Hreg & Hlogin & _).
  split; [exact Hreg | exact Hlogin].
Defined.

Lemma registerUser_refuses_known_email_witness :
  let s' := mkAccounts [Account.mk 1 "root@example.com" "#secret1" "admin"] 2 in
  attempt toy_hash toy_compare no_failure 0
    (registerUser [] "root@example.com" "other" "customer") s'
  = (Some (mkReply 400 "Email already registered" NoUser), s').
Proof.
  intros s'.
  exact (proj1 (registerUser_refuses_known_email toy_hash toy_compare
                  "root@example.com" "other" "customer" s'
                  (Account.mk 1 "root@example.com" "#secret1" "admin") eq_refl)).
Defined.

(** ** From registration to the admin route *)

(** X25. Nothing stands between registering and the admin routes: for an
    e-mail without an account, a registration with role "admin" is
    accepted; the login that follows hands out a token over that role; and
    if the token library verifies what it signed, the route of getAllOrders
    lets a request with "Bearer <token>" through to the handler. *)
Theorem registered_admin_reaches_getAllOrders
  hash compare JWT_sign JWT_verify email password s token rejects srv :
  find_account email s = None ->
  compare password (hash password) = true ->
  JWT_sign (Claims.mk (accountSeq s) email "admin") = Some token ->
  JWT_verify token = Some (Claims.mk (accountSeq s) email "admin") ->
  contains space token = false ->
  exists s',
    attempt hash compare no_failure 0 (registerUser [] email password "admin") s
      = (Some (mkReply 201 "User Registered successfully"
                 (Registered (Account.mk (accountSeq s) email (hash password) "admin"))),
         s') /\
    attempt hash compare no_failure 0 (userLogin JWT_sign [] email password) s'
      = (Some (mkReply 200 "Login Successful"
                 (LoggedIn (Profile.mk (accountSeq s) email "admin") token
                    "Admin access granted")), s') /\
    exists o,
      fst (route_getallOrders JWT_verify (Some (String.append "Bearer " token))
             rejects srv) = inr o.
Proof.
  intros Hnew Hcompare Hsign Hverify Htoken.
  set (new := Account.mk (accountSeq s) email (hash password) "admin").
  exists (mkAccounts (accounts s ++ [new]) (accountSeq s + 1)).
  assert (Hfound : find_account email
                     (mkAccounts (accounts s ++ [new]) (accountSeq s + 1)) = Some new).
  { unfold find_account. cbn [accounts].
    apply find_appended; [exact Hnew | apply String.eqb_refl]. }
  split; [now apply register_new |]. split.
  - rewrite (login_registered hash compare JWT_sign email password _ new Hfound).
    subst new. cbn [Account.password Account.id Account.email Account.role].
    now rewrite Hcompare, Hsign.
  - unfold route_getallOrders.
    pose proof (authenticate_bearer JWT_verify token EmptyString Htoken
                  (or_introl eq_refl)) as Hauth.
    rewrite append_nothing, Hverify in Hauth. rewrite Hauth.
    cbn [authorizeRole Claims.role String.eqb Ascii.eqb Bool.eqb negb].
    destruct (perform exec_order rejects 0 getAllOrders srv) as [o srv'].
    now exists o.
Qed.

Lemma registered_admin_reaches_getAllOrders_witness :
  exists o,
    fst (route_getallOrders toy_verify (Some "Bearer admin.root@example.com")
           no_failure shop) = inr o.
Proof.
  destruct (registered_admin_reaches_getAllOrders toy_hash toy_compare toy_sign
              toy_verify "root@example.com" "secret1" (mkAccounts [] 1)
              "admin.root@example.com" no_failure shop
              eq_refl eq_refl eq_refl eq_refl eq_refl)
    as (s' & _ & _ & Hroute).
  exact Hroute.
Defined.
